(** * AlgoFi AMM: constant-product pool, StableSwap pool and their arithmetic

    A shallow embedding of the PyTeal contracts of [algofi/amm]:
    - [subroutines.py]       ([calculate_integer_wrapped_value], [send_asa],
                             [send_algo], [op_up]),
    - [stable_swap_math.py]  ([compute_D], [interpolate_amplification_factor]),
    - [pool.py]              ([AlgofiAMMPool]: pooling, burning, swapping,
                             flash loans and their helpers),
    - [stable_pool.py]       ([AlgofiAMMStablePool]: StableSwap issuance and the
                             amplification ramp).

    PyTeal programs are expression trees that the AVM evaluates against the
    application's global state, its scratch space and the transaction group.
    An expression is embedded as a function from the machine state to an
    optional result: [None] is a panic of the AVM (a failed [Assert], an
    arithmetic overflow or underflow, a division by zero, a missing
    transaction or argument), which rejects the whole atomic group. *)

From Stdlib Require Import ZArith List String Ascii Bool Lia.
Import ListNotations.
Local Open Scope Z_scope.

(** ** The AVM's arithmetic on [uint64] and on byte strings *)

Module AVM.

Definition MAX_UINT64 : Z := 18446744073709551615.

Definition uint64 (n : Z) : Prop := 0 <= n <= MAX_UINT64.

(** [+], [-], [*] panic when the result leaves [uint64]; [/] panics on a
    zero divisor. *)
Definition plus (a b : Z) : option Z :=
  if a + b <=? MAX_UINT64 then Some (a + b) else None.

Definition minus (a b : Z) : option Z :=
  if b <=? a then Some (a - b) else None.

Definition times (a b : Z) : option Z :=
  if a * b <=? MAX_UINT64 then Some (a * b) else None.

Definition divide (a b : Z) : option Z :=
  if b =? 0 then None else Some (a / b).

(** [mulw]/[divmodw] as PyTeal's [WideRatio] chains them: the products are
    taken at 128 bits (exact for the two-by-one ratios of this contract),
    the quotient must fit 64 bits. *)
Definition product (l : list Z) : Z := fold_right Z.mul 1 l.

Definition wide_ratio (num den : list Z) : option Z :=
  if product den =? 0 then None
  else let q := product num / product den in
       if q <=? MAX_UINT64 then Some q else None.

(** [sqrt]: the floor of the square root. *)
Definition sqrt (a : Z) : Z := Z.sqrt a.

(** Byte-string arithmetic ([b+], [b-], [b*], [b/]).  A byte string is read
    as a big-endian natural number and every operand is limited to 64
    bytes.  Operands here are either [itob] images (8 bytes) or results of
    byte arithmetic (of minimal length), so the length limit is a bound on
    the value. *)
Definition MAX_BYTES_OPERAND : Z := 2 ^ 512.

Definition operand_ok (a : Z) : bool := (0 <=? a) && (a <? MAX_BYTES_OPERAND).

Definition bytes_add (a b : Z) : option Z :=
  if operand_ok a && operand_ok b then Some (a + b) else None.

Definition bytes_minus (a b : Z) : option Z :=
  if operand_ok a && operand_ok b
  then if b <=? a then Some (a - b) else None
  else None.

Definition bytes_mul (a b : Z) : option Z :=
  if operand_ok a && operand_ok b then Some (a * b) else None.

Definition bytes_div (a b : Z) : option Z :=
  if operand_ok a && operand_ok b
  then if b =? 0 then None else Some (a / b)
  else None.

(** [b>], [b<=]: comparisons of byte strings as numbers. *)
Definition bytes_gt (a b : Z) : option bool :=
  if operand_ok a && operand_ok b then Some (b <? a) else None.

Definition bytes_le (a b : Z) : option bool :=
  if operand_ok a && operand_ok b then Some (a <=? b) else None.

(** [btoi] of the result of byte arithmetic: panics above 8 bytes. *)
Definition btoi_num (a : Z) : option Z :=
  if (0 <=? a) && (a <=? MAX_UINT64) then Some a else None.

(** [btoi] of a raw byte string (an application argument). *)
Definition bytes_value (s : string) : Z :=
  fold_left (fun acc c => acc * 256 + Z.of_nat (nat_of_ascii c))
            (list_ascii_of_string s) 0.

Definition btoi (s : string) : option Z :=
  if (String.length s <=? 8)%nat then Some (bytes_value s) else None.

(** [itob]: the 8 big-endian bytes of a [uint64]. *)
Fixpoint itob_bytes (n : nat) (v : Z) (acc : string) : string :=
  match n with
  | O => acc
  | S n' =>
      itob_bytes n' (v / 256)
                 (String (ascii_of_nat (Z.to_nat (v mod 256))) acc)
  end.

Definition itob (v : Z) : string := itob_bytes 8 v EmptyString.

End AVM.

(** ** Constants ([utils/constants.py], [amm/constants.py]) *)

Definition TRUE : Z := 1.
Definition FALSE : Z := 0.
Definition UNSET_INT : Z := 0.
Definition MAX_INT_U64 : Z := 2 ^ 64 - 1.
Definition FIXED_9_SCALE_FACTOR : Z := 1000000000.
Definition FIXED_6_SCALE_FACTOR : Z := 1000000.

Definition MAX_ASSET_RATIO : Z := 1000000000.
Definition DEFAULT_SWAP_FEE_PCT_SCALED : Z := 2500.
Definition MIN_POOL_BALANCE : Z := 1000.
Definition DEFAULT_PARAM_UPDATE_DELAY : Z := 5.
Definition MAX_AMPLIFICATION_FACTOR : Z := 400000000.
Definition DEFAULT_STABLESWAP_FEE_PCT_SCALED : Z := 1000.

(** ** The option monad of subroutine bodies *)

Definition obind {A B} (m : option A) (k : A -> option B) : option B :=
  match m with
  | Some a => k a
  | None => None
  end.

Declare Scope opt_scope.
Delimit Scope opt_scope with opt.
Notation "'let?' x ':=' m 'in' k" := (obind m (fun x => k))
  (at level 10, x name, m at level 100, k at level 200) : opt_scope.

(** ** [subroutines.py] *)

(** [calculate_integer_wrapped_value]: a [@Subroutine], so both arguments are
    values when the body runs. *)
Definition calculate_integer_wrapped_value (current_value addend : Z)
  : option Z :=
  (let? remaining_integer_space := AVM.minus MAX_INT_U64 current_value in
   if remaining_integer_space <? addend
   then let? d := AVM.minus addend remaining_integer_space in
        AVM.minus d 1
   else AVM.plus current_value addend)%opt.

(** ** The machine: global state, scratch space, inner transactions *)

(** The application's global key-value store.  A key that was never written
    reads as 0, so the store is a total function. *)
Inductive GlobalVar : Set :=
  | lp_id | admin | initialized | asset1_id | asset2_id
  | balance_1 | balance_2 | lp_circulation
  | reserve_factor | asset1_reserve | asset2_reserve
  | cumsum_time_weighted_asset1_to_asset2_price
  | cumsum_time_weighted_asset2_to_asset1_price
  | latest_time
  | cumsum_volume_asset1 | cumsum_volume_asset2
  | cumsum_volume_weighted_asset1_to_asset2_price
  | cumsum_volume_weighted_asset2_to_asset1_price
  | cumsum_fees_asset1 | cumsum_fees_asset2
  | flash_loan_fee | max_flash_loan_ratio
  | validator_index | manager_app_id_var | swap_fee_pct_scaled_var
  | swap_fee_update_time | next_swap_fee_pct_scaled_var | param_update_delay
  (* AlgofiAMMStablePool *)
  | initial_amplification_factor | future_amplification_factor
  | initial_amplification_factor_time | future_amplification_factor_time.

(** The scratch slots of [AlgofiAMMPool.__init__], and [D0_store] of the
    stable pool's [calculate_lp_issuance]. *)
Inductive ScratchSlot : Set :=
  | lp_issued_store | swap_output_amount_store | swap_fee_store
  | pool_asset1_amount_store | pool_asset2_amount_store
  | burn_asset1_amount_store | burn_asset2_amount_store
  | swap_input_is_asset1_store | swap_input_amount_store
  | swap_input_amount_less_fees_store
  | exact_amount_to_swap_for_store | required_swap_input_amount_store
  | required_swap_input_amount_plus_fees_store
  | residual_amount_store | pool_asset_ratio_store | incoming_asset_ratio_store
  | adjusted_pool_asset1_amount_store | adjusted_pool_asset2_amount_store
  | pool_asset1_residual_store | pool_asset2_residual_store
  | ratio_slippage_store | flash_loan_fee_store | fee_to_reserve_store
  | time_delta_store | asset1_to_asset2_price_store
  | asset2_to_asset1_price_store
  | lp_issued_from_asset1_store | lp_issued_from_asset2_store
  | D0_store.

Scheme Equality for GlobalVar.
Scheme Equality for ScratchSlot.

Definition Globals : Type := GlobalVar -> Z.
Definition Scratch : Type := ScratchSlot -> Z.

Definition set_global (v : GlobalVar) (x : Z) (g : Globals) : Globals :=
  fun v' => if GlobalVar_beq v v' then x else g v'.

Definition set_scratch (v : ScratchSlot) (x : Z) (s : Scratch) : Scratch :=
  fun v' => if ScratchSlot_beq v v' then x else s v'.

(** What an inner transaction submitted by the contract does. *)
Inductive InnerTxn : Set :=
  | PaymentTo (receiver amount : Z)
  | AssetTransferTo (xfer_asset amount receiver : Z)
  | ApplicationCallTo (application_id : Z).

Record Machine : Type := mkMachine {
  globals : Globals;
  scratch : Scratch;
  submitted : list InnerTxn
}.

(** ** The transaction group an application call runs in *)

Module TxnType.
Definition Payment : Z := 1.
Definition AssetTransfer : Z := 4.
Definition ApplicationCall : Z := 6.
End TxnType.

Module OnComplete.
Definition NoOp : Z := 0.
End OnComplete.

(** A transaction of the group; a field that does not apply to the
    transaction's type reads as zero.  Addresses are 32-byte strings, kept as
    the number they spell. *)
Record Transaction : Type := mkTransaction {
  type_enum : Z;
  on_completion : Z;
  sender : Z;
  fee : Z;
  receiver : Z;
  amount : Z;
  xfer_asset : Z;
  asset_receiver : Z;
  asset_amount : Z;
  application_id : Z;
  application_args : list string
}.

Record Env : Type := mkEnv {
  group : list Transaction;
  group_index : Z;
  current_application_id : Z;
  current_application_address : Z;
  latest_timestamp : Z;
  min_txn_fee : Z;
  min_balance : Z;
  (** [Balance(Global.current_application_address())] *)
  escrow_balance : Z;
  (** [App.globalGetEx(manager_app_id, key)]: absent or a value *)
  manager_admin : option Z;
  manager_reserve_factor : option Z;
  manager_flash_loan_fee : option Z;
  manager_max_flash_loan_ratio : option Z
}.

(** ** PyTeal expressions

    [M A] is an expression (or a statement, at [A = unit]) of the program:
    it reads and writes the machine, and panics with [None].  Python-level
    helper functions of the contract build expression trees, so their
    arguments are expressions, re-evaluated at every use; [@Subroutine]
    functions receive values. *)

Definition M (A : Type) : Type := Machine -> option (A * Machine).
Definition Expr : Type := M Z.
Definition Stmt : Type := M unit.

Definition ret {A} (a : A) : M A := fun m => Some (a, m).
Definition panic {A} : M A := fun _ => None.
Definition bind {A B} (e : M A) (k : A -> M B) : M B :=
  fun m => match e m with
           | Some (a, m') => k a m'
           | None => None
           end.

Declare Scope teal_scope.
Delimit Scope teal_scope with teal.

Notation "x <- e ;; k" := (bind e (fun x => k))
  (at level 61, e at next level, right associativity) : teal_scope.
Notation "e ;; k" := (bind e (fun _ => k))
  (at level 61, right associativity) : teal_scope.

(** TEAL truth values are [uint64]: zero is false. *)
Definition of_bool (b : bool) : Z := if b then 1 else 0.
Definition truthy (v : Z) : bool := negb (v =? 0).

Definition lift_option {A} (o : option A) : M A :=
  match o with Some a => ret a | None => panic end.

Definition Int (n : Z) : Expr := ret n.

Definition binop (f : Z -> Z -> option Z) (a b : Expr) : Expr :=
  (x <- a ;; y <- b ;; lift_option (f x y))%teal.

Definition compare (f : Z -> Z -> bool) (a b : Expr) : Expr :=
  (x <- a ;; y <- b ;; ret (of_bool (f x y)))%teal.

Definition Add : Expr -> Expr -> Expr := binop AVM.plus.
Definition Minus : Expr -> Expr -> Expr := binop AVM.minus.
Definition Mul : Expr -> Expr -> Expr := binop AVM.times.
Definition Div : Expr -> Expr -> Expr := binop AVM.divide.
Definition Eq : Expr -> Expr -> Expr := compare Z.eqb.
Definition Neq : Expr -> Expr -> Expr := compare (fun x y => negb (x =? y)).
Definition Lt : Expr -> Expr -> Expr := compare Z.ltb.
Definition Le : Expr -> Expr -> Expr := compare Z.leb.
Definition Gt : Expr -> Expr -> Expr := compare (fun x y => y <? x).
Definition Ge : Expr -> Expr -> Expr := compare (fun x y => y <=? x).
(** [And], [Or] evaluate both operands ([&&], [||] on the stack). *)
Definition And : Expr -> Expr -> Expr :=
  compare (fun x y => truthy x && truthy y).
Definition Or : Expr -> Expr -> Expr :=
  compare (fun x y => truthy x || truthy y).
Definition Not (a : Expr) : Expr := (x <- a ;; ret (of_bool (x =? 0)))%teal.
Definition Sqrt (a : Expr) : Expr := (x <- a ;; ret (AVM.sqrt x))%teal.

Fixpoint eval_all (l : list Expr) : M (list Z) :=
  match l with
  | [] => ret []
  | e :: l' => (x <- e ;; xs <- eval_all l' ;; ret (x :: xs))%teal
  end.

Definition WideRatio (num den : list Expr) : Expr :=
  (ns <- eval_all num ;; ds <- eval_all den ;;
   lift_option (AVM.wide_ratio ns ds))%teal.

Definition Assert (cond : Expr) : Stmt :=
  (c <- cond ;; if truthy c then ret tt else panic)%teal.

Definition If {A} (cond : Expr) (thenBranch elseBranch : M A) : M A :=
  (c <- cond ;; if truthy c then thenBranch else elseBranch)%teal.

(** [If(cond, thenBranch)] without an else branch. *)
Definition When (cond : Expr) (thenBranch : Stmt) : Stmt :=
  If cond thenBranch (ret tt).

(** [Cond([c1, b1], [c2, b2], ...)]: the first branch whose condition holds;
    the program panics when none does. *)
Fixpoint Cond {A} (branches : list (Expr * M A)) : M A :=
  match branches with
  | [] => panic
  | (c, b) :: rest => If c b (Cond rest)
  end.

Fixpoint Seq (l : list Stmt) : Stmt :=
  match l with
  | [] => ret tt
  | s :: l' => (s ;; Seq l')%teal
  end.

Notation "a + b" := (Add a b) : teal_scope.
Notation "a - b" := (Minus a b) : teal_scope.
Notation "a * b" := (Mul a b) : teal_scope.
Notation "a / b" := (Div a b) : teal_scope.
Notation "a == b" := (Eq a b) (at level 70, no associativity) : teal_scope.
Notation "a != b" := (Neq a b) (at level 70, no associativity) : teal_scope.
Notation "a < b" := (Lt a b) : teal_scope.
Notation "a <= b" := (Le a b) : teal_scope.
Notation "a > b" := (Gt a b) : teal_scope.
Notation "a >= b" := (Ge a b) : teal_scope.

(** Reading and updating the machine. *)
Definition reads {A} (f : Machine -> A) : M A := fun m => Some (f m, m).
Definition modify (f : Machine -> Machine) : Stmt := fun m => Some (tt, f m).

(** [WrappedVar.get]/[put] on a [GLOBAL_VAR], [ScratchVar.load]/[store]. *)
Definition get (v : GlobalVar) : Expr := reads (fun m => globals m v).

Definition put (v : GlobalVar) (val : Expr) : Stmt :=
  (x <- val ;;
   modify (fun m => mkMachine (set_global v x (globals m)) (scratch m)
                              (submitted m)))%teal.

Definition load (v : ScratchSlot) : Expr := reads (fun m => scratch m v).

Definition store (v : ScratchSlot) (val : Expr) : Stmt :=
  (x <- val ;;
   modify (fun m => mkMachine (globals m) (set_scratch v x (scratch m))
                              (submitted m)))%teal.

Definition submit (t : InnerTxn) : Stmt :=
  modify (fun m => mkMachine (globals m) (scratch m) (submitted m ++ [t])).

(** [increment], [decrement] of [pool.py]. *)
Definition increment (var : GlobalVar) (amount : Expr) : Stmt :=
  put var (get var + amount)%teal.

Definition decrement (var : GlobalVar) (amount : Expr) : Stmt :=
  put var (get var - amount)%teal.

(** A [MaybeValue] read from the manager's global state. *)
Definition hasValue (v : option Z) : Expr :=
  Int (of_bool (match v with Some _ => true | None => false end)).
Definition value (v : option Z) : Expr :=
  Int (match v with Some x => x | None => 0 end).

(** ** Operation names ([contract_strings.py]) *)

(** Modelled from the spec: [contract_strings.py] is not among the sources;
    the operation tags are those the specification lists for the first
    application argument (pool, swap-exact-for, swap-for-exact, flash loan,
    the two burn sides and the three residual redemptions). *)
Module AlgofiAMMPoolStrings.
Definition pool : string := "p".
Definition swap_exact_for : string := "s".
Definition swap_for_exact : string := "f".
Definition flash_loan : string := "fl".
Definition burn_asset1_out : string := "b1".
Definition burn_asset2_out : string := "b2".
Definition redeem_pool_asset1_residual : string := "rr1".
Definition redeem_pool_asset2_residual : string := "rr2".
Definition redeem_swap_residual : string := "rrs".
End AlgofiAMMPoolStrings.

(** The methods that [AlgofiAMMStablePool] overrides in [AlgofiAMMPool]. *)
Record PoolMethods : Type := mkPoolMethods {
  swap_exact_asset1_for : Expr -> Expr;
  swap_exact_asset2_for : Expr -> Expr;
  swap_for_exact_asset1_amount : Expr -> Expr;
  swap_for_exact_asset2_amount : Expr -> Expr;
  calculate_lp_issuance : Expr -> Stmt
}.

(** The transaction at a position of the group, if there is one. *)
Definition txn_at (env : Env) (i : Z) : option Transaction :=
  nth_error (group env) (Z.to_nat i).

Section Contract.

Variable env : Env.

Local Open Scope teal_scope.

(** *** Transaction and global fields *)

Definition Gtxn {A} (idx : Expr) (field : Transaction -> A) : M A :=
  i <- idx ;;
  lift_option (option_map field (txn_at env i)).

Definition Txn_group_index : Expr := Int (group_index env).

Definition Txn {A} (field : Transaction -> A) : M A :=
  Gtxn Txn_group_index field.

(** [txn.application_args[k]]: panics when the argument is missing. *)
Definition arg (k : nat) (t : M (list string)) : M string :=
  l <- t ;; lift_option (nth_error l k).

Definition Btoi (b : M string) : Expr :=
  s <- b ;; lift_option (AVM.btoi s).

Definition BytesEq (b : M string) (name : string) : Expr :=
  s <- b ;; ret (of_bool (String.eqb s name)).

Definition Global_group_size : Expr := Int (Z.of_nat (List.length (group env))).
Definition Global_latest_timestamp : Expr := Int (latest_timestamp env).
Definition Global_current_application_id : Expr :=
  Int (current_application_id env).
Definition Global_current_application_address : Expr :=
  Int (current_application_address env).
Definition Global_min_txn_fee : Expr := Int (min_txn_fee env).
Definition Global_min_balance : Expr := Int (min_balance env).
(** [Balance] is only asked of the application's own address. *)
Definition Balance (_ : Expr) : Expr := Int (escrow_balance env).

(** *** [constants.py]: positions in the group *)

Definition relative_index (offset : Z) : Expr :=
  if (0 <? offset)%Z then Txn_group_index + Int offset
  else Txn_group_index - Int (Z.abs offset).

Definition POOL__ASSET1_IN_IDX := relative_index (-2).
Definition POOL__ASSET2_IN_IDX := relative_index (-1).
Definition POOL__REDEEM_POOL_ASSET1_RESIDUAL_IDX := relative_index 1.
Definition POOL__REDEEM_POOL_ASSET2_RESIDUAL_IDX := relative_index 2.
Definition BURN_ASSET1_OUT__LP_IN_IDX := relative_index (-1).
Definition BURN_ASSET1_OUT__BURN_ASSET2_OUT_IDX := relative_index 1.
Definition BURN_ASSET2_OUT__LP_IN_IDX := relative_index (-2).
Definition BURN_ASSET2_OUT__BURN_ASSET1_OUT_IDX := relative_index (-1).
Definition SWAP__SWAP_IN_IDX := relative_index (-1).
Definition SWAP__REDEEM_SWAP_RESIDUAL_IDX := relative_index 1.
Definition FLASH_LOAN_IDX : Expr := Int 0.
Definition FLASH_LOAN_REPAY_IDX : Expr := Global_group_size - Int 1.

(** *** [subroutines.py]: inner transactions

    Submitting an inner transaction is recorded in [submitted]; that the
    ledger can honour it is the host's concern, apart from the balance
    check [send_algo] makes itself. *)

Definition send_asa (asset_id amount : Expr) : Stmt :=
  a <- asset_id ;; n <- amount ;;
  s <- Txn sender ;;
  submit (AssetTransferTo a n s).

Definition send_algo (amount : Expr) : Stmt :=
  n <- amount ;;
  Assert (Balance Global_current_application_address
          >= Int n + Global_min_balance) ;;
  s <- Txn sender ;;
  submit (PaymentTo s n).

(** [op_up]: [fee / 1000] inner calls to the op-farm application.  The
    opcode budget that these calls buy is not part of the machine. *)
Definition op_up (fee_budget op_farm_app_id : Expr) : Stmt :=
  f <- fee_budget ;; app <- op_farm_app_id ;;
  Seq (repeat (submit (ApplicationCallTo app)) (Z.to_nat (f / 1000))).

(** Calling the [@Subroutine] [calculate_integer_wrapped_value]. *)
Definition wrapped (current_value addend : Expr) : Expr :=
  c <- current_value ;; a <- addend ;;
  lift_option (calculate_integer_wrapped_value c a).

(** *** [pool.py]: group validation helpers *)

Definition verify_txn_is_named_application_call
    (idx : Expr) (name : string) : Stmt :=
  Seq [ Assert (Gtxn idx on_completion == Int OnComplete.NoOp);
        Assert (Gtxn idx type_enum == Int TxnType.ApplicationCall);
        Assert (Gtxn idx application_id == Global_current_application_id);
        Assert (BytesEq (arg 0 (Gtxn idx application_args)) name) ].

Definition verify_txn_is_sending_algos_to_pool (idx : Expr) : Stmt :=
  Seq [ Assert (Gtxn idx type_enum == Int TxnType.Payment);
        Assert (Gtxn idx receiver == Global_current_application_address);
        Assert (Gtxn idx amount > Int 0) ].

Definition verify_txn_is_sending_asa_to_pool (idx asset_id : Expr) : Stmt :=
  Seq [ Assert (Gtxn idx type_enum == Int TxnType.AssetTransfer);
        Assert (Gtxn idx xfer_asset == asset_id);
        Assert (Gtxn idx asset_receiver
                == Global_current_application_address);
        Assert (Gtxn idx asset_amount > Int 0) ].

(** *** [stable_swap_math.py]

    The three functions are [@Subroutine]s: they run on argument values.
    The scratch variables of [compute_D] are local to it and are the
    variables of the loop below. *)

Local Open Scope opt_scope.

Definition n_coins : Z := 2.

(** [Ann_calc]: [amplification_param * Exp(n_coins, n_coins)]. *)
Definition Ann_calc (amplification_param : Z) : option Z :=
  AVM.times amplification_param (n_coins ^ n_coins).

(** [D_prod_calc] then [D_estimate_calc], from [D_prev]: one Newton-like
    update of the estimate. *)
Definition D_estimate_calc
    (amplification_param AnnS D_prod_denom D_prev : Z) : option Z :=
  let? D_sq := AVM.bytes_mul D_prev D_prev in
  let? D_prod_num := AVM.bytes_mul D_prev D_sq in
  let? D_prod := AVM.bytes_div D_prod_num D_prod_denom in
  (* numerator *)
  let? D_prod_n := AVM.bytes_mul D_prod n_coins in
  let? sum := AVM.bytes_add AnnS D_prod_n in
  let? D_estimate_num := AVM.bytes_mul sum D_prev in
  (* denominator *)
  let? Ann := Ann_calc amplification_param in
  let? Ann_less_one := AVM.minus Ann FIXED_6_SCALE_FACTOR in
  let? scaled := AVM.bytes_mul Ann_less_one D_prev in
  let? left := AVM.bytes_div scaled FIXED_6_SCALE_FACTOR in
  let? n_plus_1 := AVM.plus n_coins 1 in
  let? right := AVM.bytes_mul D_prod n_plus_1 in
  let? D_estimate_denom := AVM.bytes_add left right in
  AVM.bytes_div D_estimate_num D_estimate_denom.

(** The test at the end of a round: the two estimates differ by at most
    one. *)
Definition D_converged (D_estimate D_prev : Z) : option bool :=
  let? above := AVM.bytes_gt D_estimate D_prev in
  if above
  then let? diff := AVM.bytes_minus D_estimate D_prev in
       AVM.bytes_le diff 1
  else let? diff := AVM.bytes_minus D_prev D_estimate in
       AVM.bytes_le diff 1.

(** The [For] loop with [rounds] iterations left; [None] after the last
    one is the failing [Assert(i.load() < Int(255))]. *)
Fixpoint D_loop (amplification_param AnnS D_prod_denom : Z)
    (rounds : nat) (D_estimate : Z) : option Z :=
  match rounds with
  | O => None
  | S rounds' =>
      let D_prev := D_estimate in
      let? D_estimate' :=
        D_estimate_calc amplification_param AnnS D_prod_denom D_prev in
      let? done := D_converged D_estimate' D_prev in
      if done then AVM.btoi_num D_estimate'
      else D_loop amplification_param AnnS D_prod_denom rounds' D_estimate'
  end.

Definition compute_D (asset1_amount asset2_amount amplification_param : Z)
  : option Z :=
  let? S := AVM.plus asset1_amount asset2_amount in
  if S =? 0 then Some 0
  else
    let? Ann := Ann_calc amplification_param in
    let? AnnS_num := AVM.bytes_mul Ann S in
    let? AnnS := AVM.bytes_div AnnS_num FIXED_6_SCALE_FACTOR in
    let? prod := AVM.bytes_mul asset2_amount asset1_amount in
    let? D_prod_denom := AVM.bytes_mul (n_coins ^ n_coins) prod in
    D_loop amplification_param AnnS D_prod_denom 255 S.

Definition interpolate_amplification_factor
    (initial_A future_A initial_A_time future_A_time : Z) : option Z :=
  if latest_timestamp env <? future_A_time
  then
    if initial_A <? future_A
    then let? dA := AVM.minus future_A initial_A in
         let? elapsed := AVM.minus (latest_timestamp env) initial_A_time in
         let? scaled := AVM.times dA elapsed in
         let? span := AVM.minus future_A_time initial_A_time in
         let? step := AVM.divide scaled span in
         AVM.plus initial_A step
    else let? dA := AVM.minus initial_A future_A in
         let? elapsed := AVM.minus (latest_timestamp env) initial_A_time in
         let? scaled := AVM.times dA elapsed in
         let? span := AVM.minus future_A_time initial_A_time in
         let? step := AVM.divide scaled span in
         AVM.minus initial_A step
  else Some future_A.

(** The solver for the other side's new total, [x_1 = (x_1^2 + c) /
    (2 x_1 + b - D)], with the same loop shape as [compute_D]. *)
Definition estimate_calc (b c D estimate : Z) : option Z :=
  let? sq := AVM.bytes_mul estimate estimate in
  let? estimate_num := AVM.bytes_add sq c in
  let? twice := AVM.times 2 estimate in
  let? twice_b := AVM.plus twice b in
  let? estimate_denom := AVM.minus twice_b D in
  let? q := AVM.bytes_div estimate_num estimate_denom in
  AVM.btoi_num q.

Definition ret_calc (previous_output_asset_total estimate : Z) : option Z :=
  if estimate <? previous_output_asset_total
  then AVM.minus previous_output_asset_total estimate
  else AVM.minus estimate previous_output_asset_total.

Definition estimate_converged (estimate estimate_prev : Z) : option bool :=
  if estimate_prev <? estimate
  then let? diff := AVM.minus estimate estimate_prev in Some (diff <=? 1)
  else let? diff := AVM.minus estimate_prev estimate in Some (diff <=? 1).

Fixpoint output_loop (previous_output_asset_total b c D : Z)
    (rounds : nat) (estimate : Z) : option Z :=
  match rounds with
  | O => None
  | S rounds' =>
      let estimate_prev := estimate in
      let? estimate' := estimate_calc b c D estimate_prev in
      let? done := estimate_converged estimate' estimate_prev in
      if done then ret_calc previous_output_asset_total estimate'
      else output_loop previous_output_asset_total b c D rounds' estimate'
  end.

Definition compute_other_asset_output_stable_swap
    (input_asset_new_total input_asset_previous_total
     previous_output_asset_total amplification_param : Z) : option Z :=
  let? D := compute_D input_asset_previous_total
                      previous_output_asset_total amplification_param in
  let S := input_asset_new_total in
  let? Ann := Ann_calc amplification_param in
  let? ratio := AVM.wide_ratio [D; FIXED_6_SCALE_FACTOR] [Ann] in
  let? b := AVM.plus S ratio in
  let? D1 := AVM.bytes_mul D FIXED_6_SCALE_FACTOR in
  let? D2 := AVM.bytes_mul D D1 in
  let? D3 := AVM.bytes_mul D D2 in
  let? Ann' := Ann_calc amplification_param in
  let? Ann_nn := AVM.bytes_mul Ann' (n_coins ^ n_coins) in
  let? c_denom := AVM.bytes_mul input_asset_new_total Ann_nn in
  let? c := AVM.bytes_div D3 c_denom in
  output_loop previous_output_asset_total b c D 255 D.

Local Close Scope opt_scope.

(** Calls of these subroutines from expressions: the arguments are
    evaluated, left to right, before the body runs. *)
Definition call3 (f : Z -> Z -> Z -> option Z) (a b c : Expr) : Expr :=
  x <- a ;; y <- b ;; z <- c ;; lift_option (f x y z).

Definition call4 (f : Z -> Z -> Z -> Z -> option Z) (a b c d : Expr)
  : Expr :=
  x <- a ;; y <- b ;; z <- c ;; w <- d ;; lift_option (f x y z w).

(** *** [pool.py]: [AlgofiAMMPool] *)

Definition convert_asset1_to_lp (asset1_amount : Expr) : Expr :=
  WideRatio [asset1_amount; get lp_circulation] [get balance_1].

Definition convert_asset2_to_lp (asset2_amount : Expr) : Expr :=
  WideRatio [asset2_amount; get lp_circulation] [get balance_2].

Definition convert_lp_to_asset1 (amount_lp : Expr) : Expr :=
  WideRatio [amount_lp; get balance_1] [get lp_circulation].

Definition convert_lp_to_asset2 (amount_lp : Expr) : Expr :=
  WideRatio [amount_lp; get balance_2] [get lp_circulation].

Definition AlgofiAMMPool_swap_exact_asset1_for (asset1_amount : Expr)
  : Expr :=
  WideRatio [get balance_2; asset1_amount] [get balance_1 + asset1_amount].

Definition AlgofiAMMPool_swap_exact_asset2_for (asset2_amount : Expr)
  : Expr :=
  WideRatio [get balance_1; asset2_amount] [get balance_2 + asset2_amount].

Definition AlgofiAMMPool_swap_for_exact_asset1_amount (asset1_amount : Expr)
  : Expr :=
  WideRatio [get balance_2; asset1_amount] [get balance_1 - asset1_amount]
  + Int 1.

Definition AlgofiAMMPool_swap_for_exact_asset2_amount (asset2_amount : Expr)
  : Expr :=
  WideRatio [get balance_1; asset2_amount] [get balance_2 - asset2_amount]
  + Int 1.

Definition send_asset1 (amount : Expr) : Stmt :=
  If (get asset1_id == Int 1)
     (send_algo amount)
     (send_asa (get asset1_id) amount).

Definition send_asset2 (amount : Expr) : Stmt :=
  send_asa (get asset2_id) amount.

Definition send_lp (amount : Expr) : Stmt :=
  send_asa (get lp_id) amount.

(** The three updates below read a [MaybeValue] of the manager's state;
    loading it, the first element of each [Seq] in the source, has no effect
    of its own. *)
Definition update_reserve_factor : Stmt :=
  Seq [ Assert (hasValue (manager_reserve_factor env));
        Assert (value (manager_reserve_factor env)
                <= Int FIXED_6_SCALE_FACTOR);
        put reserve_factor (value (manager_reserve_factor env)) ].

Definition update_flash_loan_fee : Stmt :=
  Seq [ Assert (hasValue (manager_flash_loan_fee env));
        Assert (value (manager_flash_loan_fee env)
                <= Int FIXED_6_SCALE_FACTOR);
        put flash_loan_fee (value (manager_flash_loan_fee env)) ].

Definition update_max_flash_loan_ratio : Stmt :=
  Seq [ Assert (hasValue (manager_max_flash_loan_ratio env));
        Assert (value (manager_max_flash_loan_ratio env)
                <= Int FIXED_6_SCALE_FACTOR);
        put max_flash_loan_ratio
            (value (manager_max_flash_loan_ratio env)) ].

Definition update_reserves (fee_is_asset1 amount : Expr) : Stmt :=
  let fee_to_reserve :=
    WideRatio [amount; get reserve_factor] [Int FIXED_6_SCALE_FACTOR] in
  let fees_less_reserve := amount - load fee_to_reserve_store in
  Seq [ store fee_to_reserve_store fee_to_reserve;
        If fee_is_asset1
           (Seq [ decrement balance_1 (load fee_to_reserve_store);
                  increment asset1_reserve (load fee_to_reserve_store);
                  put cumsum_fees_asset1
                      (wrapped (get cumsum_fees_asset1)
                               fees_less_reserve) ])
           (Seq [ decrement balance_2 (load fee_to_reserve_store);
                  increment asset2_reserve (load fee_to_reserve_store);
                  put cumsum_fees_asset2
                      (wrapped (get cumsum_fees_asset2)
                               fees_less_reserve) ]) ].

Definition validate_asset_ratio : Stmt :=
  Seq [ Assert (get balance_1 >= Int MIN_POOL_BALANCE);
        Assert (get balance_2 >= Int MIN_POOL_BALANCE);
        Assert (get balance_1 / get balance_2 < Int MAX_ASSET_RATIO);
        Assert (get balance_2 / get balance_1 < Int MAX_ASSET_RATIO) ].

Definition AlgofiAMMPool_calculate_lp_issuance (pool_is_empty : Expr)
  : Stmt :=
  If pool_is_empty
     (Seq [ If (Int MAX_INT_U64 / load adjusted_pool_asset1_amount_store
                > load adjusted_pool_asset2_amount_store)
               (store lp_issued_store
                  (Sqrt (load adjusted_pool_asset1_amount_store
                         * load adjusted_pool_asset2_amount_store)))
               (store lp_issued_store
                  (Sqrt (load adjusted_pool_asset1_amount_store)
                   * Sqrt (load adjusted_pool_asset2_amount_store))) ])
     (Seq [ store lp_issued_from_asset1_store
              (convert_asset1_to_lp
                 (load adjusted_pool_asset1_amount_store));
            store lp_issued_from_asset2_store
              (convert_asset2_to_lp
                 (load adjusted_pool_asset2_amount_store));
            If (load lp_issued_from_asset1_store
                > load lp_issued_from_asset2_store)
               (store lp_issued_store (load lp_issued_from_asset2_store))
               (store lp_issued_store (load lp_issued_from_asset1_store)) ]).

Definition adjust_pool_input_amounts (pool_is_empty : Expr) : Stmt :=
  let pool_slippage_pct_scaled := Btoi (arg 1 (Txn application_args)) in
  let pool_asset_ratio :=
    WideRatio [get balance_1; Int FIXED_9_SCALE_FACTOR] [get balance_2] in
  let incoming_asset_ratio :=
    WideRatio [load pool_asset1_amount_store; Int FIXED_9_SCALE_FACTOR]
              [load pool_asset2_amount_store] in
  let ratio_slippage :=
    WideRatio [load pool_asset_ratio_store; Int FIXED_6_SCALE_FACTOR]
              [load incoming_asset_ratio_store] in
  let ratio_slippage_within_tolerance :=
    And (load ratio_slippage_store
         > Int FIXED_6_SCALE_FACTOR - pool_slippage_pct_scaled)
        (load ratio_slippage_store
         < Int FIXED_6_SCALE_FACTOR + pool_slippage_pct_scaled) in
  (* maximum asset1 amount to pool given the full amount of asset2 *)
  let adjusted_pool_asset1_amount :=
    WideRatio [load pool_asset2_amount_store; get balance_1]
              [get balance_2] + Int 1 in
  (* maximum asset2 amount to pool given the full amount of asset1 *)
  let adjusted_pool_asset2_amount :=
    WideRatio [load pool_asset1_amount_store; get balance_2]
              [get balance_1] + Int 1 in
  If pool_is_empty
     (* empty pools will initialize at the provided ratio *)
     (Seq [ store adjusted_pool_asset1_amount_store
                  (load pool_asset1_amount_store);
            store adjusted_pool_asset2_amount_store
                  (load pool_asset2_amount_store) ])
     (Seq [ store pool_asset_ratio_store pool_asset_ratio;
            store incoming_asset_ratio_store incoming_asset_ratio;
            store ratio_slippage_store ratio_slippage;
            Assert ratio_slippage_within_tolerance;
            Cond [ (load incoming_asset_ratio_store
                    > load pool_asset_ratio_store, (* too much asset1 *)
                    Seq [ store adjusted_pool_asset1_amount_store
                                adjusted_pool_asset1_amount;
                          store adjusted_pool_asset2_amount_store
                                (load pool_asset2_amount_store);
                          store pool_asset1_residual_store
                                (load pool_asset1_amount_store
                                 - load adjusted_pool_asset1_amount_store);
                          store pool_asset2_residual_store (Int 0) ]);
                   (load incoming_asset_ratio_store
                    < load pool_asset_ratio_store, (* too much asset2 *)
                    Seq [ store adjusted_pool_asset1_amount_store
                                (load pool_asset1_amount_store);
                          store adjusted_pool_asset2_amount_store
                                adjusted_pool_asset2_amount;
                          store pool_asset1_residual_store (Int 0);
                          store pool_asset2_residual_store
                                (load pool_asset2_amount_store
                                 - load adjusted_pool_asset2_amount_store) ]);
                   (load incoming_asset_ratio_store
                    == load pool_asset_ratio_store,
                    Seq [ store adjusted_pool_asset1_amount_store
                                (load pool_asset1_amount_store);
                          store adjusted_pool_asset2_amount_store
                                (load pool_asset2_amount_store);
                          store pool_asset1_residual_store (Int 0);
                          store pool_asset2_residual_store (Int 0) ]) ] ]).

(** The methods below are inherited unchanged by the stable pool; [self]
    stands for the object they are called on. *)
Section Methods.

Variable self : PoolMethods.

Definition on_pool : Expr :=
  let validate_asset1_payment_txn :=
    let asset1_is_algo := get asset1_id == Int 1 in
    Seq [ If asset1_is_algo
             (Seq [ verify_txn_is_sending_algos_to_pool
                      POOL__ASSET1_IN_IDX;
                    store pool_asset1_amount_store
                          (Gtxn POOL__ASSET1_IN_IDX amount) ])
             (Seq [ verify_txn_is_sending_asa_to_pool
                      POOL__ASSET1_IN_IDX (get asset1_id);
                    store pool_asset1_amount_store
                          (Gtxn POOL__ASSET1_IN_IDX asset_amount) ]) ] in
  let validate_asset2_payment_txn :=
    Seq [ verify_txn_is_sending_asa_to_pool
            POOL__ASSET2_IN_IDX (get asset2_id);
          store pool_asset2_amount_store
                (Gtxn POOL__ASSET2_IN_IDX asset_amount) ] in
  let validate_pool_txn :=
    Seq [ Assert (Txn on_completion == Int OnComplete.NoOp);
          Assert (Txn type_enum == Int TxnType.ApplicationCall) ] in
  let validate_redeem_asset1_residual_txn :=
    verify_txn_is_named_application_call
      POOL__REDEEM_POOL_ASSET1_RESIDUAL_IDX
      AlgofiAMMPoolStrings.redeem_pool_asset1_residual in
  let validate_redeem_asset2_residual_txn :=
    verify_txn_is_named_application_call
      POOL__REDEEM_POOL_ASSET2_RESIDUAL_IDX
      AlgofiAMMPoolStrings.redeem_pool_asset2_residual in
  let validate_lp_issuance_nonzero :=
    Seq [ Assert (load lp_issued_store > Int 0) ] in
  let pool_is_empty := (get balance_1 + get balance_2) == Int 0 in
  let update_balances :=
    Seq [ When pool_is_empty (put latest_time Global_latest_timestamp);
          increment balance_1 (load adjusted_pool_asset1_amount_store);
          increment balance_2 (load adjusted_pool_asset2_amount_store);
          increment lp_circulation (load lp_issued_store) ] in
  Seq [ validate_asset1_payment_txn;
        validate_asset2_payment_txn;
        validate_pool_txn;
        validate_redeem_asset1_residual_txn;
        validate_redeem_asset2_residual_txn;
        adjust_pool_input_amounts pool_is_empty;
        calculate_lp_issuance self pool_is_empty;
        validate_lp_issuance_nonzero;
        update_balances;
        send_lp (load lp_issued_store);
        validate_asset_ratio ] ;;
  Int 1.

Definition on_burn_asset1_out : Expr :=
  let lp_asset_amount := Gtxn BURN_ASSET1_OUT__LP_IN_IDX asset_amount in
  let validate_lp_payment_txn :=
    Seq [ verify_txn_is_sending_asa_to_pool
            BURN_ASSET1_OUT__LP_IN_IDX (get lp_id) ] in
  let validate_burn_asset1_out_txn :=
    Seq [ Assert (Txn on_completion == Int OnComplete.NoOp);
          Assert (Txn type_enum == Int TxnType.ApplicationCall) ] in
  let validate_burn_asset2_out_txn :=
    verify_txn_is_named_application_call
      BURN_ASSET1_OUT__BURN_ASSET2_OUT_IDX
      AlgofiAMMPoolStrings.burn_asset2_out in
  let handle_burn_asset1_out_txn :=
    let asset1_amount := convert_lp_to_asset1 lp_asset_amount in
    let burning_remaining_lp_circulation :=
      lp_asset_amount == get lp_circulation in
    Seq [ If burning_remaining_lp_circulation
             (store burn_asset1_amount_store (get balance_1))
             (store burn_asset1_amount_store asset1_amount);
          Assert (load burn_asset1_amount_store > Int 0);
          Assert (load burn_asset1_amount_store <= get balance_1);
          decrement balance_1 (load burn_asset1_amount_store);
          send_asset1 (load burn_asset1_amount_store) ] in
  Seq [ validate_lp_payment_txn;
        validate_burn_asset1_out_txn;
        validate_burn_asset2_out_txn;
        handle_burn_asset1_out_txn ] ;;
  Int 1.

Definition on_burn_asset2_out : Expr :=
  let lp_asset_amount := Gtxn BURN_ASSET2_OUT__LP_IN_IDX asset_amount in
  let validate_lp_payment_txn :=
    Seq [ verify_txn_is_sending_asa_to_pool
            BURN_ASSET2_OUT__LP_IN_IDX (get lp_id) ] in
  let validate_burn_asset1_out_txn :=
    verify_txn_is_named_application_call
      BURN_ASSET2_OUT__BURN_ASSET1_OUT_IDX
      AlgofiAMMPoolStrings.burn_asset1_out in
  let validate_burn_asset2_out_txn :=
    Seq [ Assert (Txn on_completion == Int OnComplete.NoOp);
          Assert (Txn type_enum == Int TxnType.ApplicationCall) ] in
  let handle_burn_asset2_out_txn :=
    let asset2_amount := convert_lp_to_asset2 lp_asset_amount in
    let burning_remaining_lp_circulation :=
      lp_asset_amount == get lp_circulation in
    Seq [ If burning_remaining_lp_circulation
             (store burn_asset2_amount_store (get balance_2))
             (store burn_asset2_amount_store asset2_amount);
          Assert (load burn_asset2_amount_store > Int 0);
          Assert (load burn_asset2_amount_store <= get balance_2);
          decrement balance_2 (load burn_asset2_amount_store);
          decrement lp_circulation lp_asset_amount;
          send_asset2 (load burn_asset2_amount_store) ] in
  Seq [ validate_lp_payment_txn;
        validate_burn_asset1_out_txn;
        validate_burn_asset2_out_txn;
        handle_burn_asset2_out_txn ] ;;
  Int 1.

Definition on_swap : Expr :=
  let save_latest_cumsum_time_weighted_price :=
    let current_time := Global_latest_timestamp in
    let asset1_to_asset2_price :=
      WideRatio [get balance_2; Int FIXED_9_SCALE_FACTOR]
                [get balance_1] in
    let asset2_to_asset1_price :=
      WideRatio [get balance_1; Int FIXED_9_SCALE_FACTOR]
                [get balance_2] in
    let new_cumsum_time_weighted_asset1_to_asset2_price :=
      wrapped (get cumsum_time_weighted_asset1_to_asset2_price)
              (load asset1_to_asset2_price_store * load time_delta_store) in
    let new_cumsum_time_weighted_asset2_to_asset1_price :=
      wrapped (get cumsum_time_weighted_asset2_to_asset1_price)
              (load asset2_to_asset1_price_store * load time_delta_store) in
    Seq [ store time_delta_store (current_time - get latest_time);
          put latest_time current_time;
          store asset1_to_asset2_price_store asset1_to_asset2_price;
          store asset2_to_asset1_price_store asset2_to_asset1_price;
          (* only update if it will not result in an overflow *)
          When (Int MAX_INT_U64 / load asset1_to_asset2_price_store
                > load time_delta_store)
               (put cumsum_time_weighted_asset1_to_asset2_price
                    new_cumsum_time_weighted_asset1_to_asset2_price);
          When (Int MAX_INT_U64 / load asset2_to_asset1_price_store
                > load time_delta_store)
               (put cumsum_time_weighted_asset2_to_asset1_price
                    new_cumsum_time_weighted_asset2_to_asset1_price) ] in
  let is_swap_for_exact :=
    BytesEq (arg 0 (Txn application_args))
            AlgofiAMMPoolStrings.swap_for_exact in
  let validate_asset_payment_txn :=
    let is_payment_txn :=
      Gtxn SWAP__SWAP_IN_IDX type_enum == Int TxnType.Payment in
    let asset1_is_algo := get asset1_id == Int 1 in
    let asset_transfered := Gtxn SWAP__SWAP_IN_IDX xfer_asset in
    let is_valid_asset_to_swap :=
      Or (asset_transfered == get asset1_id)
         (asset_transfered == get asset2_id) in
    let swap_input_is_asset1 :=
      If (asset_transfered == get asset1_id) (Int TRUE) (Int FALSE) in
    Seq [ If is_payment_txn
             (Seq [ Assert asset1_is_algo;
                    verify_txn_is_sending_algos_to_pool SWAP__SWAP_IN_IDX;
                    store swap_input_amount_store
                          (Gtxn SWAP__SWAP_IN_IDX amount);
                    store swap_input_is_asset1_store (Int TRUE) ])
             (Seq [ Assert is_valid_asset_to_swap;
                    verify_txn_is_sending_asa_to_pool
                      SWAP__SWAP_IN_IDX asset_transfered;
                    store swap_input_amount_store
                          (Gtxn SWAP__SWAP_IN_IDX asset_amount);
                    store swap_input_is_asset1_store
                          swap_input_is_asset1 ]) ] in
  let validate_swap_txn :=
    Seq [ Assert (Txn on_completion == Int OnComplete.NoOp);
          Assert (Txn type_enum == Int TxnType.ApplicationCall) ] in
  let validate_redeem_residual_txn :=
    When is_swap_for_exact
         (verify_txn_is_named_application_call
            SWAP__REDEEM_SWAP_RESIDUAL_IDX
            AlgofiAMMPoolStrings.redeem_swap_residual) in
  (* a [@Subroutine]: the two volumes are values in its body *)
  let save_latest_cumsum_volume (asset1_volume_arg asset2_volume_arg : Expr)
    : Stmt :=
    v1 <- asset1_volume_arg ;; v2 <- asset2_volume_arg ;;
    let asset1_volume := Int v1 in
    let asset2_volume := Int v2 in
    let new_cumsum_volume_asset1 :=
      wrapped (get cumsum_volume_asset1) asset1_volume in
    let new_cumsum_volume_asset2 :=
      wrapped (get cumsum_volume_asset2) asset2_volume in
    let new_cumsum_volume_weighted_asset1_to_asset2_price :=
      wrapped (get cumsum_volume_weighted_asset1_to_asset2_price)
              (asset2_volume * load asset1_to_asset2_price_store) in
    let new_cumsum_volume_weighted_asset2_to_asset1_price :=
      wrapped (get cumsum_volume_weighted_asset2_to_asset1_price)
              (asset1_volume * load asset2_to_asset1_price_store) in
    Seq [ put cumsum_volume_asset1 new_cumsum_volume_asset1;
          put cumsum_volume_asset2 new_cumsum_volume_asset2;
          When (Int MAX_INT_U64 / asset2_volume
                > load asset1_to_asset2_price_store)
               (put cumsum_volume_weighted_asset1_to_asset2_price
                    new_cumsum_volume_weighted_asset1_to_asset2_price);
          When (Int MAX_INT_U64 / asset1_volume
                > load asset2_to_asset1_price_store)
               (put cumsum_volume_weighted_asset2_to_asset1_price
                    new_cumsum_volume_weighted_asset2_to_asset1_price) ] in
  let handle_swap_exact_for :=
    let min_amount_to_swap_for := Btoi (arg 1 (Txn application_args)) in
    let swap_fee :=
      WideRatio [load swap_input_amount_store; get swap_fee_pct_scaled_var]
                [Int FIXED_6_SCALE_FACTOR] + Int 1 in
    Seq [ store swap_fee_store swap_fee;
          store swap_input_amount_less_fees_store
                (load swap_input_amount_store - load swap_fee_store);
          Assert (load swap_input_amount_less_fees_store > Int 0);
          If (load swap_input_is_asset1_store)
             (Seq [ store swap_output_amount_store
                          (swap_exact_asset1_for self
                             (load swap_input_amount_less_fees_store));
                    increment balance_1 (load swap_input_amount_store);
                    decrement balance_2 (load swap_output_amount_store);
                    send_asset2 (load swap_output_amount_store);
                    save_latest_cumsum_volume
                      (load swap_input_amount_less_fees_store)
                      (load swap_output_amount_store) ])
             (Seq [ store swap_output_amount_store
                          (swap_exact_asset2_for self
                             (load swap_input_amount_less_fees_store));
                    decrement balance_1 (load swap_output_amount_store);
                    increment balance_2 (load swap_input_amount_store);
                    send_asset1 (load swap_output_amount_store);
                    save_latest_cumsum_volume
                      (load swap_output_amount_store)
                      (load swap_input_amount_less_fees_store) ]);
          Assert (load swap_output_amount_store > Int 0);
          Assert (load swap_output_amount_store
                  >= min_amount_to_swap_for) ] in
  let handle_swap_for_exact :=
    let exact_amount_to_swap_for := Btoi (arg 1 (Txn application_args)) in
    let swap_fee :=
      WideRatio [load required_swap_input_amount_store;
                 Int FIXED_6_SCALE_FACTOR]
                [Int FIXED_6_SCALE_FACTOR - get swap_fee_pct_scaled_var]
      + Int 1
      - load required_swap_input_amount_store in
    Seq [ store exact_amount_to_swap_for_store exact_amount_to_swap_for;
          Assert (load exact_amount_to_swap_for_store > Int 0);
          If (load swap_input_is_asset1_store)
             (store required_swap_input_amount_store
                (swap_for_exact_asset2_amount self
                   (load exact_amount_to_swap_for_store)))
             (store required_swap_input_amount_store
                (swap_for_exact_asset1_amount self
                   (load exact_amount_to_swap_for_store)));
          Assert (load required_swap_input_amount_store > Int 0);
          store swap_fee_store swap_fee;
          store required_swap_input_amount_plus_fees_store
                (load required_swap_input_amount_store
                 + load swap_fee_store);
          Assert (load swap_input_amount_store
                  >= load required_swap_input_amount_plus_fees_store);
          If (load swap_input_is_asset1_store)
             (Seq [ increment balance_1
                      (load required_swap_input_amount_plus_fees_store);
                    decrement balance_2
                      (load exact_amount_to_swap_for_store);
                    send_asset2 (load exact_amount_to_swap_for_store);
                    save_latest_cumsum_volume
                      (load required_swap_input_amount_store)
                      (load exact_amount_to_swap_for_store) ])
             (Seq [ decrement balance_1
                      (load exact_amount_to_swap_for_store);
                    increment balance_2
                      (load required_swap_input_amount_plus_fees_store);
                    send_asset1 (load exact_amount_to_swap_for_store);
                    save_latest_cumsum_volume
                      (load exact_amount_to_swap_for_store)
                      (load required_swap_input_amount_store) ]);
          store residual_amount_store
                (load swap_input_amount_store
                 - load required_swap_input_amount_plus_fees_store) ] in
  Seq [ save_latest_cumsum_time_weighted_price;
        update_reserve_factor;
        validate_asset_payment_txn;
        validate_swap_txn;
        validate_redeem_residual_txn;
        If is_swap_for_exact handle_swap_for_exact handle_swap_exact_for;
        update_reserves (load swap_input_is_asset1_store)
                        (load swap_fee_store);
        validate_asset_ratio ] ;;
  Int 1.

End Methods.

Definition on_flash_loan : Expr :=
  let flash_loan_asset_id := Btoi (arg 1 (Txn application_args)) in
  let flash_loan_amount := Btoi (arg 2 (Txn application_args)) in
  let flash_loan_is_algo := flash_loan_asset_id == Int 1 in
  let flash_loan_is_valid_asset :=
    Or (flash_loan_asset_id == get asset1_id)
       (flash_loan_asset_id == get asset2_id) in
  let flash_loan_is_asset1 := flash_loan_asset_id == get asset1_id in
  let flash_loan_amount_is_nonzero := flash_loan_amount > Int 0 in
  let max_asset1_flash_loan :=
    WideRatio [get balance_1; get max_flash_loan_ratio]
              [Int FIXED_6_SCALE_FACTOR] in
  let max_asset2_flash_loan :=
    WideRatio [get balance_2; get max_flash_loan_ratio]
              [Int FIXED_6_SCALE_FACTOR] in
  let flash_loan_fee_calc :=
    WideRatio [flash_loan_amount; get flash_loan_fee]
              [Int FIXED_6_SCALE_FACTOR] + Int 1 in
  let load_flash_loan_fee :=
    Seq [ store flash_loan_fee_store flash_loan_fee_calc ] in
  let validate_flash_loan_txn :=
    Seq [ Assert (Txn on_completion == Int OnComplete.NoOp);
          Assert (Txn type_enum == Int TxnType.ApplicationCall);
          Assert (Txn_group_index == FLASH_LOAN_IDX);
          Assert flash_loan_is_valid_asset;
          Assert flash_loan_amount_is_nonzero;
          If flash_loan_is_asset1
             (Assert (flash_loan_amount <= max_asset1_flash_loan))
             (Assert (flash_loan_amount <= max_asset2_flash_loan)) ] in
  let validate_flash_loan_repay_txn :=
    Seq [ If flash_loan_is_algo
             (Seq [ verify_txn_is_sending_algos_to_pool FLASH_LOAN_REPAY_IDX;
                    Assert (Gtxn FLASH_LOAN_REPAY_IDX amount
                            == flash_loan_amount
                               + load flash_loan_fee_store) ])
             (Seq [ verify_txn_is_sending_asa_to_pool
                      FLASH_LOAN_REPAY_IDX flash_loan_asset_id;
                    Assert (Gtxn FLASH_LOAN_REPAY_IDX asset_amount
                            == flash_loan_amount
                               + load flash_loan_fee_store) ]) ] in
  let send_funds :=
    If flash_loan_is_asset1
       (send_asset1 flash_loan_amount)
       (send_asset2 flash_loan_amount) in
  let update_balances :=
    Seq [ If flash_loan_is_asset1
             (increment balance_1 (load flash_loan_fee_store))
             (increment balance_2 (load flash_loan_fee_store));
          update_reserves flash_loan_is_asset1
                          (load flash_loan_fee_store) ] in
  Seq [ update_reserve_factor;
        update_flash_loan_fee;
        update_max_flash_loan_ratio;
        load_flash_loan_fee;
        validate_flash_loan_txn;
        validate_flash_loan_repay_txn;
        send_funds;
        update_balances;
        validate_asset_ratio ] ;;
  Int 1.

(** The constant-product pool's own methods. *)
Definition AlgofiAMMPool : PoolMethods :=
  {| swap_exact_asset1_for := AlgofiAMMPool_swap_exact_asset1_for;
     swap_exact_asset2_for := AlgofiAMMPool_swap_exact_asset2_for;
     swap_for_exact_asset1_amount :=
       AlgofiAMMPool_swap_for_exact_asset1_amount;
     swap_for_exact_asset2_amount :=
       AlgofiAMMPool_swap_for_exact_asset2_amount;
     calculate_lp_issuance := AlgofiAMMPool_calculate_lp_issuance |}.

(** *** [stable_pool.py]: [AlgofiAMMStablePool] *)

Definition get_amplification_factor : Expr :=
  call4 interpolate_amplification_factor
        (get initial_amplification_factor)
        (get future_amplification_factor)
        (get initial_amplification_factor_time)
        (get future_amplification_factor_time).

Definition AlgofiAMMStablePool_swap_exact_asset1_for (asset1_amount : Expr)
  : Expr :=
  op_up (Txn fee - Int 2 * Global_min_txn_fee) (get manager_app_id_var) ;;
  call4 compute_other_asset_output_stable_swap
        (get balance_1 + asset1_amount) (get balance_1) (get balance_2)
        get_amplification_factor
  - Int 1.

Definition AlgofiAMMStablePool_swap_exact_asset2_for (asset2_amount : Expr)
  : Expr :=
  op_up (Txn fee - Int 2 * Global_min_txn_fee) (get manager_app_id_var) ;;
  call4 compute_other_asset_output_stable_swap
        (get balance_2 + asset2_amount) (get balance_2) (get balance_1)
        get_amplification_factor
  - Int 1.

Definition AlgofiAMMStablePool_swap_for_exact_asset1_amount
    (asset1_amount : Expr) : Expr :=
  op_up (Txn fee - Int 2 * Global_min_txn_fee) (get manager_app_id_var) ;;
  call4 compute_other_asset_output_stable_swap
        (get balance_1 - asset1_amount) (get balance_1) (get balance_2)
        get_amplification_factor
  + Int 1.

Definition AlgofiAMMStablePool_swap_for_exact_asset2_amount
    (asset2_amount : Expr) : Expr :=
  op_up (Txn fee - Int 2 * Global_min_txn_fee) (get manager_app_id_var) ;;
  call4 compute_other_asset_output_stable_swap
        (get balance_2 - asset2_amount) (get balance_2) (get balance_1)
        get_amplification_factor
  + Int 1.

(** [self.manager_app_id], the constructor argument of the pool. *)
Variable manager_app_id : Z.

Definition AlgofiAMMStablePool_calculate_lp_issuance (pool_is_empty : Expr)
  : Stmt :=
  let D0_calc :=
    call3 compute_D (get balance_1) (get balance_2)
          get_amplification_factor in
  let D1_calc :=
    call3 compute_D
          (get balance_1 + load adjusted_pool_asset1_amount_store)
          (get balance_2 + load adjusted_pool_asset2_amount_store)
          get_amplification_factor in
  let lp_issued_calc :=
    WideRatio [get lp_circulation; D1_calc - load D0_store]
              [load D0_store] in
  If pool_is_empty
     (store lp_issued_store D1_calc)
     (Seq [ op_up (Txn fee - Int 3 * Global_min_txn_fee)
                  (Int manager_app_id);
            store D0_store D0_calc;
            store lp_issued_store lp_issued_calc ]).

Definition on_ramp_amplification_factor : Expr :=
  let sender_is_admin := Txn sender == get admin in
  let initial_A := get_amplification_factor in
  let future_A := Btoi (arg 1 (Txn application_args)) in
  let future_time := Btoi (arg 2 (Txn application_args)) in
  Seq [ Assert sender_is_admin;
        Assert (future_time
                >= Global_latest_timestamp + get param_update_delay);
        Assert (future_A > Int 0);
        Assert (future_A < Int MAX_AMPLIFICATION_FACTOR);
        put initial_amplification_factor initial_A;
        put future_amplification_factor future_A;
        put initial_amplification_factor_time Global_latest_timestamp;
        put future_amplification_factor_time future_time ] ;;
  Int 1.

Definition AlgofiAMMStablePool : PoolMethods :=
  {| swap_exact_asset1_for := AlgofiAMMStablePool_swap_exact_asset1_for;
     swap_exact_asset2_for := AlgofiAMMStablePool_swap_exact_asset2_for;
     swap_for_exact_asset1_amount :=
       AlgofiAMMStablePool_swap_for_exact_asset1_amount;
     swap_for_exact_asset2_amount :=
       AlgofiAMMStablePool_swap_for_exact_asset2_amount;
     calculate_lp_issuance := AlgofiAMMStablePool_calculate_lp_issuance |}.

(** *** [pool.py]: creation and the administrator's operations *)

Definition POOL_GLOBAL_NUM_BYTES : Z := 4.
Definition POOL_GLOBAL_NUM_UINTS : Z := 32.

Section Creation.

(** [Txn.global_num_byte_slices()] and [Txn.global_num_uints()]: the schema
    that the creating transaction declares for the application. *)
Variables global_num_byte_slices global_num_uints : Z.

Definition on_creation : Expr :=
  let asset1_id_arg := Btoi (arg 0 (Txn application_args)) in
  let asset2_id_arg := Btoi (arg 1 (Txn application_args)) in
  let validator_index_arg := Btoi (arg 2 (Txn application_args)) in
  let asset_ids_not_zero :=
    And (asset1_id_arg != Int 0) (asset2_id_arg != Int 0) in
  let asset_ids_increasing_and_different := asset1_id_arg < asset2_id_arg in
  let global_bytes_sufficient :=
    Int global_num_byte_slices >= Int POOL_GLOBAL_NUM_BYTES in
  let global_uints_sufficient :=
    Int global_num_uints >= Int POOL_GLOBAL_NUM_UINTS in
  Seq [ Assert global_bytes_sufficient;
        Assert global_uints_sufficient;
        (* set admin to the same admin as the manager *)
        Assert (hasValue (manager_admin env));
        put admin (value (manager_admin env));
        (* verify and set assets *)
        Assert asset_ids_not_zero;
        Assert asset_ids_increasing_and_different;
        put asset1_id asset1_id_arg;
        put asset2_id asset2_id_arg;
        put validator_index validator_index_arg;
        put initialized (Int FALSE) ] ;;
  Int 1.

(** [AlgofiAMMStablePool.on_creation]: the amplification factor, then the
    inherited creation. *)
Definition AlgofiAMMStablePool_on_creation : Expr :=
  let amplification_factor := Btoi (arg 2 (Txn application_args)) in
  Seq [ put future_amplification_factor amplification_factor ] ;;
  on_creation.

End Creation.

Definition on_update_swap_fee : Expr :=
  let sender_is_admin := Txn sender == get admin in
  Seq [ Assert sender_is_admin;
        Assert (get swap_fee_update_time > Int 0);
        Assert (Global_latest_timestamp > get swap_fee_update_time);
        put swap_fee_pct_scaled_var (get next_swap_fee_pct_scaled_var) ] ;;
  Int 1.

Definition on_schedule_swap_fee_update : Expr :=
  let update_time := Btoi (arg 1 (Txn application_args)) in
  let MAX_FEE := Int FIXED_6_SCALE_FACTOR in
  let new_fee := Btoi (arg 2 (Txn application_args)) in
  let sender_is_admin := Txn sender == get admin in
  Seq [ Assert sender_is_admin;
        (* check for update delay *)
        Assert (update_time
                >= Global_latest_timestamp + get param_update_delay);
        Assert (new_fee > Int 0);
        Assert (new_fee < MAX_FEE);
        put swap_fee_update_time update_time;
        put next_swap_fee_pct_scaled_var new_fee ] ;;
  Int 1.

Definition on_increase_param_delay : Expr :=
  let new_param_update_delay := Btoi (arg 1 (Txn application_args)) in
  let sender_is_admin := Txn sender == get admin in
  Seq [ Assert sender_is_admin;
        Assert (new_param_update_delay > get param_update_delay);
        put param_update_delay new_param_update_delay ] ;;
  Int 1.

Definition on_remove_reserves : Expr :=
  let sender_is_admin := Txn sender == get admin in
  Seq [ Assert sender_is_admin;
        (* send reserves to admin *)
        send_asset1 (get asset1_reserve);
        send_asset2 (get asset2_reserve);
        (* reset reserves to 0 *)
        put asset1_reserve (Int 0);
        put asset2_reserve (Int 0) ] ;;
  Int 1.

(** *** [pool.py]: redeeming residuals *)

Definition REDEEM_POOL_ASSET1_RESIDUAL__POOL_IDX := relative_index (-1).
Definition REDEEM_POOL_ASSET2_RESIDUAL__POOL_IDX := relative_index (-2).
Definition REDEEM_SWAP_RESIDUAL__SWAP_IDX := relative_index (-1).

Section Residuals.

(** The scratch space that the application call at a position of the group
    finished with; nothing where the group holds no application call. *)
Variable group_scratch : Z -> option Scratch.

(** [ImportScratchValue(idx, slot)] ([gloads]): a scratch slot of an earlier
    application call of the group; the AVM panics for a position that is not
    earlier than the running call. *)
Definition ImportScratchValue (idx : Expr) (slot : ScratchSlot) : Expr :=
  i <- idx ;;
  if (i <? group_index env)%Z
  then lift_option (option_map (fun s => s slot) (group_scratch i))
  else panic.

Definition redeem_residual
    (residual_source_idx : Expr) (residual_source_action : string)
    (residual_is_asset1 residual_asset_amount : Expr) : Expr :=
  let validate_redeem_residual_txn :=
    Seq [ Assert (Txn on_completion == Int OnComplete.NoOp);
          Assert (Txn type_enum == Int TxnType.ApplicationCall) ] in
  let validate_residual_source_txn :=
    Seq [ verify_txn_is_named_application_call
            residual_source_idx residual_source_action ] in
  let send_residual :=
    When (residual_asset_amount > Int 0)
         (If residual_is_asset1
             (send_asset1 residual_asset_amount)
             (send_asset2 residual_asset_amount)) in
  Seq [ validate_redeem_residual_txn;
        validate_residual_source_txn;
        send_residual ] ;;
  Int 1.

Definition on_redeem_pool_asset1_residual : Expr :=
  let residual_is_asset1 := Int TRUE in
  let residual_amount :=
    ImportScratchValue REDEEM_POOL_ASSET1_RESIDUAL__POOL_IDX
                       pool_asset1_residual_store in
  redeem_residual REDEEM_POOL_ASSET1_RESIDUAL__POOL_IDX
                  AlgofiAMMPoolStrings.pool
                  residual_is_asset1 residual_amount.

Definition on_redeem_pool_asset2_residual : Expr :=
  let residual_is_asset1 := Int FALSE in
  let residual_amount :=
    ImportScratchValue REDEEM_POOL_ASSET2_RESIDUAL__POOL_IDX
                       pool_asset2_residual_store in
  redeem_residual REDEEM_POOL_ASSET2_RESIDUAL__POOL_IDX
                  AlgofiAMMPoolStrings.pool
                  residual_is_asset1 residual_amount.

Definition on_redeem_swap_residual : Expr :=
  let residual_is_asset1 :=
    ImportScratchValue REDEEM_SWAP_RESIDUAL__SWAP_IDX
                       swap_input_is_asset1_store in
  let residual_amount :=
    ImportScratchValue REDEEM_SWAP_RESIDUAL__SWAP_IDX
                       residual_amount_store in
  redeem_residual REDEEM_SWAP_RESIDUAL__SWAP_IDX
                  AlgofiAMMPoolStrings.swap_for_exact
                  residual_is_asset1 residual_amount.

End Residuals.

End Contract.

(** ** Application calls

    The host runs a call on the application's persisted globals with a
    scratch space of zeros.  The call is accepted when the program neither
    panics nor returns zero; otherwise the group is discarded and the globals
    stay as they were. *)

Definition fresh (g : Globals) : Machine :=
  mkMachine g (fun _ => 0) [].

Definition call (program : Expr) (g : Globals)
  : option (Globals * list InnerTxn) :=
  match program (fresh g) with
  | Some (r, m) => if truthy r then Some (globals m, submitted m) else None
  | None => None
  end.

Definition globals_after (program : Expr) (g : Globals) : Globals :=
  match call program g with
  | Some (g', _) => g'
  | None => g
  end.

(** The scratch space an accepted call leaves behind, which later calls of
    the group can import. *)
Definition scratch_after (program : Expr) (g : Globals) : option Scratch :=
  match program (fresh g) with
  | Some (r, m) => if truthy r then Some (scratch m) else None
  | None => None
  end.

(** Feeding a wrapped accumulator a sequence of addends. *)
Fixpoint accumulate (current_value : Z) (addends : list Z) : option Z :=
  match addends with
  | [] => Some current_value
  | a :: rest =>
      obind (calculate_integer_wrapped_value current_value a)
            (fun v => accumulate v rest)
  end.

Definition sum (l : list Z) : Z := fold_right Z.add 0 l.

(** ** Vocabulary of the statements *)

(** The estimate after [k] rounds of [compute_D]'s update, from [D0]. *)
Fixpoint D_estimate_after (amplification_param AnnS D_prod_denom : Z)
    (k : nat) (D0 : Z) : option Z :=
  match k with
  | O => Some D0
  | S k' =>
      obind (D_estimate_calc amplification_param AnnS D_prod_denom D0)
            (D_estimate_after amplification_param AnnS D_prod_denom k')
  end.

(** The estimates of [compute_D(x, y, A)]: [D_0 = x + y], with the two
    quantities the subroutine computes once, [A * n^n * S / 1e6] and
    [n^n * y * x]. *)
Definition D_estimate (x y A : Z) (k : nat) : option Z :=
  D_estimate_after A (A * 4 * (x + y) / FIXED_6_SCALE_FACTOR) (4 * (y * x))
                   k (x + y).

(** The Newton-like update of [compute_D(x, y, A)] in integer arithmetic
    (floor division), as the docstring of [compute_D] gives it for two
    coins: with [Ann = 4 A], [AnnS = floor(Ann (x + y) / 1e6)] and
    [D_P = floor(D^3 / (4 x y))], the next estimate is
    [floor((AnnS + 2 D_P) D / (floor((Ann - 1e6) D / 1e6) + 3 D_P))]. *)
Definition D_next (x y A D : Z) : Z :=
  let AnnS := A * 4 * (x + y) / 1000000 in
  let D_P := D * D * D / (4 * (x * y)) in
  (AnnS + 2 * D_P) * D / ((A * 4 - 1000000) * D / 1000000 + 3 * D_P).

(** The sequence of estimates: [D_0 = x + y], [D_(k+1) = D_next D_k]. *)
Fixpoint D_seq (x y A : Z) (k : nat) : Z :=
  match k with
  | O => x + y
  | S k' => D_next x y A (D_seq x y A k')
  end.

(** What a round of the loop needs in order not to panic on the estimate
    [D]: a divisor [4 x y] and a denominator that are not zero, [Ann - 1e6]
    that does not underflow, and operands of at most 64 bytes, which an
    estimate below [2^128] ensures. *)
Definition round_runs (x y A D : Z) : Prop :=
  x * y <> 0
  /\ 1000000 <= A * 4 <= AVM.MAX_UINT64
  /\ 0 <= D < 2 ^ 128
  /\ (A * 4 - 1000000) * D / 1000000 + 3 * (D * D * D / (4 * (x * y))) <> 0.

(** The bounds [validate_asset_ratio] asserts. *)
Definition ratio_ok (g : Globals) : Prop :=
  MIN_POOL_BALANCE <= g balance_1
  /\ MIN_POOL_BALANCE <= g balance_2
  /\ g balance_1 / g balance_2 < MAX_ASSET_RATIO
  /\ g balance_2 / g balance_1 < MAX_ASSET_RATIO.

(** [t] transfers exactly [amt] of [asset] to the pool's escrow: a payment
    when the asset is the native coin (id 1), an asset transfer otherwise. *)
Definition pays_pool (env : Env) (t : Transaction) (asset amt : Z) : Prop :=
  if asset =? 1
  then type_enum t = TxnType.Payment
       /\ receiver t = current_application_address env
       /\ amount t = amt
  else type_enum t = TxnType.AssetTransfer
       /\ xfer_asset t = asset
       /\ asset_receiver t = current_application_address env
       /\ asset_amount t = amt.

(** The amount of asset 1 that the transaction [t1] of a deposit group
    brings: a payment's amount when asset 1 is the native coin, a transfer's
    amount otherwise. *)
Definition deposit_amount1 (g : Globals) (t1 : Transaction) : Z :=
  if g asset1_id =? 1 then amount t1 else asset_amount t1.

(** The LP amount the constant-product pool issues for a first deposit. *)
Definition first_issuance (a1 a2 : Z) : Z :=
  if a2 <? MAX_INT_U64 / a1
  then Z.sqrt (a1 * a2)
  else Z.sqrt a1 * Z.sqrt a2.

(** A well-formed group for burning [lp] LP tokens: the LP transfer to the
    pool, then the [burn_asset1_out] call (run in [env1]) and the
    [burn_asset2_out] call (run in [env2]), both sent by [burner]. *)
Record burn_group (g : Globals) (lp burner : Z) (env1 env2 : Env) : Prop := {
  burn_lp_first : 1 <= group_index env1;
  burn_calls_adjacent : group_index env2 = group_index env1 + 1;
  burn_index_uint64 : group_index env2 <= AVM.MAX_UINT64;
  burn_same_group : group env2 = group env1;
  burn_same_application :
    current_application_id env2 = current_application_id env1;
  burn_same_address :
    current_application_address env2 = current_application_address env1;
  burn_lp_in :
    exists t, txn_at env1 (group_index env1 - 1) = Some t
              /\ type_enum t = TxnType.AssetTransfer
              /\ xfer_asset t = g lp_id
              /\ asset_receiver t = current_application_address env1
              /\ asset_amount t = lp;
  burn_call1 :
    exists t, txn_at env1 (group_index env1) = Some t
              /\ on_completion t = OnComplete.NoOp
              /\ type_enum t = TxnType.ApplicationCall
              /\ application_id t = current_application_id env1
              /\ nth_error (application_args t) 0
                 = Some AlgofiAMMPoolStrings.burn_asset1_out
              /\ sender t = burner;
  burn_call2 :
    exists t, txn_at env1 (group_index env1 + 1) = Some t
              /\ on_completion t = OnComplete.NoOp
              /\ type_enum t = TxnType.ApplicationCall
              /\ application_id t = current_application_id env1
              /\ nth_error (application_args t) 0
                 = Some AlgofiAMMPoolStrings.burn_asset2_out
              /\ sender t = burner
}.

(** When asset 1 is the native coin, the escrow account can pay [a1] out and
    keep its minimum balance: the check [send_algo] makes. *)
Definition escrow_can_pay (g : Globals) (env : Env) (a1 : Z) : Prop :=
  g asset1_id = 1 ->
  a1 + min_balance env <= escrow_balance env
  /\ escrow_balance env <= AVM.MAX_UINT64.

(** Sending [amt] of asset 1 to [who]. *)
Definition asset1_to (g : Globals) (who amt : Z) : InnerTxn :=
  if g asset1_id =? 1 then PaymentTo who amt
  else AssetTransferTo (g asset1_id) amt who.

(** The amount a swap's input transaction brings, and whether it is of
    asset 1: a payment is, and so is a transfer of asset 1. *)
Definition swap_input (t : Transaction) : Z :=
  if type_enum t =? TxnType.Payment then amount t else asset_amount t.

Definition swap_input_is_asset1 (g : Globals) (t : Transaction) : bool :=
  (type_enum t =? TxnType.Payment) || (xfer_asset t =? g asset1_id).

(** The ceiling of [a / b]. *)
Definition ceil_div (a b : Z) : Z := (a + b - 1) / b.

(** ** A concrete pool and concrete transaction groups

    The scenario of the specification: a pool of assets 5 and 6 with LP
    token 9, fresh out of initialization with the manager's defaults, and a
    user submitting deposit, burn, swap and flash-loan groups. *)

Module Scenario.

Definition app_id : Z := 1001.
Definition pool_address : Z := 7777.
Definition manager_admin_address : Z := 99.
Definition alice : Z := 4242.

Definition initialized_pool : Globals :=
  fun v => match v with
           | lp_id => 9
           | admin => manager_admin_address
           | initialized => TRUE
           | asset1_id => 5
           | asset2_id => 6
           | reserve_factor => 175000
           | flash_loan_fee => 1000
           | max_flash_loan_ratio => 100000
           | latest_time => 100
           | manager_app_id_var => 1000
           | swap_fee_pct_scaled_var => DEFAULT_SWAP_FEE_PCT_SCALED
           | param_update_delay => DEFAULT_PARAM_UPDATE_DELAY
           | _ => UNSET_INT
           end.

Definition asset_transfer (asset amt : Z) : Transaction :=
  {| type_enum := TxnType.AssetTransfer; on_completion := 0;
     sender := alice; fee := 1000; receiver := 0; amount := 0;
     xfer_asset := asset; asset_receiver := pool_address;
     asset_amount := amt; application_id := 0; application_args := [] |}.

Definition app_call_from (who : Z) (args : list string) : Transaction :=
  {| type_enum := TxnType.ApplicationCall;
     on_completion := OnComplete.NoOp;
     sender := who; fee := 1000; receiver := 0; amount := 0;
     xfer_asset := 0; asset_receiver := 0; asset_amount := 0;
     application_id := app_id; application_args := args |}.

Definition app_call : list string -> Transaction := app_call_from alice.

(** The call at position [idx] of [grp], at time [now]. *)
Definition env_at (now : Z) (grp : list Transaction) (idx : Z) : Env :=
  {| group := grp; group_index := idx;
     current_application_id := app_id;
     current_application_address := pool_address;
     latest_timestamp := now;
     min_txn_fee := 1000; min_balance := 100000;
     escrow_balance := 10000000;
     manager_admin := Some manager_admin_address;
     manager_reserve_factor := Some 175000;
     manager_flash_loan_fee := Some 1000;
     manager_max_flash_loan_ratio := Some 100000 |}.

Definition deposit_group (a1 a2 : Z) : list Transaction :=
  [ asset_transfer 5 a1; asset_transfer 6 a2;
    app_call [AlgofiAMMPoolStrings.pool; AVM.itob 0];
    app_call [AlgofiAMMPoolStrings.redeem_pool_asset1_residual];
    app_call [AlgofiAMMPoolStrings.redeem_pool_asset2_residual] ].

Definition deposit_env (a1 a2 : Z) : Env :=
  env_at 200 (deposit_group a1 a2) 2.

Definition burn_group (lp : Z) : list Transaction :=
  [ asset_transfer 9 lp;
    app_call [AlgofiAMMPoolStrings.burn_asset1_out];
    app_call [AlgofiAMMPoolStrings.burn_asset2_out] ].

Definition swap_exact_for_group (asset amt min_out : Z)
  : list Transaction :=
  [ asset_transfer asset amt;
    app_call [AlgofiAMMPoolStrings.swap_exact_for; AVM.itob min_out] ].

Definition flash_loan_group (asset amt repaid : Z) : list Transaction :=
  [ app_call [AlgofiAMMPoolStrings.flash_loan; AVM.itob asset;
              AVM.itob amt];
    asset_transfer asset repaid ].

(** A pool holding [b1] and [b2] against [lp] LP tokens. *)
Definition seeded_pool (b1 b2 lp : Z) : Globals :=
  fun v => match v with
           | balance_1 => b1
           | balance_2 => b2
           | lp_circulation => lp
           | _ => initialized_pool v
           end.

Definition funded_pool : Globals :=
  seeded_pool 100000000 100000000 100000000.

(** A loan of 1_000_000 of asset 5, repaid with 1_001_001. *)
Definition flash_loan_env : Env :=
  env_at 300 (flash_loan_group 5 1000000 1001001) 0.

(** The same loan repaid with 1_001_000. *)
Definition flash_loan_env_short : Env :=
  env_at 300 (flash_loan_group 5 1000000 1001000) 0.

(** Burning [lp] LP tokens: the two calls of the group. *)
Definition burn1_env (lp : Z) : Env := env_at 400 (burn_group lp) 1.
Definition burn2_env (lp : Z) : Env := env_at 400 (burn_group lp) 2.

(** Swapping 1000 of asset 5 for at least one unit of asset 6. *)
Definition swap_env : Env :=
  env_at 500 (swap_exact_for_group 5 1000 1) 1.

(** A stable pool at amplification factor 100 (scaled by 1e6), and the
    admin ramping it to 200 by time 1000. *)
Definition stable_pool : Globals :=
  fun v => match v with
           | future_amplification_factor => 100000000
           | swap_fee_pct_scaled_var => DEFAULT_STABLESWAP_FEE_PCT_SCALED
           | _ => initialized_pool v
           end.

Definition ramp_env : Env :=
  env_at 300
         [ app_call_from manager_admin_address
             ["ramp"%string; AVM.itob 200000000; AVM.itob 1000] ]
         0.

(** The pool after a first deposit of [(a1, a2)]. *)
Definition pool_after_deposit (a1 a2 : Z) : Globals :=
  globals_after
    (on_pool (deposit_env a1 a2) AlgofiAMMPool) initialized_pool.

End Scenario.

(** ** Vocabulary of the further properties *)

(** [t] is a NoOp call of this application whose first argument is
    [name]: what [verify_txn_is_named_application_call] asserts. *)
Definition named_call (env : Env) (t : Transaction) (name : string) : Prop :=
  on_completion t = OnComplete.NoOp
  /\ type_enum t = TxnType.ApplicationCall
  /\ application_id t = current_application_id env
  /\ nth_error (application_args t) 0 = Some name.

(** What [send_residual] submits for a residual [amt]: nothing when it is
    zero. *)
Definition refund (g : Globals) (who : Z) (is_asset1 : bool) (amt : Z)
  : list InnerTxn :=
  if 0 <? amt
  then [if is_asset1 then asset1_to g who amt
        else AssetTransferTo (g asset2_id) amt who]
  else [].

(** The amounts of a deposit [(a1, a2)] that the pool keeps: all of it when
    the pool holds nothing, otherwise the whole of one asset and the
    matching amount of the other at the pool's ratio, plus one. *)
Definition kept_amounts (g : Globals) (a1 a2 : Z) : Z * Z :=
  if g balance_1 + g balance_2 =? 0 then (a1, a2)
  else
    let pool_asset_ratio :=
      g balance_1 * FIXED_9_SCALE_FACTOR / g balance_2 in
    let incoming_asset_ratio := a1 * FIXED_9_SCALE_FACTOR / a2 in
    if pool_asset_ratio <? incoming_asset_ratio
    then (a2 * g balance_1 / g balance_2 + 1, a2)
    else if incoming_asset_ratio <? pool_asset_ratio
         then (a1, a1 * g balance_2 / g balance_1 + 1)
         else (a1, a2).

(** The LP amount the constant-product pool issues for kept amounts
    [(k1, k2)]. *)
Definition issuance (g : Globals) (k1 k2 : Z) : Z :=
  if g balance_1 + g balance_2 =? 0 then first_issuance k1 k2
  else Z.min (k1 * g lp_circulation / g balance_1)
             (k2 * g lp_circulation / g balance_2).

(** The part of a balance [b] that burning [lp] LP tokens pays out. *)
Definition burn_share (g : Globals) (lp b : Z) : Z :=
  if lp =? g lp_circulation then b else lp * b / g lp_circulation.

(** [g'] agrees with [g] on the keys selected by [K]. *)
Definition unchanged_on (K : GlobalVar -> bool) (g g' : Globals) : Prop :=
  forall v, K v = true -> g' v = g v.

(** Whatever [e] does, it leaves the keys selected by [K] alone. *)
Definition frames {A} (K : GlobalVar -> bool) (e : M A) : Prop :=
  forall m a m', e m = Some (a, m') -> unchanged_on K (globals m) (globals m').

(** The pool's identity and parameters. *)
Definition configuration (v : GlobalVar) : bool :=
  match v with
  | lp_id | admin | initialized | asset1_id | asset2_id
  | validator_index | manager_app_id_var
  | swap_fee_pct_scaled_var | swap_fee_update_time
  | next_swap_fee_pct_scaled_var | param_update_delay
  | initial_amplification_factor | future_amplification_factor
  | initial_amplification_factor_time | future_amplification_factor_time =>
      true
  | _ => false
  end.

(** What the liquidity providers own. *)
Definition funds (v : GlobalVar) : bool :=
  match v with
  | balance_1 | balance_2 | lp_circulation => true
  | _ => false
  end.

(** The handlers that [approval_program] offers, once the pool is
    initialized, to every caller (for both pools), and those it offers to
    the administrator ([_admin_fns_list] of both pools). *)
Definition user_operations (env : Env) (manager_app_id : Z)
    (group_scratch : Z -> option Scratch) : list Expr :=
  [ on_pool env AlgofiAMMPool;
    on_pool env (AlgofiAMMStablePool env manager_app_id);
    on_redeem_pool_asset1_residual env group_scratch;
    on_redeem_pool_asset2_residual env group_scratch;
    on_burn_asset1_out env;
    on_burn_asset2_out env;
    on_swap env AlgofiAMMPool;
    on_swap env (AlgofiAMMStablePool env manager_app_id);
    on_redeem_swap_residual env group_scratch;
    on_flash_loan env ].

Definition admin_operations (env : Env) : list Expr :=
  [ on_remove_reserves env;
    on_update_swap_fee env;
    on_schedule_swap_fee_update env;
    on_increase_param_delay env;
    on_ramp_amplification_factor env ].

(** ** Further concrete groups *)

Module Cases.

Import Scenario.

(** A pool holding (1_000_000, 1_000_000) with reserves (10, 20). *)
Definition pool_with_reserves : Globals :=
  fun v => match v with
           | asset1_reserve => 10
           | asset2_reserve => 20
           | _ => seeded_pool 1000000 1000000 1000000 v
           end.

(** A call of the administrator, alone in its group, at time [now]. *)
Definition admin_env (now : Z) (args : list string) : Env :=
  env_at now [app_call_from manager_admin_address args] 0.

(** Scheduling, at time 300, a swap fee of 3000 for time 400. *)
Definition schedule_env : Env :=
  admin_env 300 ["schedule"%string; AVM.itob 400; AVM.itob 3000].

Definition pool_with_pending_fee : Globals :=
  globals_after (on_schedule_swap_fee_update schedule_env) initialized_pool.

(** Creating a pool of assets 5 and 6 with validator index 0. *)
Definition creation_env : Env :=
  env_at 50 [app_call [AVM.itob 5; AVM.itob 6; AVM.itob 0]] 0.

Definition blank : Globals := fun _ => 0.

(** A deposit of [(a1, a2)] that tolerates a slippage of [tolerance]
    millionths, and the three calls of its group. *)
Definition tolerant_deposit_group (a1 a2 tolerance : Z)
  : list Transaction :=
  [ asset_transfer 5 a1; asset_transfer 6 a2;
    app_call [AlgofiAMMPoolStrings.pool; AVM.itob tolerance];
    app_call [AlgofiAMMPoolStrings.redeem_pool_asset1_residual];
    app_call [AlgofiAMMPoolStrings.redeem_pool_asset2_residual] ].

Definition uneven_deposit_env (idx : Z) : Env :=
  env_at 200 (tolerant_deposit_group 1000000 1000500 10000) idx.

(** The scratch spaces of the group once the call at [idx] of [env]'s group
    has run [program] on [g]. *)
Definition scratch_of (idx : Z) (program : Expr) (g : Globals)
  : Z -> option Scratch :=
  fun i => if i =? idx then scratch_after program g else None.

(** The scratch space [program] leaves on [g], zeros if it is rejected. *)
Definition scratch_left (program : Expr) (g : Globals) : Scratch :=
  match scratch_after program g with
  | Some s => s
  | None => fun _ => 0
  end.

(** A swap on the stable pool whose call pays a fee of [paid]. *)
Definition stable_swap_env (paid : Z) : Env :=
  env_at 500
         [ asset_transfer 5 1000;
           {| type_enum := TxnType.ApplicationCall;
              on_completion := OnComplete.NoOp;
              sender := alice; fee := paid; receiver := 0; amount := 0;
              xfer_asset := 0; asset_receiver := 0; asset_amount := 0;
              application_id := app_id;
              application_args :=
                [AlgofiAMMPoolStrings.swap_exact_for; AVM.itob 1] |} ]
         1.

(** A stable pool holding (1_000_000, 1_000_000). *)
Definition funded_stable_pool : Globals :=
  fun v => match v with
           | balance_1 => 1000000
           | balance_2 => 1000000
           | lp_circulation => 2000000
           | _ => stable_pool v
           end.

(** An even deposit of 1_000_000 of each asset whose call pays a fee of
    4000, four times the minimum. *)
Definition stable_deposit_env : Env :=
  env_at 200
         [ asset_transfer 5 1000000; asset_transfer 6 1000000;
           {| type_enum := TxnType.ApplicationCall;
              on_completion := OnComplete.NoOp;
              sender := alice; fee := 4000; receiver := 0; amount := 0;
              xfer_asset := 0; asset_receiver := 0; asset_amount := 0;
              application_id := app_id;
              application_args :=
                [AlgofiAMMPoolStrings.pool; AVM.itob 10000] |};
           app_call [AlgofiAMMPoolStrings.redeem_pool_asset1_residual];
           app_call [AlgofiAMMPoolStrings.redeem_pool_asset2_residual] ]
         2.

(** The same deposit paying a fee of 2999, just under three times the
    minimum. *)
Definition underfunded_stable_deposit_env : Env :=
  env_at 200
         [ asset_transfer 5 1000000; asset_transfer 6 1000000;
           {| type_enum := TxnType.ApplicationCall;
              on_completion := OnComplete.NoOp;
              sender := alice; fee := 2999; receiver := 0; amount := 0;
              xfer_asset := 0; asset_receiver := 0; asset_amount := 0;
              application_id := app_id;
              application_args :=
                [AlgofiAMMPoolStrings.pool; AVM.itob 10000] |};
           app_call [AlgofiAMMPoolStrings.redeem_pool_asset1_residual];
           app_call [AlgofiAMMPoolStrings.redeem_pool_asset2_residual] ]
         2.

(** Swapping for exactly 996 of asset 6, sending 2000 of asset 5. *)
Definition swap_for_exact_group : list Transaction :=
  [ asset_transfer 5 2000;
    app_call [AlgofiAMMPoolStrings.swap_for_exact; AVM.itob 996];
    app_call [AlgofiAMMPoolStrings.redeem_swap_residual] ].

Definition swap_for_exact_env (idx : Z) : Env :=
  env_at 500 swap_for_exact_group idx.

End Cases.

(** ** A program logic for expressions

    [wlp e m Q]: if [e] runs from [m] without a panic, its result and final
    machine satisfy [Q].  [wp e m Q]: [e] does run from [m] without a panic,
    and its result and final machine satisfy [Q]. *)

Definition wlp {A} (e : M A) (m : Machine) (Q : A -> Machine -> Prop) : Prop :=
  match e m with
  | Some (a, m') => Q a m'
  | None => True
  end.

Definition wp {A} (e : M A) (m : Machine) (Q : A -> Machine -> Prop) : Prop :=
  match e m with
  | Some (a, m') => Q a m'
  | None => False
  end.

(** * Properties *)

Lemma MAX_INT_U64_value : MAX_INT_U64 = 18446744073709551615.
Proof. reflexivity. Qed.

Lemma obind_Some {A B} (m : option A) (k : A -> option B) (b : B) :
  obind m k = Some b <-> exists a, m = Some a /\ k a = Some b.
Proof.
  destruct m as [a|]; simpl; split.
  - intros H. exists a. auto.
  - intros (a' & Ha & Hk). injection Ha as ->. exact Hk.
  - discriminate.
  - intros (a' & Ha & _). discriminate.
Qed.

(** ** Rules of the program logic *)

Lemma truthy_of_bool (b : bool) : truthy (of_bool b) = b.
Proof. destruct b; reflexivity. Qed.

Section Rules.

Context {A B : Type}.

Lemma wlp_elim (e : M A) m (Q : A -> Machine -> Prop) a m' :
  wlp e m Q -> e m = Some (a, m') -> Q a m'.
Proof. unfold wlp. intros H E. rewrite E in H. exact H. Qed.

Lemma wlp_ret (a : A) m (Q : A -> Machine -> Prop) :
  Q a m -> wlp (ret a) m Q.
Proof. intros H. exact H. Qed.

Lemma wlp_panic m (Q : A -> Machine -> Prop) : wlp panic m Q.
Proof. exact I. Qed.

Lemma wlp_bind (e : M A) (k : A -> M B) m (Q : B -> Machine -> Prop) :
  wlp e m (fun a m' => wlp (k a) m' Q) -> wlp (bind e k) m Q.
Proof. unfold wlp, bind. destruct (e m) as [[a m']|]; auto. Qed.

(** Sequencing through an intermediate assertion. *)
Lemma wlp_mid (R : A -> Machine -> Prop) (e : M A) (k : A -> M B) m
    (Q : B -> Machine -> Prop) :
  wlp e m R -> (forall a m', R a m' -> wlp (k a) m' Q) ->
  wlp (bind e k) m Q.
Proof.
  unfold wlp, bind. intros H K. destruct (e m) as [[a m']|]; auto.
  apply K. exact H.
Qed.

(** Whatever [e] does, the continuation establishes [Q]. *)
Lemma wlp_skip (e : M A) (k : A -> M B) m (Q : B -> Machine -> Prop) :
  (forall a m', wlp (k a) m' Q) -> wlp (bind e k) m Q.
Proof.
  intros K. apply (wlp_mid (fun _ _ => True)); [|auto].
  unfold wlp. destruct (e m) as [[? ?]|]; exact I.
Qed.

Lemma wlp_reads (f : Machine -> A) m (Q : A -> Machine -> Prop) :
  Q (f m) m -> wlp (reads f) m Q.
Proof. intros H. exact H. Qed.

Lemma wlp_lift_option (o : option A) m (Q : A -> Machine -> Prop) :
  (forall a, o = Some a -> Q a m) -> wlp (lift_option o) m Q.
Proof. destruct o; unfold wlp; simpl; auto. Qed.

Lemma wp_elim (e : M A) m (Q : A -> Machine -> Prop) :
  wp e m Q -> exists a m', e m = Some (a, m') /\ Q a m'.
Proof. unfold wp. destruct (e m) as [[a m']|]; [eauto|tauto]. Qed.

Lemma wp_ret (a : A) m (Q : A -> Machine -> Prop) :
  Q a m -> wp (ret a) m Q.
Proof. intros H. exact H. Qed.

Lemma wp_bind (e : M A) (k : A -> M B) m (Q : B -> Machine -> Prop) :
  wp e m (fun a m' => wp (k a) m' Q) -> wp (bind e k) m Q.
Proof. unfold wp, bind. destruct (e m) as [[a m']|]; auto. Qed.

Lemma wp_reads (f : Machine -> A) m (Q : A -> Machine -> Prop) :
  Q (f m) m -> wp (reads f) m Q.
Proof. intros H. exact H. Qed.

Lemma wp_lift_option (o : option A) m (Q : A -> Machine -> Prop) a :
  o = Some a -> Q a m -> wp (lift_option o) m Q.
Proof. intros ->. intros H. exact H. Qed.

End Rules.

Lemma wlp_modify f m (Q : unit -> Machine -> Prop) :
  Q tt (f m) -> wlp (modify f) m Q.
Proof. intros H. exact H. Qed.

Lemma wp_modify f m (Q : unit -> Machine -> Prop) :
  Q tt (f m) -> wp (modify f) m Q.
Proof. intros H. exact H. Qed.

(** An accepted call, seen through [wlp]. *)
Lemma call_wlp (program : Expr) (g g' : Globals) (out : list InnerTxn)
    (P : Globals -> list InnerTxn -> Prop) :
  wlp program (fresh g) (fun _ m => P (globals m) (submitted m)) ->
  call program g = Some (g', out) -> P g' out.
Proof.
  unfold call, wlp. destruct (program (fresh g)) as [[r m]|]; [|discriminate].
  intros H. destruct (truthy r); [|discriminate].
  intros E. injection E as <- <-. exact H.
Qed.

Lemma call_wp (program : Expr) (g : Globals)
    (P : Globals -> list InnerTxn -> Prop) :
  wp program (fresh g) (fun r m => truthy r = true
                                   /\ P (globals m) (submitted m)) ->
  exists g' out, call program g = Some (g', out) /\ P g' out.
Proof.
  unfold call, wp. destruct (program (fresh g)) as [[r m]|]; [|tauto].
  intros [-> H]. eauto.
Qed.

(** ** What the AVM's operations return *)

Lemma plus_Some a b z :
  AVM.plus a b = Some z -> z = a + b /\ a + b <= 18446744073709551615.
Proof.
  unfold AVM.plus, AVM.MAX_UINT64.
  destruct (Z.leb_spec (a + b) 18446744073709551615); [|discriminate].
  intros E. injection E as <-. auto.
Qed.

Lemma minus_Some a b z : AVM.minus a b = Some z -> z = a - b /\ b <= a.
Proof.
  unfold AVM.minus. destruct (Z.leb_spec b a); [|discriminate].
  intros E. injection E as <-. auto.
Qed.

Lemma times_Some a b z :
  AVM.times a b = Some z -> z = a * b /\ a * b <= 18446744073709551615.
Proof.
  unfold AVM.times, AVM.MAX_UINT64.
  destruct (Z.leb_spec (a * b) 18446744073709551615); [|discriminate].
  intros E. injection E as <-. auto.
Qed.

Lemma divide_Some a b z : AVM.divide a b = Some z -> z = a / b /\ b <> 0.
Proof.
  unfold AVM.divide. destruct (Z.eqb_spec b 0); [discriminate|].
  intros E. injection E as <-. auto.
Qed.

Lemma wide_ratio_Some a b c z :
  AVM.wide_ratio [a; b] [c] = Some z ->
  z = a * b / c /\ c <> 0 /\ a * b / c <= 18446744073709551615.
Proof.
  unfold AVM.wide_ratio, AVM.product, AVM.MAX_UINT64, fold_right.
  rewrite !Z.mul_1_r.
  destruct (Z.eqb_spec c 0); [discriminate|].
  destruct (Z.leb_spec (a * b / c) 18446744073709551615); [|discriminate].
  intros E. injection E as <-. auto.
Qed.

Lemma option_map_Some {X Y} (f : X -> Y) (o : option X) (y : Y) :
  option_map f o = Some y -> exists x, o = Some x /\ f x = y.
Proof.
  destruct o as [x|]; simpl; [|discriminate].
  intros E. injection E as <-. eauto.
Qed.

(** ** Symbolic execution *)

Ltac teal_indices :=
  cbv beta delta [POOL__ASSET1_IN_IDX POOL__ASSET2_IN_IDX
             POOL__REDEEM_POOL_ASSET1_RESIDUAL_IDX
             POOL__REDEEM_POOL_ASSET2_RESIDUAL_IDX
             BURN_ASSET1_OUT__LP_IN_IDX BURN_ASSET1_OUT__BURN_ASSET2_OUT_IDX
             BURN_ASSET2_OUT__LP_IN_IDX BURN_ASSET2_OUT__BURN_ASSET1_OUT_IDX
             SWAP__SWAP_IN_IDX SWAP__REDEEM_SWAP_RESIDUAL_IDX];
  repeat match goal with
  | |- context [relative_index ?e (-2)] =>
      change (relative_index e (-2)) with (Minus (Txn_group_index e) (Int 2))
  | |- context [relative_index ?e (-1)] =>
      change (relative_index e (-1)) with (Minus (Txn_group_index e) (Int 1))
  | |- context [relative_index ?e 1] =>
      change (relative_index e 1) with (Add (Txn_group_index e) (Int 1))
  | |- context [relative_index ?e 2] =>
      change (relative_index e 2) with (Add (Txn_group_index e) (Int 2))
  end.

(** Unfold the derived combinators down to [bind], [ret], [panic], [reads],
    [modify] and [lift_option]. *)
Ltac teal_expand :=
  cbv beta iota zeta delta
    [Seq Assert If When Cond Int binop compare
     Add Minus Mul Div Eq Neq Lt Le Gt Ge And Or Not Sqrt
     eval_all WideRatio get put load store submit
     increment decrement hasValue value
     Gtxn Txn Txn_group_index arg Btoi BytesEq
     Global_group_size Global_latest_timestamp Global_current_application_id
     Global_current_application_address Global_min_txn_fee Global_min_balance
     Balance FLASH_LOAN_IDX FLASH_LOAN_REPAY_IDX
     send_asa send_algo send_asset1 send_asset2 send_lp wrapped call3 call4
     verify_txn_is_named_application_call verify_txn_is_sending_algos_to_pool
     verify_txn_is_sending_asa_to_pool
     update_reserve_factor update_flash_loan_fee update_max_flash_loan_ratio
     update_reserves validate_asset_ratio].

Ltac teal_state :=
  cbv beta iota delta [fresh globals scratch submitted set_global set_scratch
                       GlobalVar_beq ScratchSlot_beq].

(** Turn the facts collected by [wlp_run] into arithmetic. *)
Ltac avm_facts :=
  repeat match goal with
  | H : AVM.plus _ _ = Some _ |- _ => apply plus_Some in H; destruct H as [? ?]
  | H : AVM.minus _ _ = Some _ |- _ =>
      apply minus_Some in H; destruct H as [? ?]
  | H : AVM.times _ _ = Some _ |- _ =>
      apply times_Some in H; destruct H as [? ?]
  | H : AVM.divide _ _ = Some _ |- _ =>
      apply divide_Some in H; destruct H as [? ?]
  | H : AVM.wide_ratio [_; _] [_] = Some _ |- _ =>
      apply wide_ratio_Some in H; destruct H as (? & ? & ?)
  | H : option_map _ _ = Some _ |- _ =>
      apply option_map_Some in H; destruct H as (? & ? & ?)
  | H : (_ <=? _) = true |- _ => apply Z.leb_le in H
  | H : (_ <=? _) = false |- _ => apply Z.leb_gt in H
  | H : (_ <? _) = true |- _ => apply Z.ltb_lt in H
  | H : (_ <? _) = false |- _ => apply Z.ltb_ge in H
  | H : (_ =? _) = true |- _ => apply Z.eqb_eq in H
  | H : (_ =? _) = false |- _ => apply Z.eqb_neq in H
  | H : context [truthy (of_bool _)] |- _ => rewrite !truthy_of_bool in H
  | H : (_ || _) = true |- _ => apply orb_true_iff in H; destruct H
  | H : (_ && _) = true |- _ => apply andb_true_iff in H; destruct H
  | H : true = true |- _ => clear H
  | H : false = true |- _ => discriminate H
  | H : true = false |- _ => discriminate H
  end.

(** Values of globals that the context fixes. *)
Ltac use_known_globals :=
  repeat match goal with
  | H : ?g ?v = _ |- context [?g ?v] =>
      lazymatch type of g with
      | Globals => rewrite H
      | GlobalVar -> Z => rewrite H
      end
  end.

Ltac wlp_step :=
  lazymatch goal with
  | |- wlp (bind _ _) _ _ => apply wlp_bind
  | |- wlp (ret _) _ _ => apply wlp_ret; cbv beta
  | |- wlp panic _ _ => apply wlp_panic
  | |- wlp (reads _) _ _ => apply wlp_reads; teal_state; use_known_globals
  | |- wlp (modify _) _ _ => apply wlp_modify; teal_state
  | |- wlp (lift_option (Some ?a)) _ _ =>
      change (lift_option (Some a)) with (@ret _ a)
  | |- wlp (lift_option None) _ _ => apply wlp_panic
  | |- wlp (lift_option (option_map ?f ?t)) _ _ =>
      first
        [ match goal with
          | H : t = Some _ |- _ => rewrite H
          end
        | let x := fresh "t" in let E := fresh "Ht" in
          destruct t as [x|] eqn:E ];
      cbn [option_map]
  | |- wlp (lift_option ?o) _ _ =>
      first
        [ match goal with
          | H : o = Some _ |- _ => rewrite H
          end
        | let z := fresh "z" in let Hz := fresh "Hz" in
          destruct o as [z|] eqn:Hz ]
  | |- wlp (if truthy (of_bool ?b) then _ else _) _ _ =>
      rewrite (truthy_of_bool b)
  | |- wlp (if truthy TRUE then _ else _) _ _ =>
      change (truthy TRUE) with true; cbv iota
  | |- wlp (if truthy FALSE then _ else _) _ _ =>
      change (truthy FALSE) with false; cbv iota
  | |- wlp (if match ?o with Some _ => true | None => false end
            then _ else _) _ _ =>
      first
        [ match goal with
          | H : o = Some _ |- _ => rewrite H
          | H : o = None |- _ => rewrite H
          end
        | let z := fresh "z" in let Hz := fresh "Hz" in
          destruct o as [z|] eqn:Hz ]
  | |- wlp (if ?b then _ else _) _ _ =>
      first
        [ match goal with
          | H : b = true |- _ => rewrite H
          | H : b = false |- _ => rewrite H
          end
        | let E := fresh "E" in
          destruct b eqn:E; try solve [exfalso; avm_facts; subst; lia] ]
  end.

Ltac wlp_run := repeat wlp_step.

Ltac split_all := repeat lazymatch goal with |- _ /\ _ => split end.

(** Decide the comparisons left in the goal from the context. *)
Ltac decide_eqb :=
  repeat match goal with
  | |- context [?a =? ?b] =>
      destruct (Z.eqb_spec a b); try (exfalso; congruence)
  end.

Ltac decide_ltb :=
  repeat match goal with
  | |- context [?a <? ?b] =>
      destruct (Z.ltb_spec a b); try (exfalso; lia)
  end.

(** ** The wrapped accumulator *)

Lemma wrapped_value_mod (current addend : Z) :
  AVM.uint64 current -> AVM.uint64 addend ->
  calculate_integer_wrapped_value current addend
  = Some ((current + addend) mod 2 ^ 64).
Proof.
  unfold AVM.uint64, AVM.MAX_UINT64. intros Hc Ha.
  unfold calculate_integer_wrapped_value, AVM.minus, AVM.plus, obind.
  rewrite MAX_INT_U64_value. unfold AVM.MAX_UINT64.
  change (2 ^ 64) with 18446744073709551616.
  destruct (current <=? 18446744073709551615) eqn:E1;
    [|apply Z.leb_gt in E1; lia].
  destruct (18446744073709551615 - current <? addend) eqn:E2.
  - apply Z.ltb_lt in E2.
    destruct (18446744073709551615 - current <=? addend) eqn:E3;
      [|apply Z.leb_gt in E3; lia].
    destruct (1 <=? addend - (18446744073709551615 - current)) eqn:E4;
      [|apply Z.leb_gt in E4; lia].
    f_equal. apply Z.mod_unique with (q := 1); lia.
  - apply Z.ltb_ge in E2.
    destruct (current + addend <=? 18446744073709551615) eqn:E3;
      [|apply Z.leb_gt in E3; lia].
    f_equal. symmetry. apply Z.mod_small. lia.
Qed.

Lemma accumulate_mod (addends : list Z) :
  forall current,
    AVM.uint64 current -> Forall AVM.uint64 addends ->
    accumulate current addends = Some ((current + sum addends) mod 2 ^ 64).
Proof.
  induction addends as [|a rest IH]; intros current Hc Hall.
  - cbn [accumulate sum fold_right].
    rewrite Z.add_0_r. f_equal. symmetry. apply Z.mod_small.
    unfold AVM.uint64, AVM.MAX_UINT64 in Hc.
    change (2 ^ 64) with 18446744073709551616. lia.
  - inversion Hall as [|? ? Ha Hrest]; subst.
    cbn [accumulate sum fold_right].
    rewrite (wrapped_value_mod current a Hc Ha).
    cbn [obind].
    rewrite IH; auto.
    + f_equal. rewrite Z.add_mod_idemp_l by discriminate.
      f_equal. fold (sum rest). lia.
    + pose proof (Z.mod_pos_bound (current + a) (2 ^ 64) eq_refl) as Hb.
      unfold AVM.uint64, AVM.MAX_UINT64.
      change (2 ^ 64) with 18446744073709551616 in *. lia.
Qed.

(** C6: on [uint64] arguments [calculate_integer_wrapped_value] never panics;
    it returns [addend - (MAX - current) - 1] when [current + addend] exceeds
    the largest [uint64] and [current + addend] otherwise; the result is
    [(current + addend) mod 2^64], stays within [uint64], and feeding any
    sequence of addends through it yields the unbounded sum modulo [2^64]. *)
Theorem wrapped_accumulator_correct (current addend : Z) (addends : list Z) :
  AVM.uint64 current -> AVM.uint64 addend -> Forall AVM.uint64 addends ->
  exists r,
    calculate_integer_wrapped_value current addend = Some r
    /\ r = (if AVM.MAX_UINT64 <? current + addend
            then addend - (AVM.MAX_UINT64 - current) - 1
            else current + addend)
    /\ r = (current + addend) mod 2 ^ 64
    /\ AVM.uint64 r
    /\ accumulate current (addend :: addends)
       = Some ((current + addend + sum addends) mod 2 ^ 64).
Proof.
  intros Hc Ha Hall.
  exists ((current + addend) mod 2 ^ 64).
  pose proof (Z.mod_pos_bound (current + addend) (2 ^ 64) eq_refl) as Hb.
  split; [apply wrapped_value_mod; assumption|].
  unfold AVM.uint64, AVM.MAX_UINT64 in *.
  change (2 ^ 64) with 18446744073709551616 in *.
  repeat split; try lia.
  - destruct (18446744073709551615 <? current + addend) eqn:E.
    + apply Z.ltb_lt in E. symmetry. apply Z.mod_unique with (q := 1); lia.
    + apply Z.ltb_ge in E. apply Z.mod_small. lia.
  - change 18446744073709551616 with (2 ^ 64).
    rewrite (accumulate_mod (addend :: addends) current).
    + cbn [sum fold_right]. f_equal. f_equal. fold (sum addends). lia.
    + unfold AVM.uint64, AVM.MAX_UINT64. lia.
    + constructor; [unfold AVM.uint64, AVM.MAX_UINT64; lia | assumption].
Qed.

Lemma wrapped_accumulator_correct_witness :
  exists r,
    calculate_integer_wrapped_value 18446744073709551610 9 = Some r
    /\ r = (if AVM.MAX_UINT64 <? 18446744073709551610 + 9
            then 9 - (AVM.MAX_UINT64 - 18446744073709551610) - 1
            else 18446744073709551610 + 9)
    /\ r = (18446744073709551610 + 9) mod 2 ^ 64
    /\ AVM.uint64 r
    /\ accumulate 18446744073709551610 (9 :: [7; 18446744073709551615])
       = Some ((18446744073709551610 + 9 + sum [7; 18446744073709551615])
               mod 2 ^ 64).
Proof.
  apply (wrapped_accumulator_correct
           18446744073709551610 9 [7; 18446744073709551615]).
  - unfold AVM.uint64, AVM.MAX_UINT64. lia.
  - unfold AVM.uint64, AVM.MAX_UINT64. lia.
  - repeat constructor; unfold AVM.MAX_UINT64; lia.
Defined.

(** ** Flash loans *)


(** What an accepted [on_flash_loan] has checked and done. *)
Lemma on_flash_loan_spec env g g' out :
  call (on_flash_loan env) g = Some (g', out) ->
  exists this asset_arg amount_arg asset L rf f ratio repay,
    manager_reserve_factor env = Some rf
    /\ manager_flash_loan_fee env = Some f
    /\ manager_max_flash_loan_ratio env = Some ratio
    /\ txn_at env (group_index env) = Some this
    /\ nth_error (application_args this) 1 = Some asset_arg
    /\ AVM.btoi asset_arg = Some asset
    /\ nth_error (application_args this) 2 = Some amount_arg
    /\ AVM.btoi amount_arg = Some L
    /\ group_index env = 0
    /\ 0 < L
    /\ txn_at env (Z.of_nat (List.length (group env)) - 1) = Some repay
    /\ let fee := L * f / FIXED_6_SCALE_FACTOR + 1 in
       let to_reserve := fee * rf / FIXED_6_SCALE_FACTOR in
       pays_pool env repay asset (L + fee)
       /\ if asset =? g asset1_id
          then L <= g balance_1 * ratio / FIXED_6_SCALE_FACTOR
               /\ g' balance_1 = g balance_1 + fee - to_reserve
               /\ g' asset1_reserve = g asset1_reserve + to_reserve
               /\ g' balance_2 = g balance_2
               /\ out = [if g asset1_id =? 1
                         then PaymentTo (sender this) L
                         else AssetTransferTo (g asset1_id) L (sender this)]
          else asset = g asset2_id
               /\ L <= g balance_2 * ratio / FIXED_6_SCALE_FACTOR
               /\ g' balance_2 = g balance_2 + fee - to_reserve
               /\ g' asset2_reserve = g asset2_reserve + to_reserve
               /\ g' balance_1 = g balance_1
               /\ out = [AssetTransferTo (g asset2_id) L (sender this)].
Proof.
  apply (call_wlp _ _ _ _ (fun g' out => _)).
  unfold on_flash_loan. teal_expand. wlp_run.
  all: avm_facts; subst.
  all: do 9 eexists.
  all: split_all.
  all: try eassumption; try reflexivity.
  all: unfold pays_pool.
  all: decide_eqb.
  all: split_all.
  all: try eassumption; try reflexivity; try congruence.
Qed.

(** C9: [on_flash_loan] is accepted only at group index 0, and the repayment
    it has validated is the transaction at index [group size - 1]; at any
    other index the call is rejected. *)
Theorem flash_loan_first_and_repay_last env g :
  (group_index env <> 0 -> call (on_flash_loan env) g = None)
  /\ (forall g' out,
        call (on_flash_loan env) g = Some (g', out) ->
        group_index env = 0
        /\ exists this asset_arg amount_arg asset L f repay,
             txn_at env (group_index env) = Some this
             /\ nth_error (application_args this) 1 = Some asset_arg
             /\ AVM.btoi asset_arg = Some asset
             /\ nth_error (application_args this) 2 = Some amount_arg
             /\ AVM.btoi amount_arg = Some L
             /\ manager_flash_loan_fee env = Some f
             /\ txn_at env (Z.of_nat (List.length (group env)) - 1)
                = Some repay
             /\ pays_pool env repay asset
                          (L + (L * f / FIXED_6_SCALE_FACTOR + 1))).
Proof.
  assert (Hpos : forall g' out,
             call (on_flash_loan env) g = Some (g', out) ->
             group_index env = 0
             /\ exists this asset_arg amount_arg asset L f repay,
                  txn_at env (group_index env) = Some this
                  /\ nth_error (application_args this) 1 = Some asset_arg
                  /\ AVM.btoi asset_arg = Some asset
                  /\ nth_error (application_args this) 2 = Some amount_arg
                  /\ AVM.btoi amount_arg = Some L
                  /\ manager_flash_loan_fee env = Some f
                  /\ txn_at env (Z.of_nat (List.length (group env)) - 1)
                     = Some repay
                  /\ pays_pool env repay asset
                               (L + (L * f / FIXED_6_SCALE_FACTOR + 1))).
  { intros g' out Hcall.
    destruct (on_flash_loan_spec env g g' out Hcall)
      as (this & asset_arg & amount_arg & asset & L & rf & f & ratio & repay
          & Hrf & Hf & Hratio & Hthis & Ha1 & Hasset & Ha2 & HL & Hidx
          & Hpos & Hrepay & Hpays & _).
    split; [exact Hidx|].
    exists this, asset_arg, amount_arg, asset, L, f, repay.
    repeat split; assumption. }
  split; [|exact Hpos].
  intros Hidx.
  destruct (call (on_flash_loan env) g) as [[g' out]|] eqn:Hcall;
    [|reflexivity].
  destruct (Hpos g' out eq_refl) as [Hzero _]. contradiction.
Qed.

Lemma flash_loan_first_and_repay_last_witness :
  group_index Scenario.flash_loan_env = 0
  /\ exists this asset_arg amount_arg asset L f repay,
       txn_at Scenario.flash_loan_env (group_index Scenario.flash_loan_env)
       = Some this
       /\ nth_error (application_args this) 1 = Some asset_arg
       /\ AVM.btoi asset_arg = Some asset
       /\ nth_error (application_args this) 2 = Some amount_arg
       /\ AVM.btoi amount_arg = Some L
       /\ manager_flash_loan_fee Scenario.flash_loan_env = Some f
       /\ txn_at Scenario.flash_loan_env
                 (Z.of_nat (List.length (group Scenario.flash_loan_env)) - 1)
          = Some repay
       /\ pays_pool Scenario.flash_loan_env repay asset
                    (L + (L * f / FIXED_6_SCALE_FACTOR + 1)).
Proof.
  apply (proj2 (flash_loan_first_and_repay_last
                  Scenario.flash_loan_env Scenario.funded_pool)
               (globals_after (on_flash_loan Scenario.flash_loan_env)
                              Scenario.funded_pool)
               [AssetTransferTo 5 1000000 Scenario.alice]).
  vm_compute. reflexivity.
Defined.

(** C2, as the code has it: an accepted flash loan of [L] has [L > 0],
    [L <= floor(balance * max_flash_loan_ratio / 1e6)] on the loaned asset's
    balance, and a final transaction that pays the pool exactly [L + fee]
    with [fee = floor(L * flash_loan_fee / 1e6) + 1]; the loaned asset's
    balance grows by the fee less [floor(fee * reserve_factor / 1e6)], which
    goes to that asset's reserve.  The three rates are the manager's current
    values, refreshed by the call. *)
Theorem flash_loan_checks_and_fee env g g' out :
  call (on_flash_loan env) g = Some (g', out) ->
  exists this asset_arg amount_arg asset L rf f ratio repay,
    manager_reserve_factor env = Some rf
    /\ manager_flash_loan_fee env = Some f
    /\ manager_max_flash_loan_ratio env = Some ratio
    /\ txn_at env (group_index env) = Some this
    /\ nth_error (application_args this) 1 = Some asset_arg
    /\ AVM.btoi asset_arg = Some asset
    /\ nth_error (application_args this) 2 = Some amount_arg
    /\ AVM.btoi amount_arg = Some L
    /\ 0 < L
    /\ txn_at env (Z.of_nat (List.length (group env)) - 1) = Some repay
    /\ let fee := L * f / FIXED_6_SCALE_FACTOR + 1 in
       let to_reserve := fee * rf / FIXED_6_SCALE_FACTOR in
       pays_pool env repay asset (L + fee)
       /\ ((asset = g asset1_id
            /\ L <= g balance_1 * ratio / FIXED_6_SCALE_FACTOR
            /\ g' balance_1 = g balance_1 + fee - to_reserve
            /\ g' asset1_reserve = g asset1_reserve + to_reserve
            /\ g' balance_2 = g balance_2)
           \/ (asset = g asset2_id
               /\ L <= g balance_2 * ratio / FIXED_6_SCALE_FACTOR
               /\ g' balance_2 = g balance_2 + fee - to_reserve
               /\ g' asset2_reserve = g asset2_reserve + to_reserve
               /\ g' balance_1 = g balance_1)).
Proof.
  intros Hcall.
  destruct (on_flash_loan_spec env g g' out Hcall)
    as (this & asset_arg & amount_arg & asset & L & rf & f & ratio & repay
        & Hrf & Hf & Hratio & Hthis & Ha1 & Hasset & Ha2 & HL & Hidx
        & Hpos & Hrepay & Hpays & Hside).
  exists this, asset_arg, amount_arg, asset, L, rf, f, ratio, repay.
  cbv zeta in *.
  repeat (split; [assumption|]).
  destruct (Z.eqb_spec asset (g asset1_id)) as [He|Hne].
  - left. destruct Hside as (H1 & H2 & H3 & H4 & _). auto.
  - right. destruct Hside as (H0 & H1 & H2 & H3 & H4 & _). auto.
Qed.

Lemma flash_loan_checks_and_fee_witness :
  exists this asset_arg amount_arg asset L rf f ratio repay,
    manager_reserve_factor Scenario.flash_loan_env = Some rf
    /\ manager_flash_loan_fee Scenario.flash_loan_env = Some f
    /\ manager_max_flash_loan_ratio Scenario.flash_loan_env = Some ratio
    /\ txn_at Scenario.flash_loan_env (group_index Scenario.flash_loan_env)
       = Some this
    /\ nth_error (application_args this) 1 = Some asset_arg
    /\ AVM.btoi asset_arg = Some asset
    /\ nth_error (application_args this) 2 = Some amount_arg
    /\ AVM.btoi amount_arg = Some L
    /\ 0 < L
    /\ txn_at Scenario.flash_loan_env
              (Z.of_nat (List.length (group Scenario.flash_loan_env)) - 1)
       = Some repay
    /\ let fee := L * f / FIXED_6_SCALE_FACTOR + 1 in
       let to_reserve := fee * rf / FIXED_6_SCALE_FACTOR in
       pays_pool Scenario.flash_loan_env repay asset (L + fee)
       /\ ((asset = Scenario.funded_pool asset1_id
            /\ L <= Scenario.funded_pool balance_1 * ratio
                    / FIXED_6_SCALE_FACTOR
            /\ globals_after (on_flash_loan Scenario.flash_loan_env)
                             Scenario.funded_pool balance_1
               = Scenario.funded_pool balance_1 + fee - to_reserve
            /\ globals_after (on_flash_loan Scenario.flash_loan_env)
                             Scenario.funded_pool asset1_reserve
               = Scenario.funded_pool asset1_reserve + to_reserve
            /\ globals_after (on_flash_loan Scenario.flash_loan_env)
                             Scenario.funded_pool balance_2
               = Scenario.funded_pool balance_2)
           \/ (asset = Scenario.funded_pool asset2_id
               /\ L <= Scenario.funded_pool balance_2 * ratio
                       / FIXED_6_SCALE_FACTOR
               /\ globals_after (on_flash_loan Scenario.flash_loan_env)
                                Scenario.funded_pool balance_2
                  = Scenario.funded_pool balance_2 + fee - to_reserve
               /\ globals_after (on_flash_loan Scenario.flash_loan_env)
                                Scenario.funded_pool asset2_reserve
                  = Scenario.funded_pool asset2_reserve + to_reserve
               /\ globals_after (on_flash_loan Scenario.flash_loan_env)
                                Scenario.funded_pool balance_1
                  = Scenario.funded_pool balance_1)).
Proof.
  apply (flash_loan_checks_and_fee
           Scenario.flash_loan_env Scenario.funded_pool
           (globals_after (on_flash_loan Scenario.flash_loan_env)
                          Scenario.funded_pool)
           [AssetTransferTo 5 1000000 Scenario.alice]).
  vm_compute. reflexivity.
Defined.

(** C2 as stated fails: a loan of 1_000_000 at fee rate 1000 (scaled 1e6) is
    accepted with a repayment of 1_001_001, one more than the loan plus the
    ceiling of the fee, and rejected with the loan plus the ceiling. *)
Lemma flash_loan_fee_exceeds_ceiling :
  option_map snd (call (on_flash_loan Scenario.flash_loan_env)
                       Scenario.funded_pool)
  = Some [AssetTransferTo 5 1000000 Scenario.alice]
  /\ option_map asset_amount
       (txn_at Scenario.flash_loan_env
          (Z.of_nat (List.length (group Scenario.flash_loan_env)) - 1))
     = Some 1001001
  /\ 1000000 + ceil_div (1000000 * 1000) FIXED_6_SCALE_FACTOR = 1001000
  /\ call (on_flash_loan Scenario.flash_loan_env_short) Scenario.funded_pool
     = None.
Proof. vm_compute. repeat split; reflexivity. Qed.

(** ** The balance and ratio bounds *)

Lemma validate_asset_ratio_wlp m :
  wlp validate_asset_ratio m (fun _ m' => ratio_ok (globals m')).
Proof.
  teal_expand. wlp_run. avm_facts. subst. unfold ratio_ok. auto.
Qed.

(** A program whose last statement is [validate_asset_ratio]. *)
Ltac skip_to_validate :=
  repeat lazymatch goal with
  | |- wlp (bind validate_asset_ratio _) _ _ =>
      apply (wlp_mid (fun _ m' => ratio_ok (globals m')));
      [ apply validate_asset_ratio_wlp
      | intros ? ? ?; wlp_run; assumption ]
  | |- wlp (bind _ _) _ _ => apply wlp_skip; intros ? ?
  end.

Lemma on_pool_ratio_ok self env g g' out :
  call (on_pool env self) g = Some (g', out) -> ratio_ok g'.
Proof.
  apply (call_wlp _ _ _ _ (fun g' _ => ratio_ok g')).
  cbv beta zeta delta [on_pool Seq]. cbv iota beta. fold Seq.
  apply wlp_bind.
  skip_to_validate.
Qed.

Lemma on_swap_ratio_ok self env g g' out :
  call (on_swap env self) g = Some (g', out) -> ratio_ok g'.
Proof.
  apply (call_wlp _ _ _ _ (fun g' _ => ratio_ok g')).
  cbv beta zeta delta [on_swap Seq]. cbv iota beta. fold Seq.
  apply wlp_bind.
  skip_to_validate.
Qed.

Lemma on_flash_loan_ratio_ok env g g' out :
  call (on_flash_loan env) g = Some (g', out) -> ratio_ok g'.
Proof.
  apply (call_wlp _ _ _ _ (fun g' _ => ratio_ok g')).
  cbv beta zeta delta [on_flash_loan Seq]. cbv iota beta. fold Seq.
  apply wlp_bind.
  skip_to_validate.
Qed.

(** C3, as the code has it: after an accepted deposit, swap or flash loan,
    of either pool variant, [balance_1 >= 1000], [balance_2 >= 1000],
    [balance_1 / balance_2 < 1e9] and [balance_2 / balance_1 < 1e9].  The two
    burn operations are not in the list: they make no such check. *)
Theorem ratio_bounds_after_deposit_swap_flash_loan self env g g' out :
  call (on_pool env self) g = Some (g', out)
  \/ call (on_swap env self) g = Some (g', out)
  \/ call (on_flash_loan env) g = Some (g', out) ->
  1000 <= g' balance_1
  /\ 1000 <= g' balance_2
  /\ g' balance_1 / g' balance_2 < 1000000000
  /\ g' balance_2 / g' balance_1 < 1000000000.
Proof.
  change (call (on_pool env self) g = Some (g', out)
          \/ call (on_swap env self) g = Some (g', out)
          \/ call (on_flash_loan env) g = Some (g', out) ->
          ratio_ok g').
  intros [H|[H|H]].
  - exact (on_pool_ratio_ok self env g g' out H).
  - exact (on_swap_ratio_ok self env g g' out H).
  - exact (on_flash_loan_ratio_ok env g g' out H).
Qed.

Lemma ratio_bounds_after_deposit_swap_flash_loan_witness :
  1000 <= Scenario.pool_after_deposit 1000000 1000000 balance_1
  /\ 1000 <= Scenario.pool_after_deposit 1000000 1000000 balance_2
  /\ Scenario.pool_after_deposit 1000000 1000000 balance_1
     / Scenario.pool_after_deposit 1000000 1000000 balance_2 < 1000000000
  /\ Scenario.pool_after_deposit 1000000 1000000 balance_2
     / Scenario.pool_after_deposit 1000000 1000000 balance_1 < 1000000000.
Proof.
  apply (ratio_bounds_after_deposit_swap_flash_loan
           AlgofiAMMPool (Scenario.deposit_env 1000000 1000000)
           Scenario.initialized_pool
           (Scenario.pool_after_deposit 1000000 1000000)
           [AssetTransferTo 9 1000000 Scenario.alice]).
  left. vm_compute. reflexivity.
Defined.

(** C3 as stated fails on the burn operations: burning the whole LP
    circulation of a pool holding (1_000_000, 1_000_000) is accepted and
    leaves [balance_1 = 0] after [burn_asset1_out], and both balances at 0
    after [burn_asset2_out]. *)
Lemma burn_leaves_balances_below_minimum :
  option_map (fun r => (fst r balance_1, fst r balance_2, snd r))
             (call (on_burn_asset1_out (Scenario.burn1_env 1000000))
                   (Scenario.seeded_pool 1000000 1000000 1000000))
  = Some (0, 1000000, [AssetTransferTo 5 1000000 Scenario.alice])
  /\ option_map (fun r => (fst r balance_1, fst r balance_2, snd r))
                (call (on_burn_asset2_out (Scenario.burn2_env 1000000))
                      (globals_after
                         (on_burn_asset1_out (Scenario.burn1_env 1000000))
                         (Scenario.seeded_pool 1000000 1000000 1000000)))
     = Some (0, 0, [AssetTransferTo 6 1000000 Scenario.alice])
  /\ ~ ratio_ok (globals_after
                   (on_burn_asset1_out (Scenario.burn1_env 1000000))
                   (Scenario.seeded_pool 1000000 1000000 1000000)).
Proof.
  split; [vm_compute; reflexivity|].
  split; [vm_compute; reflexivity|].
  intros [H _]. vm_compute in H. apply H. reflexivity.
Qed.

(** ** Deposits into an empty pool *)

(** What an accepted deposit into a pool without balances has checked and
    done. *)
Lemma on_pool_empty_spec env g g' out :
  g balance_1 = 0 -> g balance_2 = 0 ->
  call (on_pool env AlgofiAMMPool) g = Some (g', out) ->
  exists t1 t2 this,
    2 <= group_index env
    /\ txn_at env (group_index env - 2) = Some t1
    /\ txn_at env (group_index env - 1) = Some t2
    /\ txn_at env (group_index env) = Some this
    /\ let a1 := deposit_amount1 g t1 in
       let a2 := asset_amount t2 in
       let minted := first_issuance a1 a2 in
       0 < a1 /\ 0 < a2 /\ 0 < minted
       /\ pays_pool env t1 (g asset1_id) a1
       /\ out = [AssetTransferTo (g lp_id) minted (sender this)]
       /\ forall v,
            g' v = match v with
                   | balance_1 => a1
                   | balance_2 => a2
                   | lp_circulation => g lp_circulation + minted
                   | latest_time => latest_timestamp env
                   | _ => g v
                   end.
Proof.
  intros Hb1 Hb2.
  apply (call_wlp _ _ _ _ (fun g' out => _)).
  unfold on_pool, adjust_pool_input_amounts.
  cbv beta delta [calculate_lp_issuance AlgofiAMMPool
                  AlgofiAMMPool_calculate_lp_issuance].
  teal_indices. teal_expand.
  wlp_run.
  all: avm_facts; subst.
  all: match goal with
       | H1 : txn_at _ (_ - 2) = Some ?a, H2 : txn_at _ (_ - 1) = Some ?b,
         H3 : txn_at _ (group_index _) = Some ?c |- _ => exists a, b, c
       end.
  all: unfold deposit_amount1, first_issuance, pays_pool, AVM.sqrt in *.
  all: cbv zeta.
  all: decide_eqb.
  all: decide_ltb.
  all: split_all; try assumption; try reflexivity; try lia.
  all: intros v; destruct v; cbv iota; lia.
Qed.

(** C5, as the code has it: a first deposit [(a1, a2)] is issued
    [isqrt(a1 * a2)] LP when [a2 < floor((2^64 - 1) / a1)] and
    [isqrt(a1) * isqrt(a2)] otherwise.  The first case implies that the
    product fits 64 bits, and an overflowing product is always in the second
    case.  Depositing (1_000_000, 1_000_000) issues 1_000_000 LP and leaves
    both balances at 1_000_000. *)
Theorem first_deposit_issuance :
  (forall env g g' out,
      g balance_1 = 0 -> g balance_2 = 0 ->
      call (on_pool env AlgofiAMMPool) g = Some (g', out) ->
      exists t1 t2 this,
        txn_at env (group_index env - 2) = Some t1
        /\ txn_at env (group_index env - 1) = Some t2
        /\ txn_at env (group_index env) = Some this
        /\ let a1 := deposit_amount1 g t1 in
           let a2 := asset_amount t2 in
           let minted := if a2 <? (2 ^ 64 - 1) / a1
                         then Z.sqrt (a1 * a2)
                         else Z.sqrt a1 * Z.sqrt a2 in
           out = [AssetTransferTo (g lp_id) minted (sender this)]
           /\ g' lp_circulation = g lp_circulation + minted
           /\ g' balance_1 = a1
           /\ g' balance_2 = a2
           /\ (a2 < (2 ^ 64 - 1) / a1 -> a1 * a2 <= 2 ^ 64 - 1)
           /\ (2 ^ 64 - 1 < a1 * a2 -> minted = Z.sqrt a1 * Z.sqrt a2))
  /\ option_map (fun r => (fst r balance_1, fst r balance_2,
                           fst r lp_circulation, snd r))
                (call (on_pool (Scenario.deposit_env 1000000 1000000)
                               AlgofiAMMPool)
                      Scenario.initialized_pool)
     = Some (1000000, 1000000, 1000000,
             [AssetTransferTo 9 1000000 Scenario.alice]).
Proof.
  split; [|vm_compute; reflexivity].
  intros env g g' out Hb1 Hb2 Hcall.
  destruct (on_pool_empty_spec env g g' out Hb1 Hb2 Hcall)
    as (t1 & t2 & this & Hidx & Ht1 & Ht2 & Hthis & Hrest).
  cbv zeta in Hrest.
  destruct Hrest as (Ha1 & Ha2 & Hminted & Hpays & Hout & Hg').
  exists t1, t2, this.
  do 3 (split; [assumption|]).
  cbv zeta. fold MAX_INT_U64.
  fold (first_issuance (deposit_amount1 g t1) (asset_amount t2)).
  split; [exact Hout|].
  split; [apply (Hg' lp_circulation)|].
  split; [apply (Hg' balance_1)|].
  split; [apply (Hg' balance_2)|].
  assert (Hfit : asset_amount t2 < MAX_INT_U64 / deposit_amount1 g t1 ->
                 deposit_amount1 g t1 * asset_amount t2 <= MAX_INT_U64).
  { intros Hlt.
    pose proof (Z.mul_div_le MAX_INT_U64 (deposit_amount1 g t1) Ha1).
    nia. }
  split; [exact Hfit|].
  intros Hover. unfold first_issuance.
  destruct (Z.ltb_spec (asset_amount t2)
                       (MAX_INT_U64 / deposit_amount1 g t1)) as [Hlt|Hge];
    [|reflexivity].
  specialize (Hfit Hlt). lia.
Qed.

Lemma first_deposit_issuance_witness :
  exists t1 t2 this,
    txn_at (Scenario.deposit_env 1000000 1000000) (2 - 2) = Some t1
    /\ txn_at (Scenario.deposit_env 1000000 1000000) (2 - 1) = Some t2
    /\ txn_at (Scenario.deposit_env 1000000 1000000) 2 = Some this
    /\ let a1 := deposit_amount1 Scenario.initialized_pool t1 in
       let a2 := asset_amount t2 in
       let minted := if a2 <? (2 ^ 64 - 1) / a1
                     then Z.sqrt (a1 * a2)
                     else Z.sqrt a1 * Z.sqrt a2 in
       [AssetTransferTo 9 1000000 Scenario.alice]
       = [AssetTransferTo (Scenario.initialized_pool lp_id) minted
                          (sender this)]
       /\ Scenario.pool_after_deposit 1000000 1000000 lp_circulation
          = Scenario.initialized_pool lp_circulation + minted
       /\ Scenario.pool_after_deposit 1000000 1000000 balance_1 = a1
       /\ Scenario.pool_after_deposit 1000000 1000000 balance_2 = a2
       /\ (a2 < (2 ^ 64 - 1) / a1 -> a1 * a2 <= 2 ^ 64 - 1)
       /\ (2 ^ 64 - 1 < a1 * a2 -> minted = Z.sqrt a1 * Z.sqrt a2).
Proof.
  apply (proj1 first_deposit_issuance
               (Scenario.deposit_env 1000000 1000000)
               Scenario.initialized_pool
               (Scenario.pool_after_deposit 1000000 1000000)
               [AssetTransferTo 9 1000000 Scenario.alice]).
  - reflexivity.
  - reflexivity.
  - vm_compute. reflexivity.
Defined.

(** C5 as stated fails at the edge of the overflow test: the product of
    the deposit (2^32, 2^32 - 1) fits 64 bits, yet the pool issues
    [isqrt(2^32) * isqrt(2^32 - 1) = 4294901760] LP, not
    [isqrt(2^32 * (2^32 - 1)) = 4294967295]. *)
Lemma first_deposit_not_sqrt_of_product :
  4294967296 * 4294967295 <= 2 ^ 64 - 1
  /\ option_map snd
       (call (on_pool (Scenario.deposit_env 4294967296 4294967295)
                      AlgofiAMMPool)
             Scenario.initialized_pool)
     = Some [AssetTransferTo 9 4294901760 Scenario.alice]
  /\ Z.sqrt (4294967296 * 4294967295) = 4294967295.
Proof.
  split; [vm_compute; discriminate|].
  split; vm_compute; reflexivity.
Qed.

(** ** Burning the whole circulation *)

Lemma plus_ok a b :
  a + b <= 18446744073709551615 -> AVM.plus a b = Some (a + b).
Proof.
  intros H. unfold AVM.plus, AVM.MAX_UINT64.
  destruct (Z.leb_spec (a + b) 18446744073709551615); [reflexivity|lia].
Qed.

Lemma minus_ok a b : b <= a -> AVM.minus a b = Some (a - b).
Proof.
  intros H. unfold AVM.minus.
  destruct (Z.leb_spec b a); [reflexivity|lia].
Qed.

Ltac solve_side := first [assumption | congruence | lia].

Ltac wp_step :=
  lazymatch goal with
  | |- wp (bind _ _) _ _ => apply wp_bind
  | |- wp (ret _) _ _ => apply wp_ret; cbv beta
  | |- wp (reads _) _ _ => apply wp_reads; teal_state; use_known_globals
  | |- wp (modify _) _ _ => apply wp_modify; teal_state
  | |- wp (lift_option (Some ?a)) _ _ =>
      change (lift_option (Some a)) with (@ret _ a)
  | |- wp (lift_option (option_map ?f ?t)) _ _ =>
      match goal with
      | H : t = Some _ |- _ => rewrite H
      end;
      cbn [option_map]
  | |- wp (lift_option (AVM.plus ?a ?b)) _ _ =>
      rewrite (plus_ok a b) by solve_side
  | |- wp (lift_option (AVM.minus ?a ?b)) _ _ =>
      rewrite (minus_ok a b) by solve_side
  | |- wp (lift_option ?o) _ _ =>
      match goal with
      | H : o = Some _ |- _ => rewrite H
      end
  | |- wp (if truthy (of_bool ?b) then _ else _) _ _ =>
      rewrite (truthy_of_bool b)
  | |- wp (if (?a =? ?a)%string then _ else _) _ _ =>
      rewrite (String.eqb_refl a)
  | |- wp (if ?a =? ?b then _ else _) _ _ =>
      first [ rewrite (proj2 (Z.eqb_eq a b)) by solve_side
            | rewrite (proj2 (Z.eqb_neq a b)) by solve_side ]
  | |- wp (if ?a <? ?b then _ else _) _ _ =>
      first [ rewrite (proj2 (Z.ltb_lt a b)) by solve_side
            | rewrite (proj2 (Z.ltb_ge a b)) by solve_side ]
  | |- wp (if ?a <=? ?b then _ else _) _ _ =>
      first [ rewrite (proj2 (Z.leb_le a b)) by solve_side
            | rewrite (proj2 (Z.leb_gt a b)) by solve_side ]
  end.

Ltac wp_run := repeat wp_step.

Lemma burn_all_asset1 g burner env1 env2 :
  burn_group g (g lp_circulation) burner env1 env2 ->
  0 < g lp_circulation -> 0 < g balance_1 ->
  escrow_can_pay g env1 (g balance_1) ->
  exists g2,
    call (on_burn_asset1_out env1) g
    = Some (g2, [asset1_to g burner (g balance_1)])
    /\ forall v, g2 v = match v with balance_1 => 0 | _ => g v end.
Proof.
  intros [Hfirst Hadj Hu64 Hgrp Happ Haddr
          (tl & Htl & Hl1 & Hl2 & Hl3 & Hl4)
          (tb1 & Htb1 & Hb1a & Hb1b & Hb1c & Hb1d & Hb1e)
          (tb2 & Htb2 & Hb2a & Hb2b & Hb2c & Hb2d & Hb2e)]
         Hlp Hbal Hpay.
  unfold AVM.MAX_UINT64 in *.
  destruct (call_wp (on_burn_asset1_out env1) g
              (fun g2 out => out = [asset1_to g burner (g balance_1)]
                             /\ forall v, g2 v = match v with
                                                 | balance_1 => 0
                                                 | _ => g v
                                                 end))
    as (g2 & out & Hcall & -> & Hg2); [|exists g2; auto].
  unfold on_burn_asset1_out. teal_indices. teal_expand.
  wp_run.
  unfold asset1_to, escrow_can_pay in *.
  destruct (Z.eqb_spec (g asset1_id) 1) as [Halgo|Hasa].
  - pose proof (Hpay Halgo) as Hq. destruct Hq as [Hp1 Hp2].
    unfold AVM.MAX_UINT64 in Hp2.
    wp_run. split; [reflexivity|]. split; [cbn [app]; congruence|].
    intros v; destruct v; cbv iota; lia.
  - wp_run. split; [reflexivity|]. split; [cbn [app]; congruence|].
    intros v; destruct v; cbv iota; lia.
Qed.

Lemma burn_all_asset2 g burner env1 env2 :
  burn_group g (g lp_circulation) burner env1 env2 ->
  0 < g lp_circulation -> 0 < g balance_2 ->
  exists g3,
    call (on_burn_asset2_out env2) g
    = Some (g3, [AssetTransferTo (g asset2_id) (g balance_2) burner])
    /\ forall v, g3 v = match v with
                        | balance_2 => 0
                        | lp_circulation => 0
                        | _ => g v
                        end.
Proof.
  intros [Hfirst Hadj Hu64 Hgrp Happ Haddr
          (tl & Htl & Hl1 & Hl2 & Hl3 & Hl4)
          (tb1 & Htb1 & Hb1a & Hb1b & Hb1c & Hb1d & Hb1e)
          (tb2 & Htb2 & Hb2a & Hb2b & Hb2c & Hb2d & Hb2e)]
         Hlp Hbal.
  unfold AVM.MAX_UINT64 in *.
  assert (Hat : forall i, txn_at env2 i = txn_at env1 i)
    by (intros i; unfold txn_at; rewrite Hgrp; reflexivity).
  replace (group_index env1 - 1) with (group_index env2 - 2) in Htl by lia.
  replace (group_index env1) with (group_index env2 - 1) in Htb1 by lia.
  replace (group_index env1 + 1) with (group_index env2) in Htb2 by lia.
  rewrite <- Hat in Htl, Htb1, Htb2.
  rewrite <- Happ in *. rewrite <- Haddr in *.
  destruct (call_wp (on_burn_asset2_out env2) g
              (fun g3 out =>
                 out = [AssetTransferTo (g asset2_id) (g balance_2) burner]
                 /\ forall v, g3 v = match v with
                                     | balance_2 => 0
                                     | lp_circulation => 0
                                     | _ => g v
                                     end))
    as (g3 & out & Hcall & -> & Hg3); [|exists g3; auto].
  unfold on_burn_asset2_out. teal_indices. teal_expand.
  wp_run.
  split; [reflexivity|]. split; [cbn [app]; congruence|].
  intros v; destruct v; cbv iota; lia.
Qed.


Lemma burn_group_same_lp g g' lp burner env1 env2 :
  g' lp_id = g lp_id ->
  burn_group g lp burner env1 env2 -> burn_group g' lp burner env1 env2.
Proof.
  intros Hlp [H1 H2 H3 H4 H5 H6 H7 H8 H9].
  constructor; try assumption.
  rewrite Hlp. exact H7.
Qed.

(** C1: a deposit [(a1, a2)] into a pool without balances, once accepted,
    can be undone at once.  The LP circulation grows by the minted amount
    (and is the minted amount when no LP was outstanding); in a well-formed
    burn group for the whole circulation, [burn_asset1_out] is accepted and
    sends exactly [a1] of asset 1, [burn_asset2_out] is accepted and sends
    exactly [a2] of asset 2, and the pool is left with [balance_1 = 0],
    [balance_2 = 0] and [lp_circulation = 0]. *)
Theorem deposit_then_burn_all_returns_deposit
    env g0 g1 out_p burner env1 env2 :
  g0 balance_1 = 0 -> g0 balance_2 = 0 -> 0 <= g0 lp_circulation ->
  call (on_pool env AlgofiAMMPool) g0 = Some (g1, out_p) ->
  burn_group g1 (g1 lp_circulation) burner env1 env2 ->
  escrow_can_pay g1 env1 (g1 balance_1) ->
  exists t1 t2 this minted g2 g3,
    txn_at env (group_index env - 2) = Some t1
    /\ txn_at env (group_index env - 1) = Some t2
    /\ txn_at env (group_index env) = Some this
    /\ let a1 := deposit_amount1 g0 t1 in
       let a2 := asset_amount t2 in
       pays_pool env t1 (g0 asset1_id) a1
       /\ out_p = [AssetTransferTo (g0 lp_id) minted (sender this)]
       /\ 0 < minted
       /\ g1 lp_circulation = g0 lp_circulation + minted
       /\ call (on_burn_asset1_out env1) g1
          = Some (g2, [asset1_to g0 burner a1])
       /\ call (on_burn_asset2_out env2) g2
          = Some (g3, [AssetTransferTo (g0 asset2_id) a2 burner])
       /\ g3 balance_1 = 0
       /\ g3 balance_2 = 0
       /\ g3 lp_circulation = 0.
Proof.
  intros Hb1 Hb2 Hlp0 Hpool Hgroup Hpay.
  destruct (on_pool_empty_spec env g0 g1 out_p Hb1 Hb2 Hpool)
    as (t1 & t2 & this & Hidx & Ht1 & Ht2 & Hthis & Hrest).
  cbv zeta in Hrest.
  destruct Hrest as (Ha1 & Ha2 & Hminted & Hpays & Hout & Hg1).
  pose proof (Hg1 balance_1) as Hg1b1. cbv iota in Hg1b1.
  pose proof (Hg1 balance_2) as Hg1b2. cbv iota in Hg1b2.
  pose proof (Hg1 lp_circulation) as Hg1lp. cbv iota in Hg1lp.
  pose proof (Hg1 asset1_id) as Hg1a1. cbv iota in Hg1a1.
  pose proof (Hg1 asset2_id) as Hg1a2. cbv iota in Hg1a2.
  destruct (burn_all_asset1 g1 burner env1 env2 Hgroup)
    as (g2 & Hburn1 & Hg2); [lia | lia | exact Hpay |].
  assert (Hgroup2 : burn_group g2 (g2 lp_circulation) burner env1 env2).
  { rewrite (Hg2 lp_circulation). cbv iota.
    apply (burn_group_same_lp g1); [apply (Hg2 lp_id)|exact Hgroup]. }
  destruct (burn_all_asset2 g2 burner env1 env2 Hgroup2)
    as (g3 & Hburn2 & Hg3).
  { rewrite (Hg2 lp_circulation). cbv iota. lia. }
  { rewrite (Hg2 balance_2). cbv iota. lia. }
  exists t1, t2, this,
         (first_issuance (deposit_amount1 g0 t1) (asset_amount t2)), g2, g3.
  cbv zeta.
  do 3 (split; [assumption|]).
  split; [exact Hpays|].
  split; [exact Hout|].
  split; [exact Hminted|].
  split; [exact Hg1lp|].
  split.
  { rewrite Hburn1. unfold asset1_to. rewrite Hg1a1, Hg1b1. reflexivity. }
  split.
  { rewrite Hburn2. rewrite (Hg2 asset2_id), (Hg2 balance_2). cbv iota.
    rewrite Hg1a2, Hg1b2. reflexivity. }
  split.
  { rewrite (Hg3 balance_1). cbv iota. apply (Hg2 balance_1). }
  split.
  { apply (Hg3 balance_2). }
  apply (Hg3 lp_circulation).
Qed.

Lemma deposit_then_burn_all_returns_deposit_witness :
  exists t1 t2 this minted g2 g3,
    txn_at (Scenario.deposit_env 1000000 1000000) (2 - 2) = Some t1
    /\ txn_at (Scenario.deposit_env 1000000 1000000) (2 - 1) = Some t2
    /\ txn_at (Scenario.deposit_env 1000000 1000000) 2 = Some this
    /\ let a1 := deposit_amount1 Scenario.initialized_pool t1 in
       let a2 := asset_amount t2 in
       pays_pool (Scenario.deposit_env 1000000 1000000) t1
                 (Scenario.initialized_pool asset1_id) a1
       /\ [AssetTransferTo 9 1000000 Scenario.alice]
          = [AssetTransferTo (Scenario.initialized_pool lp_id) minted
                             (sender this)]
       /\ 0 < minted
       /\ Scenario.pool_after_deposit 1000000 1000000 lp_circulation
          = Scenario.initialized_pool lp_circulation + minted
       /\ call (on_burn_asset1_out (Scenario.burn1_env 1000000))
               (Scenario.pool_after_deposit 1000000 1000000)
          = Some (g2, [asset1_to Scenario.initialized_pool Scenario.alice a1])
       /\ call (on_burn_asset2_out (Scenario.burn2_env 1000000)) g2
          = Some (g3, [AssetTransferTo (Scenario.initialized_pool asset2_id)
                                       a2 Scenario.alice])
       /\ g3 balance_1 = 0
       /\ g3 balance_2 = 0
       /\ g3 lp_circulation = 0.
Proof.
  apply (deposit_then_burn_all_returns_deposit
           (Scenario.deposit_env 1000000 1000000)
           Scenario.initialized_pool
           (Scenario.pool_after_deposit 1000000 1000000)
           [AssetTransferTo 9 1000000 Scenario.alice]
           Scenario.alice
           (Scenario.burn1_env 1000000) (Scenario.burn2_env 1000000)).
  - reflexivity.
  - reflexivity.
  - vm_compute. discriminate.
  - vm_compute. reflexivity.
  - constructor.
    + vm_compute. discriminate.
    + reflexivity.
    + vm_compute. discriminate.
    + reflexivity.
    + reflexivity.
    + reflexivity.
    + eexists. repeat split; vm_compute; reflexivity.
    + eexists. repeat split; vm_compute; reflexivity.
    + eexists. repeat split; vm_compute; reflexivity.
  - intros Halgo. vm_compute in Halgo. discriminate.
Defined.

(** ** Swapping an exact input *)

Lemma on_swap_exact_for_spec env g g' out this name :
  txn_at env (group_index env) = Some this ->
  nth_error (application_args this) 0 = Some name ->
  name <> AlgofiAMMPoolStrings.swap_for_exact ->
  call (on_swap env AlgofiAMMPool) g = Some (g', out) ->
  exists t_in rf,
    txn_at env (group_index env - 1) = Some t_in
    /\ manager_reserve_factor env = Some rf
    /\ let input := swap_input t_in in
       let fee :=
         input * g swap_fee_pct_scaled_var / FIXED_6_SCALE_FACTOR + 1 in
       let input_less_fee := input - fee in
       0 < input_less_fee
       /\ if swap_input_is_asset1 g t_in
          then let output := g balance_2 * input_less_fee
                             / (g balance_1 + input_less_fee) in
               out = [AssetTransferTo (g asset2_id) output (sender this)]
               /\ g' balance_2 = g balance_2 - output
               /\ g' balance_1
                  = g balance_1 + input - fee * rf / FIXED_6_SCALE_FACTOR
          else let output := g balance_1 * input_less_fee
                             / (g balance_2 + input_less_fee) in
               out = [asset1_to g (sender this) output]
               /\ g' balance_1 = g balance_1 - output
               /\ g' balance_2
                  = g balance_2 + input - fee * rf / FIXED_6_SCALE_FACTOR.
Proof.
  intros Hthis Hname Hmode.
  apply String.eqb_neq in Hmode.
  apply (call_wlp _ _ _ _ (fun g' out => _)).
  unfold on_swap.
  cbv beta delta [swap_exact_asset1_for swap_exact_asset2_for
                  swap_for_exact_asset1_amount swap_for_exact_asset2_amount
                  AlgofiAMMPool
                  AlgofiAMMPool_swap_exact_asset1_for
                  AlgofiAMMPool_swap_exact_asset2_for
                  AlgofiAMMPool_swap_for_exact_asset1_amount
                  AlgofiAMMPool_swap_for_exact_asset2_amount].
  teal_indices. teal_expand.
  apply wlp_bind.
  apply (wlp_mid
           (fun _ m' =>
              submitted m' = []
              /\ forall v,
                   match v with
                   | latest_time
                   | cumsum_time_weighted_asset1_to_asset2_price
                   | cumsum_time_weighted_asset2_to_asset1_price => True
                   | _ => globals m' v = g v
                   end)).
  - wlp_run.
    all: teal_state; split; [reflexivity|].
    all: intros v; destruct v; exact I || reflexivity.
  - intros _ [g1 s1 o1] [Ho1 Hg1]. cbn [globals scratch submitted] in *.
    subst o1.
    pose proof (Hg1 balance_1) as Hk1.
    pose proof (Hg1 balance_2) as Hk2.
    pose proof (Hg1 asset1_id) as Hk3.
    pose proof (Hg1 asset2_id) as Hk4.
    pose proof (Hg1 swap_fee_pct_scaled_var) as Hk5.
    cbv iota in Hk1, Hk2, Hk3, Hk4, Hk5.
    clear Hg1.
    wlp_run.
    all: avm_facts; subst.
    all: match goal with
         | H1 : txn_at _ (_ - 1) = Some ?a,
           H2 : manager_reserve_factor _ = Some ?b |- _ => exists a, b
         end.
    all: unfold swap_input, swap_input_is_asset1, asset1_to.
    all: cbv zeta.
    all: repeat (decide_eqb; cbn [orb]).
    all: split_all; try assumption; try reflexivity; try lia.
Qed.

(** C4: an accepted [swap_exact_for] on the constant-product pool charges
    [fee = floor(input * swap_fee / 1e6) + 1] on the input and sends
    [floor(balance_other * input_less_fee / (balance_in + input_less_fee))]
    of the other asset, on the balances before the trade.  On balances
    (1_000_000, 1_000_000) with swap fee 2500, an input of 1000 of asset 1
    has fee 3, input less fee 997, and sends 996 of asset 2. *)
Theorem swap_exact_for_quote :
  (forall env g g' out this name,
      txn_at env (group_index env) = Some this ->
      nth_error (application_args this) 0 = Some name ->
      name <> AlgofiAMMPoolStrings.swap_for_exact ->
      call (on_swap env AlgofiAMMPool) g = Some (g', out) ->
      exists t_in,
        txn_at env (group_index env - 1) = Some t_in
        /\ let input := swap_input t_in in
           let fee := input * g swap_fee_pct_scaled_var / 1000000 + 1 in
           let input_less_fee := input - fee in
           if swap_input_is_asset1 g t_in
           then out = [AssetTransferTo
                         (g asset2_id)
                         (g balance_2 * input_less_fee
                          / (g balance_1 + input_less_fee))
                         (sender this)]
           else out = [asset1_to
                         g (sender this)
                         (g balance_1 * input_less_fee
                          / (g balance_2 + input_less_fee))])
  /\ option_map (fun r => (scratch (snd r) swap_fee_store,
                           scratch (snd r) swap_input_amount_less_fees_store,
                           scratch (snd r) swap_output_amount_store,
                           submitted (snd r)))
                (on_swap Scenario.swap_env AlgofiAMMPool
                         (fresh (Scenario.seeded_pool
                                   1000000 1000000 1000000)))
     = Some (3, 997, 996, [AssetTransferTo 6 996 Scenario.alice])
  /\ option_map (fun r => (fst r balance_1, fst r balance_2, snd r))
                (call (on_swap Scenario.swap_env AlgofiAMMPool)
                      (Scenario.seeded_pool 1000000 1000000 1000000))
     = Some (1001000, 999004, [AssetTransferTo 6 996 Scenario.alice])
  /\ 1000000 * 997 / (1000000 + 997) = 996.
Proof.
  split; [|repeat split; vm_compute; reflexivity].
  intros env g g' out this name Hthis Hname Hmode Hcall.
  destruct (on_swap_exact_for_spec env g g' out this name
              Hthis Hname Hmode Hcall)
    as (t_in & rf & Hin & Hrf & Hrest).
  exists t_in. split; [exact Hin|].
  cbv zeta in *. change 1000000 with FIXED_6_SCALE_FACTOR.
  destruct Hrest as [_ Hside].
  destruct (swap_input_is_asset1 g t_in); apply Hside.
Qed.

Lemma swap_exact_for_quote_witness :
  exists t_in,
    txn_at Scenario.swap_env (1 - 1) = Some t_in
    /\ let input := swap_input t_in in
       let fee := input * 2500 / 1000000 + 1 in
       let input_less_fee := input - fee in
       if swap_input_is_asset1
            (Scenario.seeded_pool 1000000 1000000 1000000) t_in
       then [AssetTransferTo 6 996 Scenario.alice]
            = [AssetTransferTo
                 6 (1000000 * input_less_fee / (1000000 + input_less_fee))
                 Scenario.alice]
       else [AssetTransferTo 6 996 Scenario.alice]
            = [asset1_to (Scenario.seeded_pool 1000000 1000000 1000000)
                         Scenario.alice
                         (1000000 * input_less_fee
                          / (1000000 + input_less_fee))].
Proof.
  apply (proj1 swap_exact_for_quote
               Scenario.swap_env
               (Scenario.seeded_pool 1000000 1000000 1000000)
               (globals_after (on_swap Scenario.swap_env AlgofiAMMPool)
                              (Scenario.seeded_pool 1000000 1000000 1000000))
               [AssetTransferTo 6 996 Scenario.alice]
               (Scenario.app_call [AlgofiAMMPoolStrings.swap_exact_for;
                                   AVM.itob 1])
               AlgofiAMMPoolStrings.swap_exact_for).
  - reflexivity.
  - reflexivity.
  - discriminate.
  - vm_compute. reflexivity.
Defined.


(** ** The amplification ramp *)

(** C8: [on_ramp_amplification_factor] is accepted only from the admin, with
    [future_time >= now + param_update_delay] and
    [0 < future_A < 400_000_000]; it then stores the currently interpolated
    factor as the initial one, the current time as its time, and the two
    arguments as the future factor and time, and changes nothing else.  A
    rejected call leaves the globals as they were. *)
Theorem ramp_amplification_factor_guarded env g :
  (forall g' out,
      call (on_ramp_amplification_factor env) g = Some (g', out) ->
      exists this A_arg time_arg future_A future_time A_now,
        txn_at env (group_index env) = Some this
        /\ sender this = g admin
        /\ nth_error (application_args this) 1 = Some A_arg
        /\ AVM.btoi A_arg = Some future_A
        /\ nth_error (application_args this) 2 = Some time_arg
        /\ AVM.btoi time_arg = Some future_time
        /\ latest_timestamp env + g param_update_delay <= future_time
        /\ 0 < future_A < 400000000
        /\ interpolate_amplification_factor
             env (g initial_amplification_factor)
             (g future_amplification_factor)
             (g initial_amplification_factor_time)
             (g future_amplification_factor_time)
           = Some A_now
        /\ out = []
        /\ forall v,
             g' v = match v with
                    | initial_amplification_factor => A_now
                    | future_amplification_factor => future_A
                    | initial_amplification_factor_time =>
                        latest_timestamp env
                    | future_amplification_factor_time => future_time
                    | _ => g v
                    end)
  /\ (call (on_ramp_amplification_factor env) g = None ->
      globals_after (on_ramp_amplification_factor env) g = g).
Proof.
  split.
  - intros g' out.
    apply (call_wlp _ _ _ _ (fun g' out => _)).
    unfold on_ramp_amplification_factor, get_amplification_factor.
    teal_expand. wlp_run.
    avm_facts; subst.
    match goal with
    | H1 : txn_at _ _ = Some ?t,
      H2 : nth_error _ 1 = Some ?a, H3 : nth_error _ 2 = Some ?b,
      H4 : AVM.btoi ?a = Some ?fa, H5 : AVM.btoi ?b = Some ?ft,
      H6 : interpolate_amplification_factor _ _ _ _ _ = Some ?A |- _ =>
        exists t, a, b, fa, ft, A
    end.
    unfold MAX_AMPLIFICATION_FACTOR in *.
    split_all; try assumption; try reflexivity; try lia.
    intros v; destruct v; reflexivity.
  - intros Hnone. unfold globals_after. rewrite Hnone. reflexivity.
Qed.

Lemma ramp_amplification_factor_guarded_witness :
  exists this A_arg time_arg future_A future_time A_now,
    txn_at Scenario.ramp_env (group_index Scenario.ramp_env) = Some this
    /\ sender this = Scenario.stable_pool admin
    /\ nth_error (application_args this) 1 = Some A_arg
    /\ AVM.btoi A_arg = Some future_A
    /\ nth_error (application_args this) 2 = Some time_arg
    /\ AVM.btoi time_arg = Some future_time
    /\ latest_timestamp Scenario.ramp_env
       + Scenario.stable_pool param_update_delay <= future_time
    /\ 0 < future_A < 400000000
    /\ interpolate_amplification_factor
         Scenario.ramp_env
         (Scenario.stable_pool initial_amplification_factor)
         (Scenario.stable_pool future_amplification_factor)
         (Scenario.stable_pool initial_amplification_factor_time)
         (Scenario.stable_pool future_amplification_factor_time)
       = Some A_now
    /\ @nil InnerTxn = []
    /\ forall v,
         globals_after (on_ramp_amplification_factor Scenario.ramp_env)
                       Scenario.stable_pool v
         = match v with
           | initial_amplification_factor => A_now
           | future_amplification_factor => future_A
           | initial_amplification_factor_time =>
               latest_timestamp Scenario.ramp_env
           | future_amplification_factor_time => future_time
           | _ => Scenario.stable_pool v
           end.
Proof.
  apply (proj1 (ramp_amplification_factor_guarded
                  Scenario.ramp_env Scenario.stable_pool)
               (globals_after (on_ramp_amplification_factor Scenario.ramp_env)
                              Scenario.stable_pool)
               []).
  vm_compute. reflexivity.
Defined.

(** ** First deposit into a stable pool *)

Lemma stable_on_pool_empty_spec env manager_app_id g g' out :
  g balance_1 = 0 -> g balance_2 = 0 ->
  call (on_pool env (AlgofiAMMStablePool env manager_app_id)) g
  = Some (g', out) ->
  exists t1 t2 this A D,
    txn_at env (group_index env - 2) = Some t1
    /\ txn_at env (group_index env - 1) = Some t2
    /\ txn_at env (group_index env) = Some this
    /\ interpolate_amplification_factor
         env (g initial_amplification_factor)
         (g future_amplification_factor)
         (g initial_amplification_factor_time)
         (g future_amplification_factor_time)
       = Some A
    /\ compute_D (deposit_amount1 g t1) (asset_amount t2) A = Some D
    /\ 0 < D
    /\ out = [AssetTransferTo (g lp_id) D (sender this)]
    /\ g' lp_circulation = g lp_circulation + D
    /\ g' balance_1 = deposit_amount1 g t1
    /\ g' balance_2 = asset_amount t2.
Proof.
  intros Hb1 Hb2.
  apply (call_wlp _ _ _ _ (fun g' out => _)).
  unfold on_pool, adjust_pool_input_amounts.
  cbv beta delta [calculate_lp_issuance AlgofiAMMStablePool
                  AlgofiAMMStablePool_calculate_lp_issuance
                  get_amplification_factor op_up].
  teal_indices. teal_expand.
  wlp_run.
  all: avm_facts; subst.
  all: rewrite ?Z.add_0_l in *.
  all: match goal with
       | H1 : txn_at _ (_ - 2) = Some ?a, H2 : txn_at _ (_ - 1) = Some ?b,
         H3 : txn_at _ (group_index _) = Some ?c,
         H4 : interpolate_amplification_factor _ _ _ _ _ = Some ?A,
         H5 : compute_D _ _ _ = Some ?D |- _ => exists a, b, c, A, D
       end.
  all: unfold deposit_amount1.
  all: decide_eqb.
  all: split_all; try assumption; try reflexivity; try lia.
Qed.

(** C10: the LP amount issued for a first deposit [(a1, a2)] into a stable
    pool is [compute_D(a1, a2, A)] at the amplification factor interpolated
    at the time of the call, and it is positive; when that quantity is zero
    the deposit is rejected. *)
Theorem stable_first_deposit_issues_D env manager_app_id g :
  g balance_1 = 0 -> g balance_2 = 0 ->
  (forall g' out,
      call (on_pool env (AlgofiAMMStablePool env manager_app_id)) g
      = Some (g', out) ->
      exists t1 t2 this A D,
        txn_at env (group_index env - 2) = Some t1
        /\ txn_at env (group_index env - 1) = Some t2
        /\ txn_at env (group_index env) = Some this
        /\ interpolate_amplification_factor
             env (g initial_amplification_factor)
             (g future_amplification_factor)
             (g initial_amplification_factor_time)
             (g future_amplification_factor_time)
           = Some A
        /\ compute_D (deposit_amount1 g t1) (asset_amount t2) A = Some D
        /\ 0 < D
        /\ out = [AssetTransferTo (g lp_id) D (sender this)]
        /\ g' lp_circulation = g lp_circulation + D)
  /\ (forall t1 t2 A,
        txn_at env (group_index env - 2) = Some t1 ->
        txn_at env (group_index env - 1) = Some t2 ->
        interpolate_amplification_factor
          env (g initial_amplification_factor)
          (g future_amplification_factor)
          (g initial_amplification_factor_time)
          (g future_amplification_factor_time)
        = Some A ->
        compute_D (deposit_amount1 g t1) (asset_amount t2) A = Some 0 ->
        call (on_pool env (AlgofiAMMStablePool env manager_app_id)) g = None).
Proof.
  intros Hb1 Hb2.
  split.
  - intros g' out Hcall.
    destruct (stable_on_pool_empty_spec env manager_app_id g g' out
                Hb1 Hb2 Hcall)
      as (t1 & t2 & this & A & D & H1 & H2 & H3 & H4 & H5 & H6 & H7 & H8 & _).
    exists t1, t2, this, A, D. auto 10.
  - intros t1 t2 A Ht1 Ht2 HA HD.
    destruct (call (on_pool env (AlgofiAMMStablePool env manager_app_id)) g)
      as [[g' out]|] eqn:Hcall; [|reflexivity].
    destruct (stable_on_pool_empty_spec env manager_app_id g g' out
                Hb1 Hb2 Hcall)
      as (t1' & t2' & this & A' & D & H1 & H2 & H3 & H4 & H5 & H6 & _).
    exfalso.
    rewrite Ht1 in H1. rewrite Ht2 in H2. rewrite HA in H4.
    injection H1 as <-. injection H2 as <-. injection H4 as <-.
    rewrite HD in H5. injection H5 as <-. lia.
Qed.


Lemma stable_first_deposit_issues_D_witness :
  exists t1 t2 this A D,
    txn_at (Scenario.deposit_env 1000000 1000000) (2 - 2) = Some t1
    /\ txn_at (Scenario.deposit_env 1000000 1000000) (2 - 1) = Some t2
    /\ txn_at (Scenario.deposit_env 1000000 1000000) 2 = Some this
    /\ interpolate_amplification_factor
         (Scenario.deposit_env 1000000 1000000)
         (Scenario.stable_pool initial_amplification_factor)
         (Scenario.stable_pool future_amplification_factor)
         (Scenario.stable_pool initial_amplification_factor_time)
         (Scenario.stable_pool future_amplification_factor_time)
       = Some A
    /\ compute_D (deposit_amount1 Scenario.stable_pool t1)
                 (asset_amount t2) A = Some D
    /\ 0 < D
    /\ [AssetTransferTo 9 2000000 Scenario.alice]
       = [AssetTransferTo (Scenario.stable_pool lp_id) D (sender this)]
    /\ globals_after
         (on_pool (Scenario.deposit_env 1000000 1000000)
                  (AlgofiAMMStablePool
                     (Scenario.deposit_env 1000000 1000000) 1000))
         Scenario.stable_pool lp_circulation
       = Scenario.stable_pool lp_circulation + D.
Proof.
  apply (proj1 (stable_first_deposit_issues_D
                  (Scenario.deposit_env 1000000 1000000) 1000
                  Scenario.stable_pool eq_refl eq_refl)
               (globals_after
                  (on_pool (Scenario.deposit_env 1000000 1000000)
                           (AlgofiAMMStablePool
                              (Scenario.deposit_env 1000000 1000000) 1000))
                  Scenario.stable_pool)
               [AssetTransferTo 9 2000000 Scenario.alice]).
  vm_compute. reflexivity.
Defined.

(** ** The StableSwap invariant *)

Lemma operand_ok_iff a :
  AVM.operand_ok a = true <-> 0 <= a < AVM.MAX_BYTES_OPERAND.
Proof.
  unfold AVM.operand_ok. rewrite andb_true_iff, Z.leb_le, Z.ltb_lt. tauto.
Qed.

Lemma D_estimate_calc_operand A AnnS den D D' :
  D_estimate_calc A AnnS den D = Some D' -> AVM.operand_ok D = true.
Proof.
  unfold D_estimate_calc, AVM.bytes_mul at 1.
  destruct (AVM.operand_ok D); [reflexivity|discriminate].
Qed.

Lemma D_converged_close a b :
  AVM.operand_ok a = true -> AVM.operand_ok b = true ->
  D_converged a b = Some (Z.abs (a - b) <=? 1).
Proof.
  intros Ha Hb.
  pose proof (proj1 (operand_ok_iff a) Ha) as Ha'.
  pose proof (proj1 (operand_ok_iff b) Hb) as Hb'.
  assert (H1 : AVM.operand_ok 1 = true) by reflexivity.
  unfold D_converged, AVM.bytes_gt, AVM.bytes_minus, AVM.bytes_le.
  rewrite Ha, Hb. cbn [andb obind].
  destruct (Z.ltb_spec b a) as [Hlt|Hge].
  - destruct (Z.leb_spec b a); [|lia]. cbn [obind].
    assert (Hd : AVM.operand_ok (a - b) = true)
      by (apply operand_ok_iff; lia).
    rewrite Hd, H1. cbn [andb]. rewrite Z.abs_eq by lia. reflexivity.
  - destruct (Z.leb_spec a b); [|lia]. cbn [obind].
    assert (Hd : AVM.operand_ok (b - a) = true)
      by (apply operand_ok_iff; lia).
    rewrite Hd, H1. cbn [andb].
    replace (Z.abs (a - b)) with (b - a) by lia. reflexivity.
Qed.

Lemma D_converged_Some a b c :
  D_converged a b = Some c -> c = (Z.abs (a - b) <=? 1).
Proof.
  intros H.
  destruct (AVM.operand_ok a) eqn:Ha.
  - destruct (AVM.operand_ok b) eqn:Hb.
    + rewrite (D_converged_close a b Ha Hb) in H. congruence.
    + unfold D_converged, AVM.bytes_gt in H. rewrite Ha, Hb in H.
      discriminate.
  - unfold D_converged, AVM.bytes_gt in H. rewrite Ha in H. discriminate.
Qed.

Lemma btoi_num_Some a d : AVM.btoi_num a = Some d -> d = a /\ AVM.uint64 a.
Proof.
  unfold AVM.btoi_num, AVM.uint64.
  destruct (Z.leb_spec 0 a); [|discriminate].
  destruct (Z.leb_spec a AVM.MAX_UINT64); [|discriminate].
  cbn [andb]. intros E. injection E as <-. auto.
Qed.

(** A returning loop returns the first estimate within one of its
    predecessor. *)
Lemma D_loop_Some A AnnS den rounds :
  forall D0 d,
    D_loop A AnnS den rounds D0 = Some d ->
    exists k Dk,
      (k < rounds)%nat
      /\ D_estimate_after A AnnS den k D0 = Some Dk
      /\ D_estimate_after A AnnS den (S k) D0 = Some d
      /\ Z.abs (d - Dk) <= 1
      /\ forall j Dj Dj',
           (j < k)%nat ->
           D_estimate_after A AnnS den j D0 = Some Dj ->
           D_estimate_after A AnnS den (S j) D0 = Some Dj' ->
           1 < Z.abs (Dj' - Dj).
Proof.
  induction rounds as [|r IH]; intros D0 d H; [discriminate|].
  cbn [D_loop] in H.
  apply obind_Some in H. destruct H as (D1 & Hstep & H).
  apply obind_Some in H. destruct H as (done & Hconv & H).
  apply D_converged_Some in Hconv. subst done.
  destruct (Z.leb_spec (Z.abs (D1 - D0)) 1) as [Hclose|Hfar].
  - apply btoi_num_Some in H. destruct H as [-> _].
    exists O, D0. cbn [D_estimate_after]. rewrite Hstep. cbn [obind].
    repeat split; auto; try lia.
  - destruct (IH D1 d H) as (k & Dk & Hk & Hek & Hesk & Hck & Hfirst).
    exists (S k), Dk.
    split; [lia|].
    split; [cbn [D_estimate_after]; rewrite Hstep; exact Hek|].
    split.
    { change (D_estimate_after A AnnS den (S (S k)) D0)
        with (obind (D_estimate_calc A AnnS den D0)
                    (D_estimate_after A AnnS den (S k))).
      rewrite Hstep. exact Hesk. }
    split; [exact Hck|].
    intros j Dj Dj' Hj Hej Hesj.
    change (D_estimate_after A AnnS den (S j) D0)
      with (obind (D_estimate_calc A AnnS den D0)
                  (D_estimate_after A AnnS den j)) in Hesj.
    rewrite Hstep in Hesj. cbn [obind] in Hesj.
    destruct j as [|j'].
    + cbn [D_estimate_after] in Hej, Hesj.
      injection Hej as <-. injection Hesj as <-. exact Hfar.
    + cbn [D_estimate_after] in Hej. rewrite Hstep in Hej.
      cbn [obind] in Hej.
      apply (Hfirst j' Dj Dj'); [lia|exact Hej|exact Hesj].
Qed.

Lemma D_estimate_after_operand A AnnS den k D0 d :
  D_estimate_after A AnnS den (S k) D0 = Some d -> AVM.operand_ok D0 = true.
Proof.
  cbn [D_estimate_after]. intros H.
  apply obind_Some in H. destruct H as (D1 & Hstep & _).
  exact (D_estimate_calc_operand A AnnS den D0 D1 Hstep).
Qed.

Lemma uint64_operand_ok a : AVM.uint64 a -> AVM.operand_ok a = true.
Proof.
  intros [H0 H1]. apply operand_ok_iff. split; [exact H0|].
  assert (AVM.MAX_UINT64 < AVM.MAX_BYTES_OPERAND) by reflexivity. lia.
Qed.

Lemma uint64_product_operand_ok a b :
  AVM.uint64 a -> AVM.uint64 b -> AVM.operand_ok (a * b) = true.
Proof.
  intros [Ha0 Ha1] [Hb0 Hb1]. apply operand_ok_iff. split; [nia|].
  assert (AVM.MAX_UINT64 * AVM.MAX_UINT64 < AVM.MAX_BYTES_OPERAND)
    by reflexivity.
  assert (a * b <= AVM.MAX_UINT64 * AVM.MAX_UINT64)
    by (apply Z.mul_le_mono_nonneg; assumption).
  lia.
Qed.

(** The loop returns the first estimate within one of its predecessor, when
    that estimate fits [uint64]. *)
Lemma D_loop_first A AnnS den rounds :
  forall k D0 Dk d,
    (k < rounds)%nat ->
    D_estimate_after A AnnS den k D0 = Some Dk ->
    D_estimate_after A AnnS den (S k) D0 = Some d ->
    Z.abs (d - Dk) <= 1 ->
    AVM.uint64 d ->
    (forall j Dj Dj',
        (j < k)%nat ->
        D_estimate_after A AnnS den j D0 = Some Dj ->
        D_estimate_after A AnnS den (S j) D0 = Some Dj' ->
        1 < Z.abs (Dj' - Dj)) ->
    D_loop A AnnS den rounds D0 = Some d.
Proof.
  induction rounds as [|r IH]; intros k D0 Dk d Hk Hek Hesk Hclose Hd Hfar;
    [lia|].
  pose proof (D_estimate_after_operand A AnnS den k D0 d Hesk) as HD0.
  change (D_estimate_after A AnnS den (S k) D0)
    with (obind (D_estimate_calc A AnnS den D0)
                (D_estimate_after A AnnS den k)) in Hesk.
  apply obind_Some in Hesk. destruct Hesk as (D1 & Hstep & Hrest).
  cbn [D_loop]. rewrite Hstep. cbn [obind].
  destruct k as [|k'].
  - cbn [D_estimate_after] in Hek, Hrest.
    injection Hek as <-. injection Hrest as ->.
    rewrite (D_converged_close d D0 (uint64_operand_ok d Hd) HD0).
    cbn [obind].
    destruct (Z.leb_spec (Z.abs (d - D0)) 1); [|lia].
    unfold AVM.btoi_num. destruct Hd as [Hd0 Hd1].
    destruct (Z.leb_spec 0 d); [|lia].
    destruct (Z.leb_spec d AVM.MAX_UINT64); [|lia].
    reflexivity.
  - pose proof (D_estimate_after_operand A AnnS den k' D1 d Hrest) as HD1.
    rewrite (D_converged_close D1 D0 HD1 HD0). cbn [obind].
    assert (Hfar0 : 1 < Z.abs (D1 - D0)).
    { apply (Hfar O D0 D1); [lia|reflexivity|].
      cbn [D_estimate_after]. rewrite Hstep. reflexivity. }
    destruct (Z.leb_spec (Z.abs (D1 - D0)) 1); [lia|].
    cbn [D_estimate_after] in Hek. rewrite Hstep in Hek. cbn [obind] in Hek.
    apply (IH k' D1 Dk d); try assumption; [lia|].
    intros j Dj Dj' Hj Hej Hesj.
    apply (Hfar (S j) Dj Dj'); [lia| |].
    + cbn [D_estimate_after]. rewrite Hstep. exact Hej.
    + change (D_estimate_after A AnnS den (S (S j)) D0)
        with (obind (D_estimate_calc A AnnS den D0)
                    (D_estimate_after A AnnS den (S j))).
      rewrite Hstep. exact Hesj.
Qed.

(** Past its first lines [compute_D] is its loop, run from [x + y]. *)
Lemma compute_D_is_loop x y A :
  AVM.uint64 x -> AVM.uint64 y -> AVM.uint64 A ->
  x + y <> 0 ->
  x + y <= AVM.MAX_UINT64 -> A * 4 <= AVM.MAX_UINT64 ->
  compute_D x y A
  = D_loop A (A * 4 * (x + y) / FIXED_6_SCALE_FACTOR) (4 * (y * x))
           255 (x + y).
Proof.
  intros Hx Hy HA Hne Hsum HAnn.
  assert (HS : AVM.uint64 (x + y))
    by (destruct Hx, Hy; split; [lia|assumption]).
  assert (HA4 : AVM.uint64 (A * 4))
    by (destruct HA; split; [lia|assumption]).
  unfold compute_D, Ann_calc, AVM.plus, AVM.times, AVM.bytes_mul,
         AVM.bytes_div.
  change (n_coins ^ n_coins) with 4.
  destruct (Z.leb_spec (x + y) AVM.MAX_UINT64); [|lia]. cbn [obind].
  destruct (Z.eqb_spec (x + y) 0); [contradiction|].
  destruct (Z.leb_spec (A * 4) AVM.MAX_UINT64); [|lia]. cbn [obind].
  rewrite (uint64_operand_ok _ HA4), (uint64_operand_ok _ HS).
  cbn [andb obind].
  rewrite (uint64_product_operand_ok _ _ HA4 HS).
  change (AVM.operand_ok FIXED_6_SCALE_FACTOR) with true.
  change (FIXED_6_SCALE_FACTOR =? 0) with false.
  cbn [andb obind].
  rewrite (uint64_operand_ok _ Hy), (uint64_operand_ok _ Hx).
  cbn [andb obind].
  change (AVM.operand_ok 4) with true.
  rewrite (uint64_product_operand_ok _ _ Hy Hx).
  cbn [andb obind]. reflexivity.
Qed.

Lemma compute_D_Some_bounds x y A d :
  x + y <> 0 -> compute_D x y A = Some d ->
  x + y <= AVM.MAX_UINT64 /\ A * 4 <= AVM.MAX_UINT64.
Proof.
  intros Hne. unfold compute_D, Ann_calc, AVM.plus, AVM.times.
  change (n_coins ^ n_coins) with 4.
  destruct (Z.leb_spec (x + y) AVM.MAX_UINT64); [|discriminate].
  cbn [obind].
  destruct (Z.eqb_spec (x + y) 0); [contradiction|].
  destruct (Z.leb_spec (A * 4) AVM.MAX_UINT64); [|discriminate].
  auto.
Qed.

Lemma bytes_mul_Some a b c : AVM.bytes_mul a b = Some c -> c = a * b.
Proof.
  unfold AVM.bytes_mul.
  destruct (AVM.operand_ok a && AVM.operand_ok b); congruence.
Qed.

Lemma bytes_add_Some a b c : AVM.bytes_add a b = Some c -> c = a + b.
Proof.
  unfold AVM.bytes_add.
  destruct (AVM.operand_ok a && AVM.operand_ok b); congruence.
Qed.

Lemma bytes_div_Some a b c : AVM.bytes_div a b = Some c -> c = a / b.
Proof.
  unfold AVM.bytes_div.
  destruct (AVM.operand_ok a && AVM.operand_ok b); [|discriminate].
  destruct (b =? 0); congruence.
Qed.

(** A round that does not panic computes [D_next]. *)
Lemma D_estimate_calc_next x y A D D' :
  D_estimate_calc A (A * 4 * (x + y) / FIXED_6_SCALE_FACTOR) (4 * (y * x)) D
  = Some D' ->
  D' = D_next x y A D.
Proof.
  unfold D_estimate_calc, Ann_calc. intros H.
  repeat (apply obind_Some in H; destruct H as (? & ? & H)).
  repeat match goal with
         | E : AVM.bytes_mul _ _ = Some _ |- _ =>
             apply bytes_mul_Some in E
         | E : AVM.bytes_add _ _ = Some _ |- _ =>
             apply bytes_add_Some in E
         | E : AVM.bytes_div _ _ = Some _ |- _ =>
             apply bytes_div_Some in E
         | E : AVM.times _ _ = Some _ |- _ => apply times_Some in E
         | E : AVM.minus _ _ = Some _ |- _ => apply minus_Some in E
         | E : AVM.plus _ _ = Some _ |- _ => apply plus_Some in E
         end.
  repeat match goal with E : _ /\ _ |- _ => destruct E as [E _] end.
  subst. unfold D_next, FIXED_6_SCALE_FACTOR, n_coins.
  change (2 ^ 2) with 4. change (2 + 1) with 3.
  replace (D * (D * D)) with (D * D * D) by ring.
  replace (y * x) with (x * y) by ring.
  f_equal; [f_equal; ring | ring].
Qed.

Lemma mul_bound a b A B :
  0 <= a < A -> 0 <= b < B -> 0 <= a * b < A * B.
Proof.
  intros [Ha0 Ha1] [Hb0 Hb1]. split.
  - apply Z.mul_nonneg_nonneg; assumption.
  - apply Z.mul_lt_mono_nonneg; assumption.
Qed.

Lemma bytes_mul_ok a b :
  0 <= a < AVM.MAX_BYTES_OPERAND -> 0 <= b < AVM.MAX_BYTES_OPERAND ->
  AVM.bytes_mul a b = Some (a * b).
Proof.
  intros Ha Hb. unfold AVM.bytes_mul.
  rewrite (proj2 (operand_ok_iff a) Ha), (proj2 (operand_ok_iff b) Hb).
  reflexivity.
Qed.

Lemma bytes_add_ok a b :
  0 <= a < AVM.MAX_BYTES_OPERAND -> 0 <= b < AVM.MAX_BYTES_OPERAND ->
  AVM.bytes_add a b = Some (a + b).
Proof.
  intros Ha Hb. unfold AVM.bytes_add.
  rewrite (proj2 (operand_ok_iff a) Ha), (proj2 (operand_ok_iff b) Hb).
  reflexivity.
Qed.

Lemma bytes_div_ok a b :
  0 <= a < AVM.MAX_BYTES_OPERAND -> 0 <= b < AVM.MAX_BYTES_OPERAND ->
  b <> 0 ->
  AVM.bytes_div a b = Some (a / b).
Proof.
  intros Ha Hb Hne. unfold AVM.bytes_div.
  rewrite (proj2 (operand_ok_iff a) Ha), (proj2 (operand_ok_iff b) Hb).
  cbn [andb]. destruct (Z.eqb_spec b 0); [contradiction|reflexivity].
Qed.

(** A round on an estimate that meets [round_runs] does not panic. *)
Lemma D_estimate_calc_runs x y A D :
  AVM.uint64 x -> AVM.uint64 y ->
  round_runs x y A D ->
  D_estimate_calc A (A * 4 * (x + y) / FIXED_6_SCALE_FACTOR) (4 * (y * x)) D
  = Some (D_next x y A D).
Proof.
  intros [Hx0 Hx1] [Hy0 Hy1] (Hxy & [HA0 HA1] & HD & Hden).
  unfold AVM.MAX_UINT64 in *.
  assert (Hprod : 1 <= x * y <= 18446744073709551615 * 18446744073709551615).
  { split; [nia|]. apply Z.mul_le_mono_nonneg; lia. }
  assert (HD2 : 0 <= D * D < 2 ^ 128 * 2 ^ 128) by (apply mul_bound; exact HD).
  assert (HD3 : 0 <= D * D * D < 2 ^ 128 * 2 ^ 128 * 2 ^ 128)
    by (apply mul_bound; assumption).
  set (D_P := D * D * D / (4 * (x * y))) in *.
  assert (HP : 0 <= D_P < 2 ^ 382).
  { split.
    - apply Z.div_pos; lia.
    - apply Z.div_lt_upper_bound; [lia|].
      apply Z.lt_le_trans with (2 ^ 128 * 2 ^ 128 * 2 ^ 128); [lia|].
      apply Z.le_trans with (4 * 2 ^ 382); [vm_compute; discriminate|].
      apply Z.mul_le_mono_nonneg_r; [vm_compute; discriminate|lia]. }
  set (AnnS := A * 4 * (x + y) / 1000000) in *.
  assert (HAnnS : 0 <= AnnS < 2 ^ 130).
  { split.
    - apply Z.div_pos; [|lia]. apply Z.mul_nonneg_nonneg; lia.
    - apply Z.div_lt_upper_bound; [lia|].
      assert (0 <= A * 4 * (x + y) < 2 ^ 64 * 2 ^ 65).
      { apply mul_bound.
        - change (2 ^ 64) with 18446744073709551616. lia.
        - change (2 ^ 65) with 36893488147419103232. lia. }
      apply Z.lt_le_trans with (2 ^ 64 * 2 ^ 65); [lia|].
      vm_compute; discriminate. }
  set (left := (A * 4 - 1000000) * D / 1000000) in *.
  assert (Hscaled : 0 <= (A * 4 - 1000000) * D < 2 ^ 64 * 2 ^ 128).
  { apply mul_bound; [|exact HD].
    change (2 ^ 64) with 18446744073709551616. lia. }
  assert (Hleft : 0 <= left < 2 ^ 64 * 2 ^ 128).
  { split.
    - apply Z.div_pos; lia.
    - apply Z.le_lt_trans with ((A * 4 - 1000000) * D); [|lia].
      apply Z.div_le_upper_bound; lia. }
  assert (Hsum : 0 <= AnnS + 2 * D_P < 2 ^ 384).
  { split; [lia|].
    apply Z.lt_le_trans with (2 ^ 130 + 2 * 2 ^ 382); [lia|].
    vm_compute; discriminate. }
  assert (Hnum : 0 <= (AnnS + 2 * D_P) * D < 2 ^ 384 * 2 ^ 128)
    by (apply mul_bound; assumption).
  assert (Hfour : 0 <= 4 * (x * y) < 2 ^ 132) by lia.
  unfold D_estimate_calc, Ann_calc, FIXED_6_SCALE_FACTOR, n_coins.
  change (2 ^ 2) with 4.
  rewrite (bytes_mul_ok D D) by (unfold AVM.MAX_BYTES_OPERAND; lia).
  cbn [obind].
  rewrite (bytes_mul_ok D (D * D)) by (unfold AVM.MAX_BYTES_OPERAND; lia).
  cbn [obind].
  replace (D * (D * D)) with (D * D * D) by ring.
  replace (y * x) with (x * y) by ring.
  rewrite (bytes_div_ok (D * D * D) (4 * (x * y)))
    by (unfold AVM.MAX_BYTES_OPERAND; lia).
  cbn [obind]. fold D_P.
  rewrite (bytes_mul_ok D_P 2) by (unfold AVM.MAX_BYTES_OPERAND; lia).
  cbn [obind]. fold AnnS.
  rewrite (bytes_add_ok AnnS (D_P * 2))
    by (unfold AVM.MAX_BYTES_OPERAND; lia).
  cbn [obind].
  replace (AnnS + D_P * 2) with (AnnS + 2 * D_P) by ring.
  rewrite (bytes_mul_ok (AnnS + 2 * D_P) D)
    by (unfold AVM.MAX_BYTES_OPERAND; lia).
  cbn [obind].
  unfold AVM.times, AVM.minus, AVM.MAX_UINT64.
  destruct (Z.leb_spec (A * 4) 18446744073709551615); [|lia].
  cbn [obind].
  destruct (Z.leb_spec 1000000 (A * 4)); [|lia].
  cbn [obind].
  rewrite (bytes_mul_ok (A * 4 - 1000000) D)
    by (unfold AVM.MAX_BYTES_OPERAND; lia).
  cbn [obind].
  rewrite (bytes_div_ok ((A * 4 - 1000000) * D) 1000000)
    by (unfold AVM.MAX_BYTES_OPERAND; lia).
  cbn [obind]. fold left.
  change (AVM.plus 2 1) with (Some 3). cbn [obind].
  rewrite (bytes_mul_ok D_P 3) by (unfold AVM.MAX_BYTES_OPERAND; lia).
  cbn [obind].
  rewrite (bytes_add_ok left (D_P * 3))
    by (unfold AVM.MAX_BYTES_OPERAND; lia).
  cbn [obind].
  replace (left + D_P * 3) with (left + 3 * D_P) by ring.
  rewrite (bytes_div_ok ((AnnS + 2 * D_P) * D) (left + 3 * D_P))
    by (unfold AVM.MAX_BYTES_OPERAND; lia).
  reflexivity.
Qed.

Lemma D_estimate_after_snoc A AnnS den k :
  forall D0,
    D_estimate_after A AnnS den (S k) D0
    = obind (D_estimate_after A AnnS den k D0) (D_estimate_calc A AnnS den).
Proof.
  induction k as [|k IH]; intros D0.
  - cbn [D_estimate_after obind].
    destruct (D_estimate_calc A AnnS den D0); reflexivity.
  - change (D_estimate_after A AnnS den (S (S k)) D0)
      with (obind (D_estimate_calc A AnnS den D0)
                  (D_estimate_after A AnnS den (S k))).
    change (D_estimate_after A AnnS den (S k) D0)
      with (obind (D_estimate_calc A AnnS den D0)
                  (D_estimate_after A AnnS den k)).
    destruct (D_estimate_calc A AnnS den D0) as [D1|]; [|reflexivity].
    cbn [obind]. apply IH.
Qed.

(** The estimates the code reaches are those of [D_seq]. *)
Lemma D_estimate_is_seq x y A k :
  forall Dk, D_estimate x y A k = Some Dk -> Dk = D_seq x y A k.
Proof.
  unfold D_estimate.
  induction k as [|k IH]; intros Dk H.
  - cbn [D_estimate_after] in H. injection H as <-. reflexivity.
  - rewrite D_estimate_after_snoc in H.
    apply obind_Some in H. destruct H as (D' & Hk & Hstep).
    rewrite (IH D' Hk) in Hstep.
    cbn [D_seq]. exact (D_estimate_calc_next x y A _ _ Hstep).
Qed.

Lemma D_estimate_prefix x y A k Dk :
  D_estimate x y A k = Some Dk ->
  forall j, (j <= k)%nat -> D_estimate x y A j = Some (D_seq x y A j).
Proof.
  revert Dk. induction k as [|k IH]; intros Dk H j Hj.
  - assert (j = O) by lia. subst j.
    rewrite H. f_equal. exact (D_estimate_is_seq x y A O Dk H).
  - destruct (Nat.eq_dec j (S k)) as [->|Hne].
    + rewrite H. f_equal. exact (D_estimate_is_seq x y A (S k) Dk H).
    + unfold D_estimate in H. rewrite D_estimate_after_snoc in H.
      apply obind_Some in H. destruct H as (D' & Hk & _).
      apply (IH D' Hk). lia.
Qed.

(** The code reaches the estimates of [D_seq] as long as no round
    panics. *)
Lemma D_estimate_runs x y A k :
  AVM.uint64 x -> AVM.uint64 y ->
  (forall j, (j < k)%nat -> round_runs x y A (D_seq x y A j)) ->
  D_estimate x y A k = Some (D_seq x y A k).
Proof.
  intros Hx Hy. unfold D_estimate.
  induction k as [|k IH]; intros Hruns.
  - reflexivity.
  - rewrite D_estimate_after_snoc.
    rewrite IH by (intros j Hj; apply Hruns; lia).
    cbn [obind D_seq].
    apply (D_estimate_calc_runs x y A _ Hx Hy). apply Hruns. lia.
Qed.

(** C7: [compute_D(x, y, A)] returns 0 when [x + y = 0].  Otherwise the
    estimates start at [D_0 = x + y] and follow the Newton-like update
    [D_(k+1) = D_next D_k], in integer arithmetic.  A returned value is the
    estimate [D_(k+1)] of the first round [k < 255] with
    [|D_(k+1) - D_k| <= 1]; when no round within the 255 reaches that
    tolerance the subroutine fails; and when round [k < 255] is the first
    to reach it and no round up to it panics, [D_(k+1)] is returned (it is
    converted to [uint64] on return). *)
Theorem compute_D_iteration x y A :
  AVM.uint64 x -> AVM.uint64 y -> AVM.uint64 A ->
  (x + y = 0 -> compute_D x y A = Some 0)
  /\ D_seq x y A 0 = x + y
  /\ (x + y <> 0 ->
      forall d,
        compute_D x y A = Some d ->
        exists k,
          (k < 255)%nat
          /\ d = D_seq x y A (S k)
          /\ Z.abs (D_seq x y A (S k) - D_seq x y A k) <= 1
          /\ forall j,
               (j < k)%nat ->
               1 < Z.abs (D_seq x y A (S j) - D_seq x y A j))
  /\ (x + y <> 0 ->
      (forall k,
          (k < 255)%nat ->
          1 < Z.abs (D_seq x y A (S k) - D_seq x y A k)) ->
      compute_D x y A = None)
  /\ (x + y <= AVM.MAX_UINT64 ->
      forall k,
        (k < 255)%nat ->
        (forall j, (j <= k)%nat -> round_runs x y A (D_seq x y A j)) ->
        Z.abs (D_seq x y A (S k) - D_seq x y A k) <= 1 ->
        AVM.uint64 (D_seq x y A (S k)) ->
        (forall j,
            (j < k)%nat ->
            1 < Z.abs (D_seq x y A (S j) - D_seq x y A j)) ->
        compute_D x y A = Some (D_seq x y A (S k))).
Proof.
  intros Hx Hy HA.
  assert (Hreturned :
            x + y <> 0 ->
            forall d,
              compute_D x y A = Some d ->
              exists k,
                (k < 255)%nat
                /\ d = D_seq x y A (S k)
                /\ Z.abs (D_seq x y A (S k) - D_seq x y A k) <= 1
                /\ forall j,
                     (j < k)%nat ->
                     1 < Z.abs (D_seq x y A (S j) - D_seq x y A j)).
  { intros Hne d Hd.
    destruct (compute_D_Some_bounds x y A d Hne Hd) as [Hsum HAnn].
    rewrite (compute_D_is_loop x y A Hx Hy HA Hne Hsum HAnn) in Hd.
    destruct (D_loop_Some _ _ _ _ _ _ Hd)
      as (k & Dk & Hk & Hek & Hesk & Hclose & Hfar).
    fold (D_estimate x y A k) in Hek.
    fold (D_estimate x y A (S k)) in Hesk.
    pose proof (D_estimate_is_seq x y A k Dk Hek) as ->.
    pose proof (D_estimate_is_seq x y A (S k) d Hesk) as Hd'.
    exists k. split; [exact Hk|]. split; [exact Hd'|].
    split; [rewrite <- Hd'; exact Hclose|].
    intros j Hj.
    apply (Hfar j (D_seq x y A j) (D_seq x y A (S j)) Hj).
    - change (D_estimate x y A j = Some (D_seq x y A j)).
      apply (D_estimate_prefix x y A k _ Hek). lia.
    - change (D_estimate x y A (S j) = Some (D_seq x y A (S j))).
      apply (D_estimate_prefix x y A k _ Hek). lia. }
  split.
  { intros Hzero. unfold compute_D, AVM.plus. rewrite Hzero. reflexivity. }
  split; [reflexivity|].
  split; [exact Hreturned|].
  split.
  { intros Hne Hfar.
    destruct (compute_D x y A) as [d|] eqn:Hd; [|reflexivity].
    destruct (Hreturned Hne d eq_refl) as (k & Hk & _ & Hclose & _).
    specialize (Hfar k Hk). lia. }
  intros Hsum k Hk Hruns Hclose Hd Hfar.
  destruct (Hruns O (Nat.le_0_l k)) as (Hxy & [_ HAnn] & _).
  assert (Hne : x + y <> 0) by (destruct Hx, Hy; nia).
  rewrite (compute_D_is_loop x y A Hx Hy HA Hne Hsum HAnn).
  assert (Hest : forall j, (j <= S k)%nat ->
                           D_estimate x y A j = Some (D_seq x y A j)).
  { intros j Hj. apply (D_estimate_runs x y A j Hx Hy).
    intros i Hi. apply Hruns. lia. }
  apply (D_loop_first _ _ _ _ k _ (D_seq x y A k) (D_seq x y A (S k)) Hk).
  - change (D_estimate x y A k = Some (D_seq x y A k)).
    apply (Hest k). lia.
  - change (D_estimate x y A (S k) = Some (D_seq x y A (S k))).
    apply (Hest (S k)). lia.
  - exact Hclose.
  - exact Hd.
  - intros j Dj Dj' Hj Hej Hesj.
    fold (D_estimate x y A j) in Hej.
    fold (D_estimate x y A (S j)) in Hesj.
    rewrite (D_estimate_is_seq x y A j Dj Hej).
    rewrite (D_estimate_is_seq x y A (S j) Dj' Hesj).
    exact (Hfar j Hj).
Qed.

Lemma compute_D_iteration_witness :
  map (D_seq 1000000 9000000 1000000) [0; 1; 2; 3; 4; 5]%nat
  = [10000000; 8431372; 8213613; 8209783; 8209781; 8209781]
  /\ compute_D 1000000 9000000 1000000
     = Some (D_seq 1000000 9000000 1000000 5).
Proof.
  assert (H1 : AVM.uint64 1000000)
    by (unfold AVM.uint64, AVM.MAX_UINT64; lia).
  assert (H9 : AVM.uint64 9000000)
    by (unfold AVM.uint64, AVM.MAX_UINT64; lia).
  split; [vm_compute; reflexivity|].
  apply (proj2 (proj2 (proj2 (proj2 (compute_D_iteration
                                       1000000 9000000 1000000
                                       H1 H9 H1))))).
  - vm_compute. discriminate.
  - repeat constructor.
  - intros j Hj.
    assert (Hcases : (j = 0 \/ j = 1 \/ j = 2 \/ j = 3 \/ j = 4)%nat) by lia.
    destruct Hcases as [-> | [-> | [-> | [-> | ->]]]];
      (unfold round_runs; repeat split; vm_compute;
       try reflexivity; discriminate).
  - vm_compute. discriminate.
  - vm_compute. split; discriminate.
  - intros j Hj.
    assert (Hcases : (j = 0 \/ j = 1 \/ j = 2 \/ j = 3)%nat) by lia.
    destruct Hcases as [-> | [-> | [-> | ->]]]; vm_compute; reflexivity.
Defined.

(** * Further properties of the pool contracts *)

(** ** More rules of the program logic *)

(** A fact that does not depend on the machine holds after any program. *)
Lemma wlp_const {A} (e : M A) m (P : Prop) :
  P -> wlp e m (fun _ _ => P).
Proof. intros H. unfold wlp. destruct (e m) as [[? ?]|]; [exact H|exact I]. Qed.

(** A program whose first part always panics. *)
Lemma wlp_bind_panics {A B} (e : M A) (k : A -> M B) m
    (Q : B -> Machine -> Prop) :
  wlp e m (fun _ _ => False) -> wlp (bind e k) m Q.
Proof.
  intros H. apply (wlp_mid (fun _ _ => False)); [exact H|].
  intros a m' F. destruct F.
Qed.

Lemma call_none_wlp (program : Expr) (g : Globals) :
  wlp program (fresh g) (fun _ _ => False) -> call program g = None.
Proof.
  unfold call, wlp. destruct (program (fresh g)) as [[r m]|]; [|reflexivity].
  intros F. destruct F.
Qed.

(** An accepted call together with the scratch space it leaves. *)
Lemma call_scratch_wlp (program : Expr) (g g' : Globals) (s : Scratch)
    (out : list InnerTxn) (P : Globals -> Scratch -> list InnerTxn -> Prop) :
  wlp program (fresh g)
      (fun _ m => P (globals m) (scratch m) (submitted m)) ->
  call program g = Some (g', out) ->
  scratch_after program g = Some s -> P g' s out.
Proof.
  unfold call, scratch_after, wlp.
  destruct (program (fresh g)) as [[r m]|]; [|discriminate].
  intros H. destruct (truthy r); [|discriminate].
  intros E E'. injection E as <- <-. injection E' as <-. exact H.
Qed.

Lemma call_leaves_scratch (program : Expr) (g g' : Globals)
    (out : list InnerTxn) :
  call program g = Some (g', out) ->
  exists s, scratch_after program g = Some s.
Proof.
  unfold call, scratch_after.
  destruct (program (fresh g)) as [[r m]|]; [|discriminate].
  destruct (truthy r); [|discriminate].
  intros _. eauto.
Qed.

(** [btoi] returns a natural number. *)
Lemma bytes_value_nonneg s : 0 <= AVM.bytes_value s.
Proof.
  unfold AVM.bytes_value.
  assert (H : forall l acc, 0 <= acc ->
            0 <= fold_left (fun acc c => acc * 256 + Z.of_nat (nat_of_ascii c))
                           l acc).
  { induction l as [|c l IH]; intros acc Hacc; cbn [fold_left]; [exact Hacc|].
    apply IH. lia. }
  apply H. lia.
Qed.

Lemma btoi_nonneg s v : AVM.btoi s = Some v -> 0 <= v.
Proof.
  unfold AVM.btoi. destruct (String.length s <=? 8)%nat; [|discriminate].
  intros E. injection E as <-. apply bytes_value_nonneg.
Qed.

(** Unfolding the methods of the two pools, and the residual handlers. *)
Ltac teal_methods :=
  cbv beta delta [swap_exact_asset1_for swap_exact_asset2_for
                  swap_for_exact_asset1_amount swap_for_exact_asset2_amount
                  calculate_lp_issuance
                  AlgofiAMMPool
                  AlgofiAMMPool_swap_exact_asset1_for
                  AlgofiAMMPool_swap_exact_asset2_for
                  AlgofiAMMPool_swap_for_exact_asset1_amount
                  AlgofiAMMPool_swap_for_exact_asset2_amount
                  AlgofiAMMPool_calculate_lp_issuance
                  AlgofiAMMStablePool
                  AlgofiAMMStablePool_swap_exact_asset1_for
                  AlgofiAMMStablePool_swap_exact_asset2_for
                  AlgofiAMMStablePool_swap_for_exact_asset1_amount
                  AlgofiAMMStablePool_swap_for_exact_asset2_amount
                  AlgofiAMMStablePool_calculate_lp_issuance
                  get_amplification_factor
                  convert_asset1_to_lp convert_asset2_to_lp
                  convert_lp_to_asset1 convert_lp_to_asset2].

Ltac teal_residuals :=
  cbv beta delta [on_redeem_pool_asset1_residual
                  on_redeem_pool_asset2_residual on_redeem_swap_residual
                  redeem_residual ImportScratchValue
                  REDEEM_POOL_ASSET1_RESIDUAL__POOL_IDX
                  REDEEM_POOL_ASSET2_RESIDUAL__POOL_IDX
                  REDEEM_SWAP_RESIDUAL__SWAP_IDX].

(** Names that a successful comparison has identified. *)
Ltac same_names :=
  repeat match goal with
         | H : String.eqb _ _ = true |- _ => apply String.eqb_eq in H; subst
         | H : String.eqb ?a ?a = false |- _ =>
             rewrite String.eqb_refl in H; discriminate H
         end.

(** Decide the integer tests of the goal, dropping impossible cases. *)
Ltac decide_tests :=
  repeat first
    [ progress cbn [fst snd app orb]
    | match goal with
      | |- context [if ?a =? ?b then _ else _] =>
          destruct (Z.eqb_spec a b); try (exfalso; lia)
      | |- context [if ?a <? ?b then _ else _] =>
          destruct (Z.ltb_spec a b); try (exfalso; lia)
      end ].

(** A postcondition that holds of every outcome. *)
Lemma wlp_anyway {A} (e : M A) m (Q : A -> Machine -> Prop) :
  (forall a m', Q a m') -> wlp e m Q.
Proof. intros H. unfold wlp. destruct (e m) as [[? ?]|]; [apply H|exact I]. Qed.


(** ** The administrator's operations *)

Lemma on_remove_reserves_spec env g g' out :
  call (on_remove_reserves env) g = Some (g', out) ->
  exists this,
    txn_at env (group_index env) = Some this
    /\ sender this = g admin
    /\ out = [asset1_to g (sender this) (g asset1_reserve);
              AssetTransferTo (g asset2_id) (g asset2_reserve) (sender this)]
    /\ forall v, g' v = match v with
                        | asset1_reserve => 0
                        | asset2_reserve => 0
                        | _ => g v
                        end.
Proof.
  apply (call_wlp _ _ _ _ (fun g' out => _)).
  unfold on_remove_reserves. teal_expand. wlp_run.
  all: avm_facts; subst.
  all: match goal with
       | H : txn_at _ _ = Some ?t |- _ => exists t
       end.
  all: unfold asset1_to.
  all: decide_eqb.
  all: split_all; try assumption; try reflexivity; try lia; try congruence.
  all: intros v; destruct v; reflexivity.
Qed.

(** X1.  [on_remove_reserves] is accepted only from the administrator.  It sends
    the caller the whole asset-1 reserve and the whole asset-2 reserve, zero
    amounts included, sets the two reserve counters to zero and leaves every
    other global, the pool balances among them, as it was.  A call from any
    other sender is rejected. *)
Theorem remove_reserves_pays_reserves_only env g :
  (forall g' out,
      call (on_remove_reserves env) g = Some (g', out) ->
      exists this,
        txn_at env (group_index env) = Some this
        /\ sender this = g admin
        /\ out = [asset1_to g (sender this) (g asset1_reserve);
                  AssetTransferTo (g asset2_id) (g asset2_reserve)
                                  (sender this)]
        /\ g' asset1_reserve = 0
        /\ g' asset2_reserve = 0
        /\ forall v, v <> asset1_reserve -> v <> asset2_reserve ->
                     g' v = g v)
  /\ (forall this,
        txn_at env (group_index env) = Some this ->
        sender this <> g admin ->
        call (on_remove_reserves env) g = None).
Proof.
  split.
  - intros g' out Hcall.
    destruct (on_remove_reserves_spec env g g' out Hcall)
      as (this & Hthis & Hadmin & Hout & Hg').
    exists this. split_all; try assumption.
    + apply (Hg' asset1_reserve).
    + apply (Hg' asset2_reserve).
    + intros v H1 H2. rewrite (Hg' v). destruct v; congruence.
  - intros this Hthis Hsender.
    destruct (call (on_remove_reserves env) g) as [[g' out]|] eqn:Hcall;
      [|reflexivity].
    destruct (on_remove_reserves_spec env g g' out Hcall)
      as (this' & Hthis' & Hadmin & _).
    congruence.
Qed.

Lemma remove_reserves_pays_reserves_only_witness :
  exists this,
    txn_at (Cases.admin_env 600 ["remove_reserves"%string]) 0 = Some this
    /\ sender this = Cases.pool_with_reserves admin
    /\ [AssetTransferTo 5 10 Scenario.manager_admin_address;
        AssetTransferTo 6 20 Scenario.manager_admin_address]
       = [asset1_to Cases.pool_with_reserves (sender this) 10;
          AssetTransferTo 6 20 (sender this)]
    /\ globals_after
         (on_remove_reserves (Cases.admin_env 600 ["remove_reserves"%string]))
         Cases.pool_with_reserves asset1_reserve = 0
    /\ globals_after
         (on_remove_reserves (Cases.admin_env 600 ["remove_reserves"%string]))
         Cases.pool_with_reserves asset2_reserve = 0
    /\ forall v, v <> asset1_reserve -> v <> asset2_reserve ->
         globals_after
           (on_remove_reserves
              (Cases.admin_env 600 ["remove_reserves"%string]))
           Cases.pool_with_reserves v
         = Cases.pool_with_reserves v.
Proof.
  apply (proj1 (remove_reserves_pays_reserves_only
                  (Cases.admin_env 600 ["remove_reserves"%string])
                  Cases.pool_with_reserves)
               (globals_after
                  (on_remove_reserves
                     (Cases.admin_env 600 ["remove_reserves"%string]))
                  Cases.pool_with_reserves)
               [AssetTransferTo 5 10 Scenario.manager_admin_address;
                AssetTransferTo 6 20 Scenario.manager_admin_address]).
  vm_compute. reflexivity.
Defined.

Lemma on_update_swap_fee_spec env g g' out :
  call (on_update_swap_fee env) g = Some (g', out) ->
  exists this,
    txn_at env (group_index env) = Some this
    /\ sender this = g admin
    /\ 0 < g swap_fee_update_time < latest_timestamp env
    /\ out = []
    /\ forall v, g' v = match v with
                        | swap_fee_pct_scaled_var =>
                            g next_swap_fee_pct_scaled_var
                        | _ => g v
                        end.
Proof.
  apply (call_wlp _ _ _ _ (fun g' out => _)).
  unfold on_update_swap_fee. teal_expand. wlp_run.
  all: avm_facts; subst.
  all: match goal with
       | H : txn_at _ _ = Some ?t |- _ => exists t
       end.
  all: split_all; try assumption; try reflexivity; try lia.
  all: intros v; destruct v; reflexivity.
Qed.

Lemma on_schedule_swap_fee_update_spec env g g' out :
  call (on_schedule_swap_fee_update env) g = Some (g', out) ->
  exists this time_arg fee_arg update_time new_fee,
    txn_at env (group_index env) = Some this
    /\ sender this = g admin
    /\ nth_error (application_args this) 1 = Some time_arg
    /\ AVM.btoi time_arg = Some update_time
    /\ nth_error (application_args this) 2 = Some fee_arg
    /\ AVM.btoi fee_arg = Some new_fee
    /\ latest_timestamp env + g param_update_delay <= update_time
    /\ 0 < new_fee < FIXED_6_SCALE_FACTOR
    /\ out = []
    /\ forall v, g' v = match v with
                        | swap_fee_update_time => update_time
                        | next_swap_fee_pct_scaled_var => new_fee
                        | _ => g v
                        end.
Proof.
  apply (call_wlp _ _ _ _ (fun g' out => _)).
  unfold on_schedule_swap_fee_update. teal_expand. wlp_run.
  all: avm_facts; subst.
  all: match goal with
       | H1 : txn_at _ _ = Some ?t,
         H2 : nth_error _ 1 = Some ?a, H3 : nth_error _ 2 = Some ?b,
         H4 : AVM.btoi ?a = Some ?ut, H5 : AVM.btoi ?b = Some ?nf |- _ =>
           exists t, a, b, ut, nf
       end.
  all: split_all; try assumption; try reflexivity; try lia.
  all: intros v; destruct v; reflexivity.
Qed.

Lemma on_increase_param_delay_spec env g g' out :
  call (on_increase_param_delay env) g = Some (g', out) ->
  exists this delay_arg new_delay,
    txn_at env (group_index env) = Some this
    /\ sender this = g admin
    /\ nth_error (application_args this) 1 = Some delay_arg
    /\ AVM.btoi delay_arg = Some new_delay
    /\ g param_update_delay < new_delay
    /\ out = []
    /\ forall v, g' v = match v with
                        | param_update_delay => new_delay
                        | _ => g v
                        end.
Proof.
  apply (call_wlp _ _ _ _ (fun g' out => _)).
  unfold on_increase_param_delay. teal_expand. wlp_run.
  all: avm_facts; subst.
  all: match goal with
       | H1 : txn_at _ _ = Some ?t,
         H2 : nth_error _ 1 = Some ?a,
         H4 : AVM.btoi ?a = Some ?d |- _ =>
           exists t, a, d
       end.
  all: split_all; try assumption; try reflexivity; try lia.
  all: intros v; destruct v; reflexivity.
Qed.

(** X2.  [on_update_swap_fee], called in a transaction [this], is accepted
    exactly when [this] is sent by the administrator, a fee change has been
    scheduled ([swap_fee_update_time > 0]) and the current time is strictly
    after the scheduled time.  It then copies the pending fee into
    [swap_fee_pct_scaled_var] and changes nothing else: the schedule itself
    stays in place. *)
Theorem update_swap_fee_activates_pending env g this :
  txn_at env (group_index env) = Some this ->
  (sender this = g admin
   /\ 0 < g swap_fee_update_time < latest_timestamp env ->
   exists g',
     call (on_update_swap_fee env) g = Some (g', [])
     /\ forall v, g' v = match v with
                         | swap_fee_pct_scaled_var =>
                             g next_swap_fee_pct_scaled_var
                         | _ => g v
                         end)
  /\ (~ (sender this = g admin
         /\ 0 < g swap_fee_update_time < latest_timestamp env) ->
      call (on_update_swap_fee env) g = None).
Proof.
  intros Hthis. split.
  - intros (Hadmin & Hpos & Hlate).
    destruct (call_wp (on_update_swap_fee env) g
                (fun g' out =>
                   out = []
                   /\ forall v, g' v = match v with
                                       | swap_fee_pct_scaled_var =>
                                           g next_swap_fee_pct_scaled_var
                                       | _ => g v
                                       end))
      as (g' & out & Hcall & -> & Hg'); [|exists g'; auto].
    unfold on_update_swap_fee. teal_expand. wp_run.
    split; [reflexivity|]. split; [reflexivity|].
    intros v; destruct v; reflexivity.
  - intros Hnot.
    destruct (call (on_update_swap_fee env) g) as [[g' out]|] eqn:Hcall;
      [|reflexivity].
    destruct (on_update_swap_fee_spec env g g' out Hcall)
      as (this' & Hthis' & Hadmin & Htime & _).
    exfalso. apply Hnot. split; [congruence|exact Htime].
Qed.

Lemma update_swap_fee_activates_pending_witness :
  (exists g',
     call (on_update_swap_fee (Cases.admin_env 600 ["update"%string]))
          Cases.pool_with_pending_fee
     = Some (g', [])
     /\ forall v,
          g' v = match v with
                 | swap_fee_pct_scaled_var =>
                     Cases.pool_with_pending_fee next_swap_fee_pct_scaled_var
                 | _ => Cases.pool_with_pending_fee v
                 end)
  /\ call (on_update_swap_fee (Cases.admin_env 600 ["update"%string]))
          Scenario.initialized_pool
     = None.
Proof.
  split.
  - apply (proj1 (update_swap_fee_activates_pending
                    (Cases.admin_env 600 ["update"%string])
                    Cases.pool_with_pending_fee
                    (Scenario.app_call_from Scenario.manager_admin_address
                                            ["update"%string])
                    eq_refl)).
    vm_compute. repeat split; reflexivity.
  - apply (proj2 (update_swap_fee_activates_pending
                    (Cases.admin_env 600 ["update"%string])
                    Scenario.initialized_pool
                    (Scenario.app_call_from Scenario.manager_admin_address
                                            ["update"%string])
                    eq_refl)).
    intros (_ & H & _). vm_compute in H. discriminate H.
Defined.

(** X3.  A swap fee can only change through the two-step schedule.  When a call
    of [on_schedule_swap_fee_update] at time [t0] has been accepted, and
    [on_update_swap_fee] is later accepted in a state that still carries that
    schedule, the time of the second call is strictly after
    [t0 + param_update_delay] (the delay being the one in force when the
    change was scheduled), and the fee that becomes active is the one that
    was scheduled, which lies strictly between 0 and 1_000_000. *)
Theorem swap_fee_change_waits_for_delay
    env0 env1 g0 g1 g g' out0 out1 :
  call (on_schedule_swap_fee_update env0) g0 = Some (g1, out0) ->
  g swap_fee_update_time = g1 swap_fee_update_time ->
  g next_swap_fee_pct_scaled_var = g1 next_swap_fee_pct_scaled_var ->
  call (on_update_swap_fee env1) g = Some (g', out1) ->
  latest_timestamp env0 + g0 param_update_delay < latest_timestamp env1
  /\ 0 < g' swap_fee_pct_scaled_var < 1000000
  /\ exists this fee_arg,
       txn_at env0 (group_index env0) = Some this
       /\ nth_error (application_args this) 2 = Some fee_arg
       /\ AVM.btoi fee_arg = Some (g' swap_fee_pct_scaled_var).
Proof.
  intros Hsched Ht Hf Hupd.
  destruct (on_schedule_swap_fee_update_spec env0 g0 g1 out0 Hsched)
    as (this & time_arg & fee_arg & update_time & new_fee
        & Hthis & _ & _ & _ & Hfa & Hfee & Hdelay & Hbound & _ & Hg1).
  destruct (on_update_swap_fee_spec env1 g g' out1 Hupd)
    as (this1 & _ & _ & Htime & _ & Hg').
  pose proof (Hg1 swap_fee_update_time) as H1. cbv iota in H1.
  pose proof (Hg1 next_swap_fee_pct_scaled_var) as H2. cbv iota in H2.
  pose proof (Hg' swap_fee_pct_scaled_var) as H3. cbv iota in H3.
  unfold FIXED_6_SCALE_FACTOR in Hbound.
  split; [lia|]. split; [lia|].
  exists this, fee_arg. split_all; try assumption. congruence.
Qed.

Lemma swap_fee_change_waits_for_delay_witness :
  300 + 5 < 600
  /\ 0 < globals_after
           (on_update_swap_fee (Cases.admin_env 600 ["update"%string]))
           Cases.pool_with_pending_fee swap_fee_pct_scaled_var
       < 1000000
  /\ exists this fee_arg,
       txn_at Cases.schedule_env 0 = Some this
       /\ nth_error (application_args this) 2 = Some fee_arg
       /\ AVM.btoi fee_arg
          = Some (globals_after
                    (on_update_swap_fee
                       (Cases.admin_env 600 ["update"%string]))
                    Cases.pool_with_pending_fee swap_fee_pct_scaled_var).
Proof.
  apply (swap_fee_change_waits_for_delay
           Cases.schedule_env (Cases.admin_env 600 ["update"%string])
           Scenario.initialized_pool Cases.pool_with_pending_fee
           Cases.pool_with_pending_fee
           (globals_after
              (on_update_swap_fee (Cases.admin_env 600 ["update"%string]))
              Cases.pool_with_pending_fee)
           [] []).
  - vm_compute. reflexivity.
  - reflexivity.
  - reflexivity.
  - vm_compute. reflexivity.
Defined.


(** ** What an operation leaves alone *)

Section Frames.

Context {A B : Type} (K : GlobalVar -> bool).

Lemma frames_ret (a : A) : frames K (ret a).
Proof. intros m a' m' E. injection E as <- <-. intros v _. reflexivity. Qed.

Lemma frames_panic : frames K (@panic A).
Proof. intros m a m' E. discriminate E. Qed.

Lemma frames_reads (f : Machine -> A) : frames K (reads f).
Proof. intros m a' m' E. injection E as <- <-. intros v _. reflexivity. Qed.

Lemma frames_lift_option (o : option A) : frames K (lift_option o).
Proof.
  destruct o as [a|]; [apply frames_ret|apply frames_panic].
Qed.

Lemma frames_bind (e : M A) (k : A -> M B) :
  frames K e -> (forall a, frames K (k a)) -> frames K (bind e k).
Proof.
  intros He Hk m b m''. unfold bind.
  destruct (e m) as [[a m']|] eqn:E; [|discriminate].
  intros E'. intros v Hv.
  rewrite (Hk a m' b m'' E' v Hv). exact (He m a m' E v Hv).
Qed.

End Frames.

Lemma frames_modify K (f : Machine -> Machine) :
  (forall m, unchanged_on K (globals m) (globals (f m))) ->
  frames K (modify f).
Proof.
  intros H m a m' E. injection E as _ <-. apply H.
Qed.

Lemma frames_op_up K (fee_budget op_farm_app_id : Expr) :
  frames K fee_budget -> frames K op_farm_app_id ->
  frames K (op_up fee_budget op_farm_app_id).
Proof.
  intros Hf Ha. unfold op_up.
  apply frames_bind; [exact Hf|intros f].
  apply frames_bind; [exact Ha|intros app].
  induction (Z.to_nat (f / 1000)) as [|n IH]; cbn [repeat Seq].
  - apply frames_ret.
  - apply frames_bind; [|intros _; exact IH].
    apply frames_modify. intros m v _. reflexivity.
Qed.

Lemma call_frames K (program : Expr) g g' out :
  frames K program -> call program g = Some (g', out) ->
  forall v, K v = true -> g' v = g v.
Proof.
  unfold call. intros H.
  destruct (program (fresh g)) as [[r m]|] eqn:E; [|discriminate].
  destruct (truthy r); [|discriminate].
  intros E'. injection E' as <- <-.
  exact (H (fresh g) r m E).
Qed.

(** One rule per construct: the proof follows the syntax of the program and
    visits each statement once, whatever the number of paths. *)
Ltac frames_step :=
  lazymatch goal with
  | |- frames _ (bind _ _) => apply frames_bind; [|intros ?]
  | |- frames _ (ret _) => apply frames_ret
  | |- frames _ panic => apply frames_panic
  | |- frames _ (reads _) => apply frames_reads
  | |- frames _ (lift_option _) => apply frames_lift_option
  | |- frames _ (op_up _ _) => apply frames_op_up
  | |- frames _ (modify _) =>
      apply frames_modify;
      let m := fresh "m" in let v := fresh "v" in let Hv := fresh "Hv" in
      intros m v Hv; destruct v; try discriminate Hv; reflexivity
  | |- frames _ (if ?b then _ else _) => destruct b
  | |- frames _ (match ?o with Some _ => _ | None => _ end) => destruct o
  end.

Ltac frames_run := repeat frames_step.

Ltac each_operation H :=
  cbn [In app] in H;
  repeat match type of H with
         | _ \/ _ => destruct H as [H|H]
         end;
  try contradiction; subst;
  unfold on_pool, on_burn_asset1_out, on_burn_asset2_out, on_swap,
    on_flash_loan, adjust_pool_input_amounts,
    on_remove_reserves, on_update_swap_fee,
    on_schedule_swap_fee_update, on_increase_param_delay,
    on_ramp_amplification_factor;
  teal_methods; teal_residuals; teal_indices; teal_expand.

Lemma user_operations_frame env manager_app_id group_scratch program :
  In program (user_operations env manager_app_id group_scratch) ->
  frames configuration program.
Proof.
  unfold user_operations. intros H. each_operation H.
  all: frames_run.
Qed.

Lemma admin_operations_frame env program :
  In program (admin_operations env) -> frames funds program.
Proof.
  unfold admin_operations. intros H. each_operation H.
  all: frames_run.
Qed.

(** X4.  None of the handlers that an initialized pool offers to every
    caller changes the pool's identity or its parameters: after an accepted
    deposit, residual redemption, burn, swap or flash loan, on either pool,
    the administrator, the initialized flag, the three asset ids, the
    validator index, the manager's id, the swap fee, a scheduled fee change,
    the update delay and the amplification ramp are what they were. *)
Theorem user_operations_keep_configuration
    env manager_app_id group_scratch program g g' out :
  In program (user_operations env manager_app_id group_scratch) ->
  call program g = Some (g', out) ->
  forall v, configuration v = true -> g' v = g v.
Proof.
  intros Hin Hcall.
  exact (call_frames configuration program g g' out
           (user_operations_frame env manager_app_id group_scratch program
                                  Hin)
           Hcall).
Qed.

Lemma user_operations_keep_configuration_witness :
  globals_after (on_swap Scenario.swap_env AlgofiAMMPool)
                (Scenario.seeded_pool 1000000 1000000 1000000)
                swap_fee_pct_scaled_var
  = Scenario.seeded_pool 1000000 1000000 1000000 swap_fee_pct_scaled_var
  /\ globals_after (on_swap Scenario.swap_env AlgofiAMMPool)
                   (Scenario.seeded_pool 1000000 1000000 1000000) admin
     = Scenario.seeded_pool 1000000 1000000 1000000 admin.
Proof.
  assert (Hin : In (on_swap Scenario.swap_env AlgofiAMMPool)
                   (user_operations Scenario.swap_env 1000 (fun _ => None))).
  { unfold user_operations. cbn [In]. tauto. }
  assert (Hcall : call (on_swap Scenario.swap_env AlgofiAMMPool)
                       (Scenario.seeded_pool 1000000 1000000 1000000)
                  = Some (globals_after
                            (on_swap Scenario.swap_env AlgofiAMMPool)
                            (Scenario.seeded_pool 1000000 1000000 1000000),
                          [AssetTransferTo 6 996 Scenario.alice])).
  { vm_compute. reflexivity. }
  split.
  - exact (user_operations_keep_configuration
             Scenario.swap_env 1000 (fun _ => None) _ _ _ _ Hin Hcall
             swap_fee_pct_scaled_var eq_refl).
  - exact (user_operations_keep_configuration
             Scenario.swap_env 1000 (fun _ => None) _ _ _ _ Hin Hcall
             admin eq_refl).
Defined.

(** X5.  No operation of the administrator changes what the liquidity providers
    own: after an accepted [remove_reserves], [update_swap_fee],
    [schedule_swap_fee_update], [increase_param_update_delay] or
    [ramp_amplification_factor], [balance_1], [balance_2] and
    [lp_circulation] are what they were. *)
Theorem admin_operations_keep_funds env program g g' out :
  In program (admin_operations env) ->
  call program g = Some (g', out) ->
  g' balance_1 = g balance_1
  /\ g' balance_2 = g balance_2
  /\ g' lp_circulation = g lp_circulation.
Proof.
  intros Hin Hcall.
  pose proof (call_frames funds program g g' out
                (admin_operations_frame env program Hin) Hcall) as H.
  split_all; apply H; reflexivity.
Qed.

Lemma admin_operations_keep_funds_witness :
  globals_after
    (on_remove_reserves (Cases.admin_env 600 ["remove_reserves"%string]))
    Cases.pool_with_reserves balance_1
  = Cases.pool_with_reserves balance_1
  /\ globals_after
       (on_remove_reserves (Cases.admin_env 600 ["remove_reserves"%string]))
       Cases.pool_with_reserves balance_2
     = Cases.pool_with_reserves balance_2
  /\ globals_after
       (on_remove_reserves (Cases.admin_env 600 ["remove_reserves"%string]))
       Cases.pool_with_reserves lp_circulation
     = Cases.pool_with_reserves lp_circulation.
Proof.
  apply (admin_operations_keep_funds
           (Cases.admin_env 600 ["remove_reserves"%string])
           (on_remove_reserves
              (Cases.admin_env 600 ["remove_reserves"%string]))
           Cases.pool_with_reserves
           (globals_after
              (on_remove_reserves
                 (Cases.admin_env 600 ["remove_reserves"%string]))
              Cases.pool_with_reserves)
           [AssetTransferTo 5 10 Scenario.manager_admin_address;
            AssetTransferTo 6 20 Scenario.manager_admin_address]).
  - unfold admin_operations. cbn [In]. tauto.
  - vm_compute. reflexivity.
Defined.

Lemma other_admin_operations_frame env program :
  In program [ on_remove_reserves env; on_update_swap_fee env;
               on_schedule_swap_fee_update env;
               on_ramp_amplification_factor env ] ->
  frames (fun v => match v with param_update_delay => true | _ => false end)
         program.
Proof.
  intros H. each_operation H.
  all: frames_run.
Qed.

(** X6.  The update delay is a ratchet: none of the handlers of an
    initialized pool, those of every caller and those of the administrator,
    ever lowers [param_update_delay]. *)
Theorem param_update_delay_never_decreases
    env manager_app_id group_scratch program g g' out :
  In program (user_operations env manager_app_id group_scratch
              ++ admin_operations env) ->
  call program g = Some (g', out) ->
  g param_update_delay <= g' param_update_delay.
Proof.
  intros Hin Hcall. apply in_app_or in Hin. destruct Hin as [Hin|Hin].
  - rewrite (call_frames configuration program g g' out
               (user_operations_frame env manager_app_id group_scratch
                                      program Hin)
               Hcall param_update_delay eq_refl).
    lia.
  - unfold admin_operations in Hin. cbn [In] in Hin.
    destruct Hin as [H|[H|[H|[H|[H|[]]]]]].
    4: { subst program.
         destruct (on_increase_param_delay_spec env g g' out Hcall)
           as (this & delay_arg & new_delay & _ & _ & _ & _ & Hlt & _ & Hg').
         rewrite (Hg' param_update_delay). cbv iota. lia. }
    all: rewrite (call_frames _ program g g' out
                    (other_admin_operations_frame env program
                       ltac:(cbn [In]; tauto))
                    Hcall param_update_delay eq_refl).
    all: lia.
Qed.

Lemma param_update_delay_never_decreases_witness :
  Scenario.initialized_pool param_update_delay
  <= globals_after
       (on_increase_param_delay
          (Cases.admin_env 600 ["delay"%string; AVM.itob 60]))
       Scenario.initialized_pool param_update_delay.
Proof.
  apply (param_update_delay_never_decreases
           (Cases.admin_env 600 ["delay"%string; AVM.itob 60])
           1000 (fun _ => None)
           (on_increase_param_delay
              (Cases.admin_env 600 ["delay"%string; AVM.itob 60]))
           Scenario.initialized_pool
           (globals_after
              (on_increase_param_delay
                 (Cases.admin_env 600 ["delay"%string; AVM.itob 60]))
              Scenario.initialized_pool)
           []).
  - apply in_or_app. right. unfold admin_operations. cbn [In]. tauto.
  - vm_compute. reflexivity.
Defined.


(** ** Creation *)

Lemma on_creation_spec env nb nu g g' out :
  call (on_creation env nb nu) g = Some (g', out) ->
  exists this arg0 arg1 arg2 a1 a2 vi adm,
    txn_at env (group_index env) = Some this
    /\ POOL_GLOBAL_NUM_BYTES <= nb
    /\ POOL_GLOBAL_NUM_UINTS <= nu
    /\ manager_admin env = Some adm
    /\ nth_error (application_args this) 0 = Some arg0
    /\ AVM.btoi arg0 = Some a1
    /\ nth_error (application_args this) 1 = Some arg1
    /\ AVM.btoi arg1 = Some a2
    /\ nth_error (application_args this) 2 = Some arg2
    /\ AVM.btoi arg2 = Some vi
    /\ a1 <> 0 /\ a2 <> 0 /\ a1 < a2
    /\ out = []
    /\ forall v, g' v = match v with
                        | admin => adm
                        | asset1_id => a1
                        | asset2_id => a2
                        | validator_index => vi
                        | initialized => 0
                        | _ => g v
                        end.
Proof.
  apply (call_wlp _ _ _ _ (fun g' out => _)).
  unfold on_creation. teal_expand. wlp_run.
  all: avm_facts; subst.
  all: repeat match goal with
       | H : negb _ = true |- _ => apply negb_true_iff in H
       end.
  all: avm_facts.
  all: match goal with
       | H1 : txn_at _ _ = Some ?t,
         H2 : nth_error _ 0 = Some ?a, H3 : nth_error _ 1 = Some ?b,
         H4 : nth_error _ 2 = Some ?c,
         H5 : AVM.btoi ?a = Some ?x, H6 : AVM.btoi ?b = Some ?y,
         H7 : AVM.btoi ?c = Some ?z,
         H8 : manager_admin _ = Some ?d |- _ =>
           exists t, a, b, c, x, y, z, d
       end.
  all: split_all; try assumption; try reflexivity; try lia.
  all: intros v; destruct v; reflexivity.
Qed.

(** X7.  [on_creation] is accepted only when the declared schema has at least 4
    byte slices and 32 integers, the manager's administrator can be read,
    and the two asset ids of the arguments satisfy
    [0 < asset1_id < asset2_id].  The created pool is therefore never
    initialized, its administrator is the manager's, and its second asset is
    never the native coin (id 1).  Creation with asset ids that are not
    strictly increasing is rejected. *)
Theorem creation_orders_the_assets env nb nu g :
  (forall g' out,
      call (on_creation env nb nu) g = Some (g', out) ->
      4 <= nb /\ 32 <= nu
      /\ manager_admin env = Some (g' admin)
      /\ 1 <= g' asset1_id < g' asset2_id
      /\ g' asset2_id <> 1
      /\ g' initialized = 0
      /\ out = [])
  /\ (forall this arg0 arg1 a1 a2,
        txn_at env (group_index env) = Some this ->
        nth_error (application_args this) 0 = Some arg0 ->
        AVM.btoi arg0 = Some a1 ->
        nth_error (application_args this) 1 = Some arg1 ->
        AVM.btoi arg1 = Some a2 ->
        a2 <= a1 ->
        call (on_creation env nb nu) g = None).
Proof.
  split.
  - intros g' out Hcall.
    destruct (on_creation_spec env nb nu g g' out Hcall)
      as (this & arg0 & arg1 & arg2 & a1 & a2 & vi & adm
          & Hthis & Hnb & Hnu & Hadm & H0 & Ha1 & H1 & Ha2 & H2 & Hvi
          & Hz1 & Hz2 & Hlt & Hout & Hg').
    pose proof (btoi_nonneg _ _ Ha1) as Hp1.
    rewrite (Hg' admin), (Hg' asset1_id), (Hg' asset2_id), (Hg' initialized).
    cbv iota.
    unfold POOL_GLOBAL_NUM_BYTES, POOL_GLOBAL_NUM_UINTS in *.
    split_all; try assumption; try reflexivity; lia.
  - intros this arg0 arg1 a1 a2 Hthis H0 Ha1 H1 Ha2 Hle.
    destruct (call (on_creation env nb nu) g) as [[g' out]|] eqn:Hcall;
      [|reflexivity].
    destruct (on_creation_spec env nb nu g g' out Hcall)
      as (this' & arg0' & arg1' & arg2 & a1' & a2' & vi & adm
          & Hthis' & _ & _ & _ & H0' & Ha1' & H1' & Ha2' & _ & _
          & _ & _ & Hlt & _).
    exfalso.
    assert (this' = this) by congruence. subst this'.
    assert (arg0' = arg0) by congruence. subst arg0'.
    assert (arg1' = arg1) by congruence. subst arg1'.
    assert (a1' = a1) by congruence.
    assert (a2' = a2) by congruence.
    lia.
Qed.

Lemma creation_orders_the_assets_witness :
  4 <= 4 /\ 32 <= 32
  /\ manager_admin Cases.creation_env
     = Some (globals_after (on_creation Cases.creation_env 4 32)
                           Cases.blank admin)
  /\ 1 <= globals_after (on_creation Cases.creation_env 4 32)
                        Cases.blank asset1_id
       < globals_after (on_creation Cases.creation_env 4 32)
                       Cases.blank asset2_id
  /\ globals_after (on_creation Cases.creation_env 4 32)
                   Cases.blank asset2_id <> 1
  /\ globals_after (on_creation Cases.creation_env 4 32)
                   Cases.blank initialized = 0
  /\ @nil InnerTxn = [].
Proof.
  apply (proj1 (creation_orders_the_assets Cases.creation_env 4 32
                                           Cases.blank)
               (globals_after (on_creation Cases.creation_env 4 32)
                              Cases.blank)
               []).
  vm_compute. reflexivity.
Defined.

(** X8.  [AlgofiAMMStablePool.on_creation] reads the amplification factor
    from application argument 2, the argument that the inherited creation
    stores as the validator index: an accepted creation of a stable pool
    leaves [future_amplification_factor] and [validator_index] equal, both
    the number that argument spells.  No range is checked at creation: whatever
    number argument 2 spells, zero and [2^64 - 1] included, the creation is
    accepted as soon as the schema, the manager's administrator and the two
    asset ids pass the inherited checks. *)
Theorem stable_creation_reads_one_argument_twice env nb nu g :
  (forall g' out,
      call (AlgofiAMMStablePool_on_creation env nb nu) g = Some (g', out) ->
      exists this arg2 A,
        txn_at env (group_index env) = Some this
        /\ nth_error (application_args this) 2 = Some arg2
        /\ AVM.btoi arg2 = Some A
        /\ g' future_amplification_factor = A
        /\ g' validator_index = A
        /\ 1 <= g' asset1_id < g' asset2_id
        /\ g' initialized = 0)
  /\ (forall this arg0 arg1 arg2 a1 a2 A manager_admin_address,
        txn_at env (group_index env) = Some this ->
        nth_error (application_args this) 0 = Some arg0 ->
        AVM.btoi arg0 = Some a1 ->
        nth_error (application_args this) 1 = Some arg1 ->
        AVM.btoi arg1 = Some a2 ->
        nth_error (application_args this) 2 = Some arg2 ->
        AVM.btoi arg2 = Some A ->
        POOL_GLOBAL_NUM_BYTES <= nb ->
        POOL_GLOBAL_NUM_UINTS <= nu ->
        manager_admin env = Some manager_admin_address ->
        0 < a1 < a2 ->
        exists g',
          call (AlgofiAMMStablePool_on_creation env nb nu) g = Some (g', [])
          /\ g' future_amplification_factor = A
          /\ g' validator_index = A).
Proof.
  split.
  - intros g' out.
    apply (call_wlp _ _ _ _ (fun g' out => _)).
    unfold AlgofiAMMStablePool_on_creation, on_creation. teal_expand. wlp_run.
    all: avm_facts; subst.
    all: repeat match goal with
         | H : negb _ = true |- _ => apply negb_true_iff in H
         end.
    all: avm_facts.
    all: match goal with
         | H1 : txn_at _ _ = Some ?t,
           H4 : nth_error _ 2 = Some ?c,
           H7 : AVM.btoi ?c = Some ?z |- _ =>
             exists t, c, z
         end.
    all: repeat match goal with
         | H : AVM.btoi _ = Some ?a |- _ =>
             lazymatch goal with
             | _ : 0 <= a |- _ => fail
             | _ => pose proof (btoi_nonneg _ _ H)
             end
         end.
    all: split_all; try assumption; try reflexivity; try lia.
  - intros this arg0 arg1 arg2 a1 a2 A adm
           Hthis Harg0 Ha1 Harg1 Ha2 Harg2 HA Hnb Hnu Hadm Hids.
    unfold POOL_GLOBAL_NUM_BYTES in Hnb. unfold POOL_GLOBAL_NUM_UINTS in Hnu.
    destruct (call_wp (AlgofiAMMStablePool_on_creation env nb nu) g
                (fun g' out =>
                   out = []
                   /\ g' future_amplification_factor = A
                   /\ g' validator_index = A))
      as (g' & out & Hcall & -> & Hg'); [|exists g'; auto].
    unfold AlgofiAMMStablePool_on_creation, on_creation. teal_expand.
    assert (E1 : (a1 =? 0) = false) by (apply Z.eqb_neq; lia).
    assert (E2 : (a2 =? 0) = false) by (apply Z.eqb_neq; lia).
    assert (E3 : (a1 <? a2) = true) by (apply Z.ltb_lt; lia).
    rewrite Hadm. wp_run.
    rewrite E1, E2. change (truthy (of_bool (negb false))) with true.
    cbn [andb]. wp_run.
    repeat split; reflexivity.
Qed.

Lemma stable_creation_reads_one_argument_twice_witness :
  (exists this arg2 A,
     txn_at Cases.creation_env 0 = Some this
     /\ nth_error (application_args this) 2 = Some arg2
     /\ AVM.btoi arg2 = Some A
     /\ globals_after
          (AlgofiAMMStablePool_on_creation Cases.creation_env 4 32)
          Cases.blank future_amplification_factor = A
     /\ globals_after
          (AlgofiAMMStablePool_on_creation Cases.creation_env 4 32)
          Cases.blank validator_index = A
     /\ 1 <= globals_after
               (AlgofiAMMStablePool_on_creation Cases.creation_env 4 32)
               Cases.blank asset1_id
          < globals_after
              (AlgofiAMMStablePool_on_creation Cases.creation_env 4 32)
              Cases.blank asset2_id
     /\ globals_after
          (AlgofiAMMStablePool_on_creation Cases.creation_env 4 32)
          Cases.blank initialized = 0)
  /\ (exists g',
        call (AlgofiAMMStablePool_on_creation
                (Scenario.env_at
                   50 [Scenario.app_call
                         [AVM.itob 5; AVM.itob 6;
                          AVM.itob 18446744073709551615]] 0) 4 32)
             Cases.blank
        = Some (g', [])
        /\ g' future_amplification_factor = 18446744073709551615
        /\ g' validator_index = 18446744073709551615).
Proof.
  split.
  - apply (proj1 (stable_creation_reads_one_argument_twice
                    Cases.creation_env 4 32 Cases.blank)
                 (globals_after
                    (AlgofiAMMStablePool_on_creation Cases.creation_env 4 32)
                    Cases.blank)
                 []).
    vm_compute. reflexivity.
  - apply (proj2 (stable_creation_reads_one_argument_twice
                    (Scenario.env_at
                       50 [Scenario.app_call
                             [AVM.itob 5; AVM.itob 6;
                              AVM.itob 18446744073709551615]] 0)
                    4 32 Cases.blank)
                 (Scenario.app_call
                    [AVM.itob 5; AVM.itob 6; AVM.itob 18446744073709551615])
                 (AVM.itob 5) (AVM.itob 6) (AVM.itob 18446744073709551615)
                 5 6 18446744073709551615
                 Scenario.manager_admin_address).
    all: try (vm_compute; reflexivity).
    all: try (vm_compute; discriminate).
    vm_compute. split; reflexivity.
Defined.


(** ** Residuals *)

Ltac residual_finish :=
  avm_facts; subst;
  match goal with
  | H1 : txn_at _ (group_index _) = Some ?a,
    H2 : txn_at _ (_ - _) = Some ?b,
    H3 : _ = Some ?s |- exists (_ : Transaction) (_ : Transaction)
                               (_ : Scratch), _ =>
      exists a, b, s
  end;
  unfold named_call, refund, asset1_to;
  repeat match goal with
         | H : truthy ?x = _ |- context [truthy ?x] => rewrite H
         end;
  same_names;
  decide_tests;
  split_all; try assumption; try reflexivity; try lia.

Lemma on_redeem_pool_asset1_residual_spec env gs g g' out :
  call (on_redeem_pool_asset1_residual env gs) g = Some (g', out) ->
  exists this source s,
    txn_at env (group_index env) = Some this
    /\ txn_at env (group_index env - 1) = Some source
    /\ gs (group_index env - 1) = Some s
    /\ 1 <= group_index env
    /\ named_call env source AlgofiAMMPoolStrings.pool
    /\ out = refund g (sender this) true (s pool_asset1_residual_store)
    /\ g' = g.
Proof.
  apply (call_wlp _ _ _ _ (fun g' out => _)).
  teal_residuals. teal_indices. teal_expand.
  wlp_run.
  all: residual_finish.
Qed.

Lemma on_redeem_pool_asset2_residual_spec env gs g g' out :
  call (on_redeem_pool_asset2_residual env gs) g = Some (g', out) ->
  exists this source s,
    txn_at env (group_index env) = Some this
    /\ txn_at env (group_index env - 2) = Some source
    /\ gs (group_index env - 2) = Some s
    /\ 2 <= group_index env
    /\ named_call env source AlgofiAMMPoolStrings.pool
    /\ out = refund g (sender this) false (s pool_asset2_residual_store)
    /\ g' = g.
Proof.
  apply (call_wlp _ _ _ _ (fun g' out => _)).
  teal_residuals. teal_indices. teal_expand.
  wlp_run.
  all: residual_finish.
Qed.

Lemma on_redeem_swap_residual_spec env gs g g' out :
  call (on_redeem_swap_residual env gs) g = Some (g', out) ->
  exists this source s,
    txn_at env (group_index env) = Some this
    /\ txn_at env (group_index env - 1) = Some source
    /\ gs (group_index env - 1) = Some s
    /\ 1 <= group_index env
    /\ named_call env source AlgofiAMMPoolStrings.swap_for_exact
    /\ out = refund g (sender this)
                    (truthy (s swap_input_is_asset1_store))
                    (s residual_amount_store)
    /\ g' = g.
Proof.
  apply (call_wlp _ _ _ _ (fun g' out => _)).
  teal_residuals. teal_indices. teal_expand.
  wlp_run.
  all: residual_finish.
Qed.

(** X9.  The three residual redemptions pay out what an earlier call of the
    group left in its scratch space, and nothing else.  Each is accepted
    only when the call it imports from (one position back for asset 1 and
    for a swap, two positions back for asset 2) is a NoOp call of this
    application named [pool] (respectively [swap_for_exact]); it sends the
    caller the imported amount, in asset 1 or asset 2 as the redemption
    (respectively the imported flag) says, sends nothing at all when the
    amount is zero, and leaves the global state untouched. *)
Theorem residual_redemptions_pay_the_imported_amount env gs g g' out :
  (call (on_redeem_pool_asset1_residual env gs) g = Some (g', out) ->
   exists this source s,
     txn_at env (group_index env) = Some this
     /\ txn_at env (group_index env - 1) = Some source
     /\ gs (group_index env - 1) = Some s
     /\ named_call env source AlgofiAMMPoolStrings.pool
     /\ out = refund g (sender this) true (s pool_asset1_residual_store)
     /\ g' = g)
  /\ (call (on_redeem_pool_asset2_residual env gs) g = Some (g', out) ->
      exists this source s,
        txn_at env (group_index env) = Some this
        /\ txn_at env (group_index env - 2) = Some source
        /\ gs (group_index env - 2) = Some s
        /\ named_call env source AlgofiAMMPoolStrings.pool
        /\ out = refund g (sender this) false (s pool_asset2_residual_store)
        /\ g' = g)
  /\ (call (on_redeem_swap_residual env gs) g = Some (g', out) ->
      exists this source s,
        txn_at env (group_index env) = Some this
        /\ txn_at env (group_index env - 1) = Some source
        /\ gs (group_index env - 1) = Some s
        /\ named_call env source AlgofiAMMPoolStrings.swap_for_exact
        /\ out = refund g (sender this)
                        (truthy (s swap_input_is_asset1_store))
                        (s residual_amount_store)
        /\ g' = g).
Proof.
  split; [|split]; intros Hcall.
  - destruct (on_redeem_pool_asset1_residual_spec env gs g g' out Hcall)
      as (this & source & s & H1 & H2 & H3 & _ & H4 & H5 & H6).
    exists this, source, s. auto 10.
  - destruct (on_redeem_pool_asset2_residual_spec env gs g g' out Hcall)
      as (this & source & s & H1 & H2 & H3 & _ & H4 & H5 & H6).
    exists this, source, s. auto 10.
  - destruct (on_redeem_swap_residual_spec env gs g g' out Hcall)
      as (this & source & s & H1 & H2 & H3 & _ & H4 & H5 & H6).
    exists this, source, s. auto 10.
Qed.

Lemma residual_redemptions_pay_the_imported_amount_witness :
  exists this source s,
    txn_at (Cases.swap_for_exact_env 2) 2 = Some this
    /\ txn_at (Cases.swap_for_exact_env 2) (2 - 1) = Some source
    /\ Cases.scratch_of
         1 (on_swap (Cases.swap_for_exact_env 1) AlgofiAMMPool)
         (Scenario.seeded_pool 1000000 1000000 1000000) (2 - 1)
       = Some s
    /\ named_call (Cases.swap_for_exact_env 2) source
                  AlgofiAMMPoolStrings.swap_for_exact
    /\ [AssetTransferTo 5 1000 Scenario.alice]
       = refund (globals_after
                   (on_swap (Cases.swap_for_exact_env 1) AlgofiAMMPool)
                   (Scenario.seeded_pool 1000000 1000000 1000000))
                (sender this)
                (truthy (s swap_input_is_asset1_store))
                (s residual_amount_store)
    /\ globals_after
         (on_swap (Cases.swap_for_exact_env 1) AlgofiAMMPool)
         (Scenario.seeded_pool 1000000 1000000 1000000)
       = globals_after
           (on_swap (Cases.swap_for_exact_env 1) AlgofiAMMPool)
           (Scenario.seeded_pool 1000000 1000000 1000000).
Proof.
  apply (proj2 (proj2 (residual_redemptions_pay_the_imported_amount
                         (Cases.swap_for_exact_env 2)
                         (Cases.scratch_of
                            1
                            (on_swap (Cases.swap_for_exact_env 1)
                                     AlgofiAMMPool)
                            (Scenario.seeded_pool 1000000 1000000 1000000))
                         (globals_after
                            (on_swap (Cases.swap_for_exact_env 1)
                                     AlgofiAMMPool)
                            (Scenario.seeded_pool 1000000 1000000 1000000))
                         (globals_after
                            (on_swap (Cases.swap_for_exact_env 1)
                                     AlgofiAMMPool)
                            (Scenario.seeded_pool 1000000 1000000 1000000))
                         [AssetTransferTo 5 1000 Scenario.alice]))).
  vm_compute. reflexivity.
Defined.


(** ** Deposits *)

(** What an accepted deposit into the constant-product pool, empty or not,
    has checked and done, with the residuals it leaves in its scratch
    space. *)
Lemma on_pool_spec env g g' s out :
  call (on_pool env AlgofiAMMPool) g = Some (g', out) ->
  scratch_after (on_pool env AlgofiAMMPool) g = Some s ->
  exists t1 t2 this,
    2 <= group_index env
    /\ txn_at env (group_index env - 2) = Some t1
    /\ txn_at env (group_index env - 1) = Some t2
    /\ txn_at env (group_index env) = Some this
    /\ let a1 := deposit_amount1 g t1 in
       let a2 := asset_amount t2 in
       let k1 := fst (kept_amounts g a1 a2) in
       let k2 := snd (kept_amounts g a1 a2) in
       let minted := issuance g k1 k2 in
       0 < a1 /\ 0 < a2 /\ 0 < minted
       /\ pays_pool env t1 (g asset1_id) a1
       /\ type_enum t2 = TxnType.AssetTransfer
       /\ xfer_asset t2 = g asset2_id
       /\ asset_receiver t2 = current_application_address env
       /\ k1 <= a1 /\ k2 <= a2
       /\ s pool_asset1_residual_store = a1 - k1
       /\ s pool_asset2_residual_store = a2 - k2
       /\ out = [AssetTransferTo (g lp_id) minted (sender this)]
       /\ g' balance_1 = g balance_1 + k1
       /\ g' balance_2 = g balance_2 + k2
       /\ g' lp_circulation = g lp_circulation + minted.
Proof.
  apply (call_scratch_wlp _ _ _ _ _ (fun g' s out => _)).
  unfold on_pool, adjust_pool_input_amounts.
  teal_methods. teal_indices. teal_expand.
  apply wlp_bind.
  apply (wlp_mid
           (fun _ m' =>
              exists t1,
                2 <= group_index env
                /\ txn_at env (group_index env - 2) = Some t1
                /\ 0 < deposit_amount1 g t1
                /\ pays_pool env t1 (g asset1_id) (deposit_amount1 g t1)
                /\ m' = mkMachine
                          g
                          (set_scratch pool_asset1_amount_store
                                       (deposit_amount1 g t1) (fun _ => 0))
                          [])).
  - wlp_run.
    all: avm_facts; subst.
    all: match goal with
         | H1 : txn_at _ (_ - 2) = Some ?a |- _ => exists a
         end.
    all: unfold deposit_amount1, pays_pool.
    all: decide_eqb.
    all: split_all; try assumption; try reflexivity; try lia.
  - intros _ m' (t1 & Hidx & Ht1 & Ha1 & Hpays1 & ->).
    wlp_run.
    all: avm_facts; subst.
    all: match goal with
         | H2 : txn_at _ (_ - 1) = Some ?b,
           H3 : txn_at _ (group_index _) = Some ?c |- _ => exists t1, b, c
         end.
    all: unfold kept_amounts, issuance, first_issuance, AVM.sqrt.
    all: cbv zeta.
    all: unfold FIXED_9_SCALE_FACTOR, FIXED_6_SCALE_FACTOR in *.
    all: decide_tests.
    all: split_all; try assumption; try reflexivity; try lia.
    all: try (f_equal; f_equal; lia).
Qed.

Lemma kept_amounts_one_side g a1 a2 :
  fst (kept_amounts g a1 a2) = a1 \/ snd (kept_amounts g a1 a2) = a2.
Proof.
  unfold kept_amounts. cbv zeta.
  repeat match goal with
         | |- context [if ?c then _ else _] => destruct c
         end;
    cbn [fst snd]; auto.
Qed.

(** X10.  Every unit sent with a deposit is either pooled or handed back.  When
    the deposit and the two redemptions of its group are accepted, the
    amount of asset 1 sent equals the growth of [balance_1] plus the amount
    the first redemption returns, and the same holds for asset 2; at most
    one of the two returned amounts is positive. *)
Theorem deposit_group_accounts_for_every_unit
    env env1 env2 gs g g1 s out g2 out1 g3 out2 :
  call (on_pool env AlgofiAMMPool) g = Some (g1, out) ->
  scratch_after (on_pool env AlgofiAMMPool) g = Some s ->
  gs (group_index env) = Some s ->
  group_index env1 = group_index env + 1 ->
  group_index env2 = group_index env + 2 ->
  call (on_redeem_pool_asset1_residual env1 gs) g1 = Some (g2, out1) ->
  call (on_redeem_pool_asset2_residual env2 gs) g2 = Some (g3, out2) ->
  exists t1 t2 this1 this2 r1 r2,
    txn_at env (group_index env - 2) = Some t1
    /\ txn_at env (group_index env - 1) = Some t2
    /\ txn_at env1 (group_index env1) = Some this1
    /\ txn_at env2 (group_index env2) = Some this2
    /\ pays_pool env t1 (g asset1_id) (deposit_amount1 g t1)
    /\ 0 <= r1 /\ 0 <= r2 /\ (r1 = 0 \/ r2 = 0)
    /\ out1 = refund g (sender this1) true r1
    /\ out2 = refund g (sender this2) false r2
    /\ deposit_amount1 g t1 = (g3 balance_1 - g balance_1) + r1
    /\ asset_amount t2 = (g3 balance_2 - g balance_2) + r2.
Proof.
  intros Hpool Hs Hgs Hi1 Hi2 Hr1 Hr2.
  destruct (on_pool_spec env g g1 s out Hpool Hs)
    as (t1 & t2 & this & Hidx & Ht1 & Ht2 & Hthis & Hrest).
  cbv zeta in Hrest.
  destruct Hrest as (Ha1 & Ha2 & Hminted & Hpays & _ & _ & _ & Hk1 & Hk2
                     & Hs1 & Hs2 & _ & Hb1 & Hb2 & _).
  assert (Hop : In (on_pool env AlgofiAMMPool) (user_operations env 0 gs))
    by (unfold user_operations; cbn [In]; tauto).
  pose proof (call_frames configuration _ g g1 out
                (user_operations_frame env 0 gs _ Hop) Hpool) as Hcfg.
  destruct (on_redeem_pool_asset1_residual_spec env1 gs g1 g2 out1 Hr1)
    as (this1 & src1 & s1 & Hthis1 & _ & Hgs1 & _ & _ & Hout1 & ->).
  destruct (on_redeem_pool_asset2_residual_spec env2 gs g1 g3 out2 Hr2)
    as (this2 & src2 & s2 & Hthis2 & _ & Hgs2 & _ & _ & Hout2 & ->).
  replace (group_index env1 - 1) with (group_index env) in Hgs1 by lia.
  replace (group_index env2 - 2) with (group_index env) in Hgs2 by lia.
  assert (s1 = s) by congruence. assert (s2 = s) by congruence.
  subst s1 s2.
  exists t1, t2, this1, this2,
         (s pool_asset1_residual_store), (s pool_asset2_residual_store).
  split_all; try assumption; try lia.
  - destruct (kept_amounts_one_side g (deposit_amount1 g t1)
                                    (asset_amount t2)); [left|right]; lia.
  - rewrite Hout1. unfold refund, asset1_to.
    rewrite (Hcfg asset1_id eq_refl). reflexivity.
  - rewrite Hout2. unfold refund.
    rewrite (Hcfg asset2_id eq_refl). reflexivity.
Qed.

Lemma deposit_group_accounts_for_every_unit_witness :
  exists t1 t2 this1 this2 r1 r2,
    txn_at (Cases.uneven_deposit_env 2) (2 - 2) = Some t1
    /\ txn_at (Cases.uneven_deposit_env 2) (2 - 1) = Some t2
    /\ txn_at (Cases.uneven_deposit_env 3) 3 = Some this1
    /\ txn_at (Cases.uneven_deposit_env 4) 4 = Some this2
    /\ pays_pool (Cases.uneven_deposit_env 2) t1
                 (Scenario.funded_pool asset1_id)
                 (deposit_amount1 Scenario.funded_pool t1)
    /\ 0 <= r1 /\ 0 <= r2 /\ (r1 = 0 \/ r2 = 0)
    /\ @nil InnerTxn = refund Scenario.funded_pool (sender this1) true r1
    /\ [AssetTransferTo 6 499 Scenario.alice]
       = refund Scenario.funded_pool (sender this2) false r2
    /\ deposit_amount1 Scenario.funded_pool t1
       = (globals_after (on_pool (Cases.uneven_deposit_env 2) AlgofiAMMPool)
                        Scenario.funded_pool balance_1
          - Scenario.funded_pool balance_1) + r1
    /\ asset_amount t2
       = (globals_after (on_pool (Cases.uneven_deposit_env 2) AlgofiAMMPool)
                        Scenario.funded_pool balance_2
          - Scenario.funded_pool balance_2) + r2.
Proof.
  apply (deposit_group_accounts_for_every_unit
           (Cases.uneven_deposit_env 2) (Cases.uneven_deposit_env 3)
           (Cases.uneven_deposit_env 4)
           (Cases.scratch_of
              2 (on_pool (Cases.uneven_deposit_env 2) AlgofiAMMPool)
              Scenario.funded_pool)
           Scenario.funded_pool
           (globals_after (on_pool (Cases.uneven_deposit_env 2) AlgofiAMMPool)
                          Scenario.funded_pool)
           (Cases.scratch_left
              (on_pool (Cases.uneven_deposit_env 2) AlgofiAMMPool)
              Scenario.funded_pool)
           [AssetTransferTo 9 1000000 Scenario.alice]
           (globals_after (on_pool (Cases.uneven_deposit_env 2) AlgofiAMMPool)
                          Scenario.funded_pool)
           []
           (globals_after (on_pool (Cases.uneven_deposit_env 2) AlgofiAMMPool)
                          Scenario.funded_pool)
           [AssetTransferTo 6 499 Scenario.alice]).
  - vm_compute. reflexivity.
  - vm_compute. reflexivity.
  - vm_compute. reflexivity.
  - reflexivity.
  - reflexivity.
  - vm_compute. reflexivity.
  - vm_compute. reflexivity.
Defined.

(** X11.  A deposit into a funded constant-product pool never dilutes the
    liquidity providers.  The LP amount issued is the smaller of the two
    pro-rata amounts, [floor(k1 * L / b1)] and [floor(k2 * L / b2)], for the
    kept amounts [(k1, k2)] by which the balances grow; it is positive; and
    for each asset the balance per LP token after the deposit is at least
    what it was before. *)
Theorem funded_deposit_never_dilutes env g g' out :
  0 < g balance_1 -> 0 < g balance_2 -> 0 <= g lp_circulation ->
  call (on_pool env AlgofiAMMPool) g = Some (g', out) ->
  let minted := g' lp_circulation - g lp_circulation in
  0 < minted
  /\ minted
     = Z.min ((g' balance_1 - g balance_1) * g lp_circulation
              / g balance_1)
             ((g' balance_2 - g balance_2) * g lp_circulation
              / g balance_2)
  /\ g balance_1 * g' lp_circulation <= g' balance_1 * g lp_circulation
  /\ g balance_2 * g' lp_circulation <= g' balance_2 * g lp_circulation
  /\ exists this,
       txn_at env (group_index env) = Some this
       /\ out = [AssetTransferTo (g lp_id) minted (sender this)].
Proof.
  intros Hb1 Hb2 HL Hcall.
  destruct (call_leaves_scratch _ _ _ _ Hcall) as [s Hs].
  destruct (on_pool_spec env g g' s out Hcall Hs)
    as (t1 & t2 & this & Hidx & Ht1 & Ht2 & Hthis & Hrest).
  cbv zeta in Hrest.
  destruct Hrest as (Ha1 & Ha2 & Hminted & _ & _ & _ & _ & _ & _
                     & _ & _ & Hout & Hg1 & Hg2 & HgL).
  unfold issuance in *.
  destruct (Z.eqb_spec (g balance_1 + g balance_2) 0) as [He|_]; [lia|].
  set (k1 := fst (kept_amounts g (deposit_amount1 g t1) (asset_amount t2)))
    in *.
  set (k2 := snd (kept_amounts g (deposit_amount1 g t1) (asset_amount t2)))
    in *.
  cbv zeta.
  replace (g' balance_1 - g balance_1) with k1 by lia.
  replace (g' balance_2 - g balance_2) with k2 by lia.
  set (m := Z.min (k1 * g lp_circulation / g balance_1)
                  (k2 * g lp_circulation / g balance_2)) in *.
  replace (g' lp_circulation - g lp_circulation) with m by lia.
  pose proof (Z.le_min_l (k1 * g lp_circulation / g balance_1)
                         (k2 * g lp_circulation / g balance_2)) as Hm1.
  pose proof (Z.le_min_r (k1 * g lp_circulation / g balance_1)
                         (k2 * g lp_circulation / g balance_2)) as Hm2.
  fold m in Hm1, Hm2.
  pose proof (Z.mul_div_le (k1 * g lp_circulation) (g balance_1) Hb1) as Hd1.
  pose proof (Z.mul_div_le (k2 * g lp_circulation) (g balance_2) Hb2) as Hd2.
  split; [exact Hminted|]. split; [reflexivity|].
  split; [rewrite HgL, Hg1; nia|].
  split; [rewrite HgL, Hg2; nia|].
  exists this. split; assumption.
Qed.

Lemma funded_deposit_never_dilutes_witness :
  let minted :=
    globals_after (on_pool (Cases.uneven_deposit_env 2) AlgofiAMMPool)
                  Scenario.funded_pool lp_circulation
    - Scenario.funded_pool lp_circulation in
  0 < minted
  /\ minted
     = Z.min ((globals_after
                 (on_pool (Cases.uneven_deposit_env 2) AlgofiAMMPool)
                 Scenario.funded_pool balance_1
               - Scenario.funded_pool balance_1)
              * Scenario.funded_pool lp_circulation
              / Scenario.funded_pool balance_1)
             ((globals_after
                 (on_pool (Cases.uneven_deposit_env 2) AlgofiAMMPool)
                 Scenario.funded_pool balance_2
               - Scenario.funded_pool balance_2)
              * Scenario.funded_pool lp_circulation
              / Scenario.funded_pool balance_2)
  /\ Scenario.funded_pool balance_1
     * globals_after (on_pool (Cases.uneven_deposit_env 2) AlgofiAMMPool)
                     Scenario.funded_pool lp_circulation
     <= globals_after (on_pool (Cases.uneven_deposit_env 2) AlgofiAMMPool)
                      Scenario.funded_pool balance_1
        * Scenario.funded_pool lp_circulation
  /\ Scenario.funded_pool balance_2
     * globals_after (on_pool (Cases.uneven_deposit_env 2) AlgofiAMMPool)
                     Scenario.funded_pool lp_circulation
     <= globals_after (on_pool (Cases.uneven_deposit_env 2) AlgofiAMMPool)
                      Scenario.funded_pool balance_2
        * Scenario.funded_pool lp_circulation
  /\ exists this,
       txn_at (Cases.uneven_deposit_env 2) 2 = Some this
       /\ [AssetTransferTo 9 1000000 Scenario.alice]
          = [AssetTransferTo (Scenario.funded_pool lp_id) minted
                             (sender this)].
Proof.
  apply (funded_deposit_never_dilutes
           (Cases.uneven_deposit_env 2) Scenario.funded_pool
           (globals_after (on_pool (Cases.uneven_deposit_env 2) AlgofiAMMPool)
                          Scenario.funded_pool)
           [AssetTransferTo 9 1000000 Scenario.alice]).
  - reflexivity.
  - reflexivity.
  - vm_compute. discriminate.
  - vm_compute. reflexivity.
Defined.

(** X12.  A deposit is accepted, by either pool, only inside its group: the call
    is a NoOp application call preceded by the transfer of asset 1 (a
    payment when asset 1 is the native coin) and the transfer of asset 2,
    both of positive amounts and to the pool's address, and followed by the
    calls that redeem the asset-1 and the asset-2 residual. *)
Theorem deposit_needs_its_group env self g g' out :
  call (on_pool env self) g = Some (g', out) ->
  exists t1 t2 this r1 r2,
    2 <= group_index env
    /\ txn_at env (group_index env - 2) = Some t1
    /\ txn_at env (group_index env - 1) = Some t2
    /\ txn_at env (group_index env) = Some this
    /\ txn_at env (group_index env + 1) = Some r1
    /\ txn_at env (group_index env + 2) = Some r2
    /\ 0 < deposit_amount1 g t1
    /\ pays_pool env t1 (g asset1_id) (deposit_amount1 g t1)
    /\ type_enum t2 = TxnType.AssetTransfer
    /\ xfer_asset t2 = g asset2_id
    /\ asset_receiver t2 = current_application_address env
    /\ 0 < asset_amount t2
    /\ on_completion this = OnComplete.NoOp
    /\ type_enum this = TxnType.ApplicationCall
    /\ named_call env r1 AlgofiAMMPoolStrings.redeem_pool_asset1_residual
    /\ named_call env r2 AlgofiAMMPoolStrings.redeem_pool_asset2_residual.
Proof.
  apply (call_wlp _ _ _ _ (fun _ _ => _)).
  unfold on_pool. teal_indices. teal_expand.
  wlp_run.
  all: repeat (apply wlp_anyway; intros ? ?).
  all: avm_facts; subst; same_names.
  all: match goal with
       | H1 : txn_at _ (_ - 2) = Some ?a, H2 : txn_at _ (_ - 1) = Some ?b,
         H3 : txn_at _ (group_index _) = Some ?c,
         H4 : txn_at _ (_ + 1) = Some ?d,
         H5 : txn_at _ (_ + 2) = Some ?e |- _ => exists a, b, c, d, e
       end.
  all: unfold deposit_amount1, pays_pool, named_call.
  all: decide_eqb.
  all: split_all; try assumption; try reflexivity; try lia.
Qed.

Lemma deposit_needs_its_group_witness :
  exists t1 t2 this r1 r2,
    2 <= group_index (Scenario.deposit_env 1000000 1000000)
    /\ txn_at (Scenario.deposit_env 1000000 1000000) (2 - 2) = Some t1
    /\ txn_at (Scenario.deposit_env 1000000 1000000) (2 - 1) = Some t2
    /\ txn_at (Scenario.deposit_env 1000000 1000000) 2 = Some this
    /\ txn_at (Scenario.deposit_env 1000000 1000000) (2 + 1) = Some r1
    /\ txn_at (Scenario.deposit_env 1000000 1000000) (2 + 2) = Some r2
    /\ 0 < deposit_amount1 Scenario.stable_pool t1
    /\ pays_pool (Scenario.deposit_env 1000000 1000000) t1
                 (Scenario.stable_pool asset1_id)
                 (deposit_amount1 Scenario.stable_pool t1)
    /\ type_enum t2 = TxnType.AssetTransfer
    /\ xfer_asset t2 = Scenario.stable_pool asset2_id
    /\ asset_receiver t2
       = current_application_address (Scenario.deposit_env 1000000 1000000)
    /\ 0 < asset_amount t2
    /\ on_completion this = OnComplete.NoOp
    /\ type_enum this = TxnType.ApplicationCall
    /\ named_call (Scenario.deposit_env 1000000 1000000) r1
                  AlgofiAMMPoolStrings.redeem_pool_asset1_residual
    /\ named_call (Scenario.deposit_env 1000000 1000000) r2
                  AlgofiAMMPoolStrings.redeem_pool_asset2_residual.
Proof.
  apply (deposit_needs_its_group
           (Scenario.deposit_env 1000000 1000000)
           (AlgofiAMMStablePool (Scenario.deposit_env 1000000 1000000) 1000)
           Scenario.stable_pool
           (globals_after
              (on_pool (Scenario.deposit_env 1000000 1000000)
                       (AlgofiAMMStablePool
                          (Scenario.deposit_env 1000000 1000000) 1000))
              Scenario.stable_pool)
           [AssetTransferTo 9 2000000 Scenario.alice]).
  vm_compute. reflexivity.
Defined.


(** ** Burning *)

Lemma on_burn_asset1_out_spec env g g' out :
  call (on_burn_asset1_out env) g = Some (g', out) ->
  exists lp_in this next,
    1 <= group_index env
    /\ txn_at env (group_index env - 1) = Some lp_in
    /\ txn_at env (group_index env) = Some this
    /\ txn_at env (group_index env + 1) = Some next
    /\ type_enum lp_in = TxnType.AssetTransfer
    /\ xfer_asset lp_in = g lp_id
    /\ asset_receiver lp_in = current_application_address env
    /\ 0 < asset_amount lp_in
    /\ named_call env next AlgofiAMMPoolStrings.burn_asset2_out
    /\ let paid := burn_share g (asset_amount lp_in) (g balance_1) in
       0 < paid <= g balance_1
       /\ (asset_amount lp_in <> g lp_circulation -> g lp_circulation <> 0)
       /\ out = [asset1_to g (sender this) paid]
       /\ forall v, g' v = match v with
                           | balance_1 => g balance_1 - paid
                           | _ => g v
                           end.
Proof.
  apply (call_wlp _ _ _ _ (fun g' out => _)).
  unfold on_burn_asset1_out, convert_lp_to_asset1.
  teal_indices. teal_expand.
  wlp_run.
  all: avm_facts; subst; same_names.
  all: match goal with
       | H1 : txn_at _ (_ - 1) = Some ?a,
         H2 : txn_at _ (group_index _) = Some ?b,
         H3 : txn_at _ (_ + 1) = Some ?c |- _ => exists a, b, c
       end.
  all: unfold named_call, burn_share, asset1_to.
  all: cbv zeta.
  all: decide_eqb.
  all: split_all; try assumption; try reflexivity; try lia.
  all: try (intros v; destruct v; reflexivity).
  all: try (intros; assumption).
Qed.

Lemma on_burn_asset2_out_spec env g g' out :
  call (on_burn_asset2_out env) g = Some (g', out) ->
  exists lp_in prev this,
    2 <= group_index env
    /\ txn_at env (group_index env - 2) = Some lp_in
    /\ txn_at env (group_index env - 1) = Some prev
    /\ txn_at env (group_index env) = Some this
    /\ type_enum lp_in = TxnType.AssetTransfer
    /\ xfer_asset lp_in = g lp_id
    /\ asset_receiver lp_in = current_application_address env
    /\ 0 < asset_amount lp_in
    /\ named_call env prev AlgofiAMMPoolStrings.burn_asset1_out
    /\ let paid := burn_share g (asset_amount lp_in) (g balance_2) in
       0 < paid <= g balance_2
       /\ asset_amount lp_in <= g lp_circulation
       /\ out = [AssetTransferTo (g asset2_id) paid (sender this)]
       /\ forall v, g' v = match v with
                           | balance_2 => g balance_2 - paid
                           | lp_circulation =>
                               g lp_circulation - asset_amount lp_in
                           | _ => g v
                           end.
Proof.
  apply (call_wlp _ _ _ _ (fun g' out => _)).
  unfold on_burn_asset2_out, convert_lp_to_asset2.
  teal_indices. teal_expand.
  wlp_run.
  all: avm_facts; subst; same_names.
  all: match goal with
       | H1 : txn_at _ (_ - 2) = Some ?a,
         H2 : txn_at _ (_ - 1) = Some ?b,
         H3 : txn_at _ (group_index _) = Some ?c |- _ => exists a, b, c
       end.
  all: unfold named_call, burn_share.
  all: cbv zeta.
  all: decide_eqb.
  all: split_all; try assumption; try reflexivity; try lia.
  all: intros v; destruct v; reflexivity.
Qed.

Lemma burn_share_pro_rata g lp b :
  0 <= lp <= g lp_circulation -> 0 <= b ->
  burn_share g lp b * g lp_circulation <= lp * b.
Proof.
  intros Hlp Hb. unfold burn_share.
  destruct (Z.eqb_spec lp (g lp_circulation)) as [->|Hne]; [lia|].
  assert (HL : 0 < g lp_circulation) by lia.
  pose proof (Z.mul_div_le (lp * b) (g lp_circulation) HL). lia.
Qed.

(** X13.  The two calls of a burn group pay the burner a pro-rata share of each
    balance, rounded down.  Both calls read the same LP transfer [lp] and the
    same circulation [L], since [burn_asset1_out] leaves the circulation
    alone: the first pays [floor(lp * balance_1 / L)] of asset 1, the second
    [floor(lp * balance_2 / L)] of asset 2 (the whole balances when
    [lp = L]), each positive; the circulation drops by [lp] once; nothing
    else changes; and for each asset the balance per LP token left in the
    pool is at least what it was. *)
Theorem burn_group_pays_pro_rata env1 env2 g g1 g2 out1 out2 :
  group env2 = group env1 ->
  group_index env2 = group_index env1 + 1 ->
  0 <= g balance_1 -> 0 <= g balance_2 ->
  call (on_burn_asset1_out env1) g = Some (g1, out1) ->
  call (on_burn_asset2_out env2) g1 = Some (g2, out2) ->
  exists lp_in this1 this2,
    txn_at env1 (group_index env1 - 1) = Some lp_in
    /\ txn_at env1 (group_index env1) = Some this1
    /\ txn_at env2 (group_index env2) = Some this2
    /\ let lp := asset_amount lp_in in
       let paid1 := burn_share g lp (g balance_1) in
       let paid2 := burn_share g lp (g balance_2) in
       0 < lp <= g lp_circulation
       /\ 0 < paid1 /\ 0 < paid2
       /\ out1 = [asset1_to g (sender this1) paid1]
       /\ out2 = [AssetTransferTo (g asset2_id) paid2 (sender this2)]
       /\ paid1 * g lp_circulation <= lp * g balance_1
       /\ paid2 * g lp_circulation <= lp * g balance_2
       /\ forall v, g2 v = match v with
                           | balance_1 => g balance_1 - paid1
                           | balance_2 => g balance_2 - paid2
                           | lp_circulation => g lp_circulation - lp
                           | _ => g v
                           end.
Proof.
  intros Hgrp Hidx Hb1 Hb2 Hc1 Hc2.
  destruct (on_burn_asset1_out_spec env1 g g1 out1 Hc1)
    as (lp1 & this1 & next & Hi1 & Hlp1 & Hthis1 & _ & _ & _ & _ & Hpos1
        & _ & Hrest1).
  cbv zeta in Hrest1. destruct Hrest1 as (Hpaid1 & _ & Hout1 & Hg1).
  destruct (on_burn_asset2_out_spec env2 g1 g2 out2 Hc2)
    as (lp2 & prev & this2 & Hi2 & Hlp2 & _ & Hthis2 & _ & _ & _ & Hpos2
        & _ & Hrest2).
  cbv zeta in Hrest2. destruct Hrest2 as (Hpaid2 & Hle & Hout2 & Hg2).
  assert (lp2 = lp1).
  { unfold txn_at in *. rewrite Hgrp in Hlp2.
    replace (group_index env2 - 2) with (group_index env1 - 1) in Hlp2
      by lia.
    congruence. }
  subst lp2.
  assert (Hshare : forall b, burn_share g1 (asset_amount lp1) b
                             = burn_share g (asset_amount lp1) b).
  { intros b. unfold burn_share. rewrite (Hg1 lp_circulation). reflexivity. }
  rewrite (Hg1 balance_2), (Hg1 asset2_id), Hshare in *. cbv iota in *.
  rewrite (Hg1 lp_circulation) in Hle. cbv iota in Hle.
  exists lp1, this1, this2. cbv zeta.
  split_all; try assumption; try lia.
  - apply burn_share_pro_rata; lia.
  - apply burn_share_pro_rata; lia.
  - intros v. rewrite (Hg2 v).
    destruct v; try reflexivity; rewrite ?(Hg1 balance_1),
      ?(Hg1 lp_circulation), ?(Hg1 balance_2); try reflexivity.
    all: apply Hg1.
Qed.

Lemma burn_group_pays_pro_rata_witness :
  exists lp_in this1 this2,
    txn_at (Scenario.burn1_env 300000) (1 - 1) = Some lp_in
    /\ txn_at (Scenario.burn1_env 300000) 1 = Some this1
    /\ txn_at (Scenario.burn2_env 300000) 2 = Some this2
    /\ let lp := asset_amount lp_in in
       let paid1 :=
         burn_share (Scenario.seeded_pool 1000001 2000001 1000000) lp
                    (Scenario.seeded_pool 1000001 2000001 1000000
                                          balance_1) in
       let paid2 :=
         burn_share (Scenario.seeded_pool 1000001 2000001 1000000) lp
                    (Scenario.seeded_pool 1000001 2000001 1000000
                                          balance_2) in
       0 < lp <= Scenario.seeded_pool 1000001 2000001 1000000 lp_circulation
       /\ 0 < paid1 /\ 0 < paid2
       /\ [AssetTransferTo 5 300000 Scenario.alice]
          = [asset1_to (Scenario.seeded_pool 1000001 2000001 1000000)
                       (sender this1) paid1]
       /\ [AssetTransferTo 6 600000 Scenario.alice]
          = [AssetTransferTo
               (Scenario.seeded_pool 1000001 2000001 1000000 asset2_id)
               paid2 (sender this2)]
       /\ paid1 * Scenario.seeded_pool 1000001 2000001 1000000 lp_circulation
          <= lp * Scenario.seeded_pool 1000001 2000001 1000000 balance_1
       /\ paid2 * Scenario.seeded_pool 1000001 2000001 1000000 lp_circulation
          <= lp * Scenario.seeded_pool 1000001 2000001 1000000 balance_2
       /\ forall v,
            globals_after
              (on_burn_asset2_out (Scenario.burn2_env 300000))
              (globals_after
                 (on_burn_asset1_out (Scenario.burn1_env 300000))
                 (Scenario.seeded_pool 1000001 2000001 1000000)) v
            = match v with
              | balance_1 =>
                  Scenario.seeded_pool 1000001 2000001 1000000 balance_1
                  - paid1
              | balance_2 =>
                  Scenario.seeded_pool 1000001 2000001 1000000 balance_2
                  - paid2
              | lp_circulation =>
                  Scenario.seeded_pool 1000001 2000001 1000000 lp_circulation
                  - lp
              | _ => Scenario.seeded_pool 1000001 2000001 1000000 v
              end.
Proof.
  apply (burn_group_pays_pro_rata
           (Scenario.burn1_env 300000) (Scenario.burn2_env 300000)
           (Scenario.seeded_pool 1000001 2000001 1000000)
           (globals_after
              (on_burn_asset1_out (Scenario.burn1_env 300000))
              (Scenario.seeded_pool 1000001 2000001 1000000))
           (globals_after
              (on_burn_asset2_out (Scenario.burn2_env 300000))
              (globals_after
                 (on_burn_asset1_out (Scenario.burn1_env 300000))
                 (Scenario.seeded_pool 1000001 2000001 1000000)))
           [AssetTransferTo 5 300000 Scenario.alice]
           [AssetTransferTo 6 600000 Scenario.alice]).
  - reflexivity.
  - reflexivity.
  - vm_compute. discriminate.
  - vm_compute. discriminate.
  - vm_compute. reflexivity.
  - vm_compute. reflexivity.
Defined.


(** ** Swapping for an exact output *)

Lemma on_swap_for_exact_spec env g g' s out this :
  txn_at env (group_index env) = Some this ->
  nth_error (application_args this) 0
  = Some AlgofiAMMPoolStrings.swap_for_exact ->
  call (on_swap env AlgofiAMMPool) g = Some (g', out) ->
  scratch_after (on_swap env AlgofiAMMPool) g = Some s ->
  exists t_in rf exact_arg exact next,
    txn_at env (group_index env - 1) = Some t_in
    /\ manager_reserve_factor env = Some rf
    /\ rf <= FIXED_6_SCALE_FACTOR
    /\ nth_error (application_args this) 1 = Some exact_arg
    /\ AVM.btoi exact_arg = Some exact
    /\ 0 < exact
    /\ txn_at env (group_index env + 1) = Some next
    /\ named_call env next AlgofiAMMPoolStrings.redeem_swap_residual
    /\ 0 < swap_input t_in
    /\ let input := swap_input t_in in
       if swap_input_is_asset1 g t_in
       then let required :=
              g balance_1 * exact / (g balance_2 - exact) + 1 in
            let fee :=
              required * FIXED_6_SCALE_FACTOR
              / (FIXED_6_SCALE_FACTOR - g swap_fee_pct_scaled_var)
              + 1 - required in
            exact < g balance_2
            /\ g swap_fee_pct_scaled_var < FIXED_6_SCALE_FACTOR
            /\ 0 <= fee
            /\ required + fee <= input
            /\ out = [AssetTransferTo (g asset2_id) exact (sender this)]
            /\ g' balance_1
               = g balance_1 + (required + fee)
                 - fee * rf / FIXED_6_SCALE_FACTOR
            /\ g' balance_2 = g balance_2 - exact
            /\ g' asset1_reserve
               = g asset1_reserve + fee * rf / FIXED_6_SCALE_FACTOR
            /\ g' asset2_reserve = g asset2_reserve
            /\ truthy (s swap_input_is_asset1_store) = true
            /\ s residual_amount_store = input - (required + fee)
       else let required :=
              g balance_2 * exact / (g balance_1 - exact) + 1 in
            let fee :=
              required * FIXED_6_SCALE_FACTOR
              / (FIXED_6_SCALE_FACTOR - g swap_fee_pct_scaled_var)
              + 1 - required in
            exact < g balance_1
            /\ g swap_fee_pct_scaled_var < FIXED_6_SCALE_FACTOR
            /\ 0 <= fee
            /\ required + fee <= input
            /\ out = [asset1_to g (sender this) exact]
            /\ g' balance_1 = g balance_1 - exact
            /\ g' balance_2
               = g balance_2 + (required + fee)
                 - fee * rf / FIXED_6_SCALE_FACTOR
            /\ g' asset2_reserve
               = g asset2_reserve + fee * rf / FIXED_6_SCALE_FACTOR
            /\ g' asset1_reserve = g asset1_reserve
            /\ truthy (s swap_input_is_asset1_store) = false
            /\ s residual_amount_store = input - (required + fee).
Proof.
  intros Hthis Hname.
  assert (Hmode : String.eqb AlgofiAMMPoolStrings.swap_for_exact
                             AlgofiAMMPoolStrings.swap_for_exact = true)
    by reflexivity.
  apply (call_scratch_wlp _ _ _ _ _ (fun g' s out => _)).
  unfold on_swap.
  teal_methods. teal_indices. teal_expand.
  apply wlp_bind.
  apply (wlp_mid
           (fun _ m' =>
              submitted m' = []
              /\ (forall v, match v with
                            | time_delta_store | asset1_to_asset2_price_store
                            | asset2_to_asset1_price_store => True
                            | _ => scratch m' v = 0
                            end)
              /\ forall v,
                   match v with
                   | latest_time
                   | cumsum_time_weighted_asset1_to_asset2_price
                   | cumsum_time_weighted_asset2_to_asset1_price => True
                   | _ => globals m' v = g v
                   end)).
  - wlp_run.
    all: teal_state; split; [reflexivity|].
    all: split; [intros v; destruct v; exact I || reflexivity|].
    all: intros v; destruct v; exact I || reflexivity.
  - intros _ [g1 s1 o1] (Ho1 & Hs1 & Hg1).
    cbn [globals scratch submitted] in *.
    subst o1.
    pose proof (Hg1 balance_1) as Hk1.
    pose proof (Hg1 balance_2) as Hk2.
    pose proof (Hg1 asset1_id) as Hk3.
    pose proof (Hg1 asset2_id) as Hk4.
    pose proof (Hg1 swap_fee_pct_scaled_var) as Hk5.
    pose proof (Hg1 asset1_reserve) as Hk6.
    pose proof (Hg1 asset2_reserve) as Hk7.
    cbv iota in Hk1, Hk2, Hk3, Hk4, Hk5, Hk6, Hk7.
    clear Hg1 Hs1.
    wlp_run.
    all: avm_facts; subst; same_names.
    all: match goal with
         | H1 : txn_at _ (_ - 1) = Some ?a,
           H2 : manager_reserve_factor _ = Some ?b,
           H3 : nth_error _ 1 = Some ?c,
           H4 : AVM.btoi ?c = Some ?d,
           H5 : txn_at _ (_ + 1) = Some ?e |- _ => exists a, b, c, d, e
         end.
    all: unfold swap_input, swap_input_is_asset1, asset1_to, named_call.
    all: cbv zeta.
    all: repeat (decide_eqb; cbn [orb]).
    all: split_all; try assumption; try reflexivity; try lia.
Qed.



(** The reserve factor a swap refreshes from the manager is at most
    1_000_000. *)
Lemma on_swap_reserve_factor env self g g' out :
  call (on_swap env self) g = Some (g', out) ->
  exists rf,
    manager_reserve_factor env = Some rf /\ rf <= FIXED_6_SCALE_FACTOR.
Proof.
  apply (call_wlp _ _ _ _ (fun _ _ => _)).
  cbv beta zeta delta [on_swap Seq]. cbv iota beta. fold Seq.
  apply wlp_bind.
  apply wlp_skip; intros ? ?.
  apply (wlp_mid (fun _ _ =>
                    exists rf, manager_reserve_factor env = Some rf
                               /\ rf <= FIXED_6_SCALE_FACTOR)).
  - teal_expand. wlp_run. avm_facts. eauto.
  - intros _ m1 HP. repeat (apply wlp_anyway; intros ? ?). exact HP.
Qed.

(** What every accepted swap has read of its group. *)
Lemma on_swap_input_spec env self g g' out :
  call (on_swap env self) g = Some (g', out) ->
  exists this name t_in,
    txn_at env (group_index env) = Some this
    /\ nth_error (application_args this) 0 = Some name
    /\ txn_at env (group_index env - 1) = Some t_in
    /\ 0 < swap_input t_in.
Proof.
  apply (call_wlp _ _ _ _ (fun _ _ => _)).
  cbv beta zeta delta [on_swap Seq]. cbv iota beta. fold Seq.
  apply wlp_bind.
  apply wlp_skip; intros ? ?.
  apply wlp_skip; intros ? ?.
  apply (wlp_mid (fun _ _ =>
                    exists t_in, txn_at env (group_index env - 1) = Some t_in
                                 /\ 0 < swap_input t_in)).
  { teal_indices. teal_expand. wlp_run.
    all: avm_facts; subst.
    all: match goal with
         | H : txn_at _ (_ - 1) = Some ?c |- _ => exists c
         end.
    all: unfold swap_input.
    all: decide_eqb.
    all: split; try assumption; try lia. }
  intros _ m3 (t_in & Hin & Hpos).
  apply wlp_skip; intros ? ?.
  apply (wlp_mid (fun _ _ =>
                    exists this name,
                      txn_at env (group_index env) = Some this
                      /\ nth_error (application_args this) 0 = Some name)).
  { teal_indices. teal_expand.
    wlp_run.
    all: eauto. }
  intros _ m5 (this & name & Hthis & Hname).
  repeat (apply wlp_anyway; intros ? ?).
  exists this, name, t_in. auto.
Qed.

Lemma reserve_share_bounds fee rf :
  0 <= fee -> 0 <= rf <= FIXED_6_SCALE_FACTOR ->
  0 <= fee * rf / FIXED_6_SCALE_FACTOR <= fee.
Proof.
  unfold FIXED_6_SCALE_FACTOR. intros Hf Hrf. split.
  - apply Z.div_pos; nia.
  - apply Z.div_le_upper_bound; nia.
Qed.

Lemma product_grows_exact_for b1 b2 x :
  0 <= b1 -> 0 <= b2 -> 0 < x ->
  0 <= b2 - b2 * x / (b1 + x)
  /\ b1 * b2 <= (b1 + x) * (b2 - b2 * x / (b1 + x)).
Proof.
  intros H1 H2 Hx.
  assert (Hd : 0 < b1 + x) by lia.
  pose proof (Z.mul_div_le (b2 * x) (b1 + x) Hd) as Hq.
  assert (Hle : b2 * x / (b1 + x) <= b2).
  { apply Z.div_le_upper_bound; nia. }
  split; nia.
Qed.

Lemma product_grows_for_exact b1 e d :
  0 <= b1 -> 0 < e -> 0 < d ->
  b1 * (d + e) <= (b1 + (b1 * e / d + 1)) * d.
Proof.
  intros H1 He Hd.
  pose proof (Z.mul_succ_div_gt (b1 * e) d Hd) as Hq.
  nia.
Qed.

(** X14.  A swap for an exact output sends exactly the amount asked for.  The
    input it requires is [floor(balance_in * exact / (balance_out - exact))
    + 1] on the balances before the trade, plus the fee
    [floor(required * 1e6 / (1e6 - swap_fee)) + 1 - required]; the call is
    accepted only when the amount asked for is positive and below the
    balance of the output asset, the input sent covers the required input
    plus the fee, and the next call of the group redeems the residual. *)
Theorem swap_for_exact_pays_the_exact_amount env g g' out this :
  txn_at env (group_index env) = Some this ->
  nth_error (application_args this) 0
  = Some AlgofiAMMPoolStrings.swap_for_exact ->
  call (on_swap env AlgofiAMMPool) g = Some (g', out) ->
  exists t_in exact_arg exact next,
    txn_at env (group_index env - 1) = Some t_in
    /\ nth_error (application_args this) 1 = Some exact_arg
    /\ AVM.btoi exact_arg = Some exact
    /\ 0 < exact
    /\ txn_at env (group_index env + 1) = Some next
    /\ named_call env next AlgofiAMMPoolStrings.redeem_swap_residual
    /\ if swap_input_is_asset1 g t_in
       then let required :=
              g balance_1 * exact / (g balance_2 - exact) + 1 in
            let fee :=
              required * 1000000 / (1000000 - g swap_fee_pct_scaled_var)
              + 1 - required in
            exact < g balance_2
            /\ required + fee <= swap_input t_in
            /\ out = [AssetTransferTo (g asset2_id) exact (sender this)]
            /\ g' balance_2 = g balance_2 - exact
       else let required :=
              g balance_2 * exact / (g balance_1 - exact) + 1 in
            let fee :=
              required * 1000000 / (1000000 - g swap_fee_pct_scaled_var)
              + 1 - required in
            exact < g balance_1
            /\ required + fee <= swap_input t_in
            /\ out = [asset1_to g (sender this) exact]
            /\ g' balance_1 = g balance_1 - exact.
Proof.
  intros Hthis Hname Hcall.
  destruct (call_leaves_scratch _ _ _ _ Hcall) as [s Hs].
  destruct (on_swap_for_exact_spec env g g' s out this Hthis Hname Hcall Hs)
    as (t_in & rf & exact_arg & exact & next & Hin & _ & _ & Harg & Hexact
        & Hpos & Hnext & Hnamed & _ & Hrest).
  exists t_in, exact_arg, exact, next.
  split_all; try assumption.
  cbv zeta in *. change 1000000 with FIXED_6_SCALE_FACTOR.
  destruct (swap_input_is_asset1 g t_in);
    destruct Hrest as (H1 & _ & _ & H2 & H3 & H4 & H5 & _);
    split_all; assumption.
Qed.

Lemma swap_for_exact_pays_the_exact_amount_witness :
  exists t_in exact_arg exact next,
    txn_at (Cases.swap_for_exact_env 1) (1 - 1) = Some t_in
    /\ nth_error
         (application_args
            (Scenario.app_call [AlgofiAMMPoolStrings.swap_for_exact;
                                AVM.itob 996])) 1
       = Some exact_arg
    /\ AVM.btoi exact_arg = Some exact
    /\ 0 < exact
    /\ txn_at (Cases.swap_for_exact_env 1) (1 + 1) = Some next
    /\ named_call (Cases.swap_for_exact_env 1) next
                  AlgofiAMMPoolStrings.redeem_swap_residual
    /\ if swap_input_is_asset1
            (Scenario.seeded_pool 1000000 1000000 1000000) t_in
       then let required := 1000000 * exact / (1000000 - exact) + 1 in
            let fee :=
              required * 1000000 / (1000000 - 2500) + 1 - required in
            exact < 1000000
            /\ required + fee <= swap_input t_in
            /\ [AssetTransferTo 6 996 Scenario.alice]
               = [AssetTransferTo 6 exact Scenario.alice]
            /\ globals_after
                 (on_swap (Cases.swap_for_exact_env 1) AlgofiAMMPool)
                 (Scenario.seeded_pool 1000000 1000000 1000000) balance_2
               = 1000000 - exact
       else let required := 1000000 * exact / (1000000 - exact) + 1 in
            let fee :=
              required * 1000000 / (1000000 - 2500) + 1 - required in
            exact < 1000000
            /\ required + fee <= swap_input t_in
            /\ [AssetTransferTo 6 996 Scenario.alice]
               = [asset1_to (Scenario.seeded_pool 1000000 1000000 1000000)
                            Scenario.alice exact]
            /\ globals_after
                 (on_swap (Cases.swap_for_exact_env 1) AlgofiAMMPool)
                 (Scenario.seeded_pool 1000000 1000000 1000000) balance_1
               = 1000000 - exact.
Proof.
  apply (swap_for_exact_pays_the_exact_amount
           (Cases.swap_for_exact_env 1)
           (Scenario.seeded_pool 1000000 1000000 1000000)
           (globals_after
              (on_swap (Cases.swap_for_exact_env 1) AlgofiAMMPool)
              (Scenario.seeded_pool 1000000 1000000 1000000))
           [AssetTransferTo 6 996 Scenario.alice]
           (Scenario.app_call [AlgofiAMMPoolStrings.swap_for_exact;
                               AVM.itob 996])).
  - reflexivity.
  - reflexivity.
  - vm_compute. reflexivity.
Defined.


(** X15.  Every unit sent with a swap for an exact output is either kept by the
    pool or handed back.  When the swap and the redemption that follows it
    are accepted, the input sent equals the growth of the input asset's
    balance and reserve together, plus the amount the redemption returns in
    that asset; the other asset's reserve is untouched. *)
Theorem swap_for_exact_group_accounts_for_input
    env env1 gs g g1 s out g2 out1 this :
  txn_at env (group_index env) = Some this ->
  nth_error (application_args this) 0
  = Some AlgofiAMMPoolStrings.swap_for_exact ->
  call (on_swap env AlgofiAMMPool) g = Some (g1, out) ->
  scratch_after (on_swap env AlgofiAMMPool) g = Some s ->
  gs (group_index env) = Some s ->
  group_index env1 = group_index env + 1 ->
  call (on_redeem_swap_residual env1 gs) g1 = Some (g2, out1) ->
  exists t_in this1 r,
    txn_at env (group_index env - 1) = Some t_in
    /\ txn_at env1 (group_index env1) = Some this1
    /\ 0 <= r
    /\ out1 = refund g (sender this1) (swap_input_is_asset1 g t_in) r
    /\ if swap_input_is_asset1 g t_in
       then swap_input t_in
            = (g2 balance_1 + g2 asset1_reserve)
              - (g balance_1 + g asset1_reserve) + r
            /\ g2 asset2_reserve = g asset2_reserve
       else swap_input t_in
            = (g2 balance_2 + g2 asset2_reserve)
              - (g balance_2 + g asset2_reserve) + r
            /\ g2 asset1_reserve = g asset1_reserve.
Proof.
  intros Hthis Hname Hcall Hs Hgs Hidx Hredeem.
  destruct (on_swap_for_exact_spec env g g1 s out this Hthis Hname Hcall Hs)
    as (t_in & rf & exact_arg & exact & next & Hin & _ & _ & _ & _
        & _ & _ & _ & _ & Hrest).
  assert (Hop : In (on_swap env AlgofiAMMPool) (user_operations env 0 gs))
    by (unfold user_operations; cbn [In]; tauto).
  pose proof (call_frames configuration _ g g1 out
                (user_operations_frame env 0 gs _ Hop) Hcall) as Hcfg.
  destruct (on_redeem_swap_residual_spec env1 gs g1 g2 out1 Hredeem)
    as (this1 & src & s1 & Hthis1 & _ & Hgs1 & _ & _ & Hout1 & ->).
  replace (group_index env1 - 1) with (group_index env) in Hgs1 by lia.
  assert (s1 = s) by congruence. subst s1.
  exists t_in, this1, (s residual_amount_store).
  cbv zeta in Hrest.
  assert (Hrefund :
            forall b, refund g1 (sender this1) b (s residual_amount_store)
                      = refund g (sender this1) b (s residual_amount_store)).
  { intros b. unfold refund, asset1_to.
    rewrite (Hcfg asset1_id eq_refl), (Hcfg asset2_id eq_refl).
    reflexivity. }
  destruct (swap_input_is_asset1 g t_in);
    destruct Hrest as (_ & _ & _ & Hle & _ & Hb1 & Hb2 & Hr1 & Hr2 & Hflag
                       & Hres);
    rewrite Hflag in Hout1; rewrite Hrefund in Hout1.
  all: split_all; try assumption; lia.
Qed.

Lemma swap_for_exact_group_accounts_for_input_witness :
  exists t_in this1 r,
    txn_at (Cases.swap_for_exact_env 1) (1 - 1) = Some t_in
    /\ txn_at (Cases.swap_for_exact_env 2) 2 = Some this1
    /\ 0 <= r
    /\ [AssetTransferTo 5 1000 Scenario.alice]
       = refund (Scenario.seeded_pool 1000000 1000000 1000000)
                (sender this1)
                (swap_input_is_asset1
                   (Scenario.seeded_pool 1000000 1000000 1000000) t_in)
                r
    /\ if swap_input_is_asset1
            (Scenario.seeded_pool 1000000 1000000 1000000) t_in
       then swap_input t_in
            = (globals_after
                 (on_swap (Cases.swap_for_exact_env 1) AlgofiAMMPool)
                 (Scenario.seeded_pool 1000000 1000000 1000000) balance_1
               + globals_after
                   (on_swap (Cases.swap_for_exact_env 1) AlgofiAMMPool)
                   (Scenario.seeded_pool 1000000 1000000 1000000)
                   asset1_reserve)
              - (1000000 + 0) + r
            /\ globals_after
                 (on_swap (Cases.swap_for_exact_env 1) AlgofiAMMPool)
                 (Scenario.seeded_pool 1000000 1000000 1000000)
                 asset2_reserve
               = 0
       else swap_input t_in
            = (globals_after
                 (on_swap (Cases.swap_for_exact_env 1) AlgofiAMMPool)
                 (Scenario.seeded_pool 1000000 1000000 1000000) balance_2
               + globals_after
                   (on_swap (Cases.swap_for_exact_env 1) AlgofiAMMPool)
                   (Scenario.seeded_pool 1000000 1000000 1000000)
                   asset2_reserve)
              - (1000000 + 0) + r
            /\ globals_after
                 (on_swap (Cases.swap_for_exact_env 1) AlgofiAMMPool)
                 (Scenario.seeded_pool 1000000 1000000 1000000)
                 asset1_reserve
               = 0.
Proof.
  apply (swap_for_exact_group_accounts_for_input
           (Cases.swap_for_exact_env 1) (Cases.swap_for_exact_env 2)
           (Cases.scratch_of
              1 (on_swap (Cases.swap_for_exact_env 1) AlgofiAMMPool)
              (Scenario.seeded_pool 1000000 1000000 1000000))
           (Scenario.seeded_pool 1000000 1000000 1000000)
           (globals_after
              (on_swap (Cases.swap_for_exact_env 1) AlgofiAMMPool)
              (Scenario.seeded_pool 1000000 1000000 1000000))
           (Cases.scratch_left
              (on_swap (Cases.swap_for_exact_env 1) AlgofiAMMPool)
              (Scenario.seeded_pool 1000000 1000000 1000000))
           [AssetTransferTo 6 996 Scenario.alice]
           (globals_after
              (on_swap (Cases.swap_for_exact_env 1) AlgofiAMMPool)
              (Scenario.seeded_pool 1000000 1000000 1000000))
           [AssetTransferTo 5 1000 Scenario.alice]
           (Scenario.app_call [AlgofiAMMPoolStrings.swap_for_exact;
                               AVM.itob 996])).
  - reflexivity.
  - reflexivity.
  - vm_compute. reflexivity.
  - vm_compute. reflexivity.
  - vm_compute. reflexivity.
  - reflexivity.
  - vm_compute. reflexivity.
Defined.

(** X16.  A swap on the constant-product pool never lowers the product of the
    balances.  For a pool whose balances, swap fee and manager's reserve
    factor are the natural numbers the AVM stores, every accepted swap, for
    an exact input or for an exact output, leaves
    [balance_1 * balance_2] at least as large as it was, the part of the fee
    moved to the reserve included. *)
Theorem swap_never_lowers_the_product env g g' out :
  0 <= g balance_1 -> 0 <= g balance_2 ->
  0 <= g swap_fee_pct_scaled_var ->
  (forall rf, manager_reserve_factor env = Some rf -> 0 <= rf) ->
  call (on_swap env AlgofiAMMPool) g = Some (g', out) ->
  g balance_1 * g balance_2 <= g' balance_1 * g' balance_2.
Proof.
  intros Hb1 Hb2 Hsf Hrf Hcall.
  destruct (on_swap_input_spec env AlgofiAMMPool g g' out Hcall)
    as (this & name & t_in & Hthis & Hname & Hin & Hpos).
  destruct (String.eqb_spec name AlgofiAMMPoolStrings.swap_for_exact)
    as [->|Hmode].
  - destruct (call_leaves_scratch _ _ _ _ Hcall) as [s Hs].
    destruct (on_swap_for_exact_spec env g g' s out this
                Hthis Hname Hcall Hs)
      as (t_in' & rf & exact_arg & exact & next & Hin' & Hmrf & Hrfle & _
          & _ & Hexact & _ & _ & _ & Hrest).
    pose proof (Hrf rf Hmrf) as Hrf0.
    cbv zeta in Hrest.
    destruct (swap_input_is_asset1 g t_in');
      destruct Hrest as (Hlt & _ & Hfee & _ & _ & Hg1 & Hg2 & _).
    + pose proof (reserve_share_bounds _ rf Hfee (conj Hrf0 Hrfle)) as Hs'.
      pose proof (product_grows_for_exact
                    (g balance_1) exact (g balance_2 - exact)
                    Hb1 Hexact ltac:(lia)) as Hp.
      replace (g balance_2 - exact + exact) with (g balance_2) in Hp by lia.
      rewrite Hg1, Hg2. nia.
    + pose proof (reserve_share_bounds _ rf Hfee (conj Hrf0 Hrfle)) as Hs'.
      pose proof (product_grows_for_exact
                    (g balance_2) exact (g balance_1 - exact)
                    Hb2 Hexact ltac:(lia)) as Hp.
      replace (g balance_1 - exact + exact) with (g balance_1) in Hp by lia.
      rewrite Hg1, Hg2. nia.
  - destruct (on_swap_reserve_factor env AlgofiAMMPool g g' out Hcall)
      as (rf' & Hmrf' & Hrfle).
    destruct (on_swap_exact_for_spec env g g' out this name
                Hthis Hname Hmode Hcall)
      as (t_in' & rf & Hin' & Hmrf & Hrest).
    assert (rf' = rf) by congruence. subst rf'.
    assert (t_in' = t_in) by congruence. subst t_in'.
    pose proof (Hrf rf Hmrf) as Hrf0.
    cbv zeta in Hrest. destruct Hrest as (Hx & Hside).
    set (input := swap_input t_in) in *.
    set (fee := input * g swap_fee_pct_scaled_var / FIXED_6_SCALE_FACTOR + 1)
      in *.
    assert (Hfee : 0 <= fee).
    { unfold fee, FIXED_6_SCALE_FACTOR.
      assert (0 <= input * g swap_fee_pct_scaled_var / 1000000)
        by (apply Z.div_pos; nia).
      lia. }
    pose proof (reserve_share_bounds _ rf Hfee (conj Hrf0 Hrfle)) as Hs'.
    destruct (swap_input_is_asset1 g t_in);
      destruct Hside as (_ & Hg2 & Hg1).
    + destruct (product_grows_exact_for (g balance_1) (g balance_2)
                                        (input - fee) Hb1 Hb2 Hx)
        as (Hn & Hp).
      rewrite Hg1, Hg2. nia.
    + destruct (product_grows_exact_for (g balance_2) (g balance_1)
                                        (input - fee) Hb2 Hb1 Hx)
        as (Hn & Hp).
      rewrite Hg1, Hg2. nia.
Qed.

Lemma swap_never_lowers_the_product_witness :
  Scenario.seeded_pool 1000000 1000000 1000000 balance_1
  * Scenario.seeded_pool 1000000 1000000 1000000 balance_2
  <= globals_after (on_swap Scenario.swap_env AlgofiAMMPool)
                   (Scenario.seeded_pool 1000000 1000000 1000000) balance_1
     * globals_after (on_swap Scenario.swap_env AlgofiAMMPool)
                     (Scenario.seeded_pool 1000000 1000000 1000000)
                     balance_2.
Proof.
  apply (swap_never_lowers_the_product
           Scenario.swap_env
           (Scenario.seeded_pool 1000000 1000000 1000000)
           (globals_after (on_swap Scenario.swap_env AlgofiAMMPool)
                          (Scenario.seeded_pool 1000000 1000000 1000000))
           [AssetTransferTo 6 996 Scenario.alice]).
  - vm_compute. discriminate.
  - vm_compute. discriminate.
  - vm_compute. discriminate.
  - intros rf H. vm_compute in H. injection H as <-. lia.
  - vm_compute. reflexivity.
Defined.


(** ** The amplification factor *)

(** Unpack a chain of subroutine steps that returned a value. *)
Ltac obind_facts :=
  repeat match goal with
         | H : obind _ _ = Some _ |- _ =>
             apply obind_Some in H;
             let x := fresh "x" in let Hx := fresh "Hx" in
             destruct H as (x & Hx & H)
         end.

(** What [interpolate_amplification_factor] returns during a ramp. *)
Lemma interpolate_during_ramp env i f ti tf A :
  latest_timestamp env < tf ->
  interpolate_amplification_factor env i f ti tf = Some A ->
  ti <= latest_timestamp env
  /\ if i <? f
     then A = i + (f - i) * (latest_timestamp env - ti) / (tf - ti)
     else f <= i
          /\ A = i - (i - f) * (latest_timestamp env - ti) / (tf - ti).
Proof.
  intros Hlt H. unfold interpolate_amplification_factor in H.
  destruct (Z.ltb_spec (latest_timestamp env) tf) as [_|Hge]; [|lia].
  destruct (Z.ltb_spec i f) as [Hup|Hdown];
    obind_facts; avm_facts; subst; split_all; lia.
Qed.

Lemma ramp_step_bounds d t ti tf :
  0 <= d -> ti <= t < tf -> 0 <= d * (t - ti) / (tf - ti) <= d.
Proof.
  intros Hd Ht. split.
  - apply Z.div_pos; nia.
  - apply Z.div_le_upper_bound; nia.
Qed.

Lemma ramp_step_monotone d t t' ti tf :
  0 <= d -> ti <= t <= t' -> t' < tf ->
  d * (t - ti) / (tf - ti) <= d * (t' - ti) / (tf - ti).
Proof.
  intros Hd Ht Ht'. apply Z.div_le_mono; nia.
Qed.

Lemma interpolate_between env i f ti tf A :
  interpolate_amplification_factor env i f ti tf = Some A ->
  Z.min i f <= A <= Z.max i f
  /\ (tf <= latest_timestamp env -> A = f)
  /\ (latest_timestamp env = ti -> latest_timestamp env < tf -> A = i).
Proof.
  intros H.
  destruct (Z.ltb_spec (latest_timestamp env) tf) as [Hlt|Hge].
  - destruct (interpolate_during_ramp env i f ti tf A Hlt H) as (Hti & HA).
    destruct (Z.ltb_spec i f) as [Hup|Hdown].
    + pose proof (ramp_step_bounds (f - i) (latest_timestamp env) ti tf
                    ltac:(lia) ltac:(lia)) as Hb.
      split_all; try lia.
      intros Heq _. subst A. rewrite Heq, Z.sub_diag, Z.mul_0_r.
      rewrite Z.div_0_l by lia. lia.
    + destruct HA as (Hfi & HA).
      pose proof (ramp_step_bounds (i - f) (latest_timestamp env) ti tf
                    ltac:(lia) ltac:(lia)) as Hb.
      split_all; try lia.
      intros Heq _. subst A. rewrite Heq, Z.sub_diag, Z.mul_0_r.
      rewrite Z.div_0_l by lia. lia.
  - unfold interpolate_amplification_factor in H.
    destruct (Z.ltb_spec (latest_timestamp env) tf) as [Hlt|_]; [lia|].
    injection H as <-. split_all; lia.
Qed.

(** X17.  The amplification factor in force is always between the initial
    and the future factor of the ramp.  It is the future factor from the
    ramp's end time on, and the initial factor at the ramp's start time. *)
Theorem amplification_factor_stays_between env i f ti tf A :
  interpolate_amplification_factor env i f ti tf = Some A ->
  Z.min i f <= A <= Z.max i f
  /\ (tf <= latest_timestamp env -> A = f)
  /\ (latest_timestamp env = ti -> latest_timestamp env < tf -> A = i).
Proof. exact (interpolate_between env i f ti tf A). Qed.

Lemma amplification_factor_stays_between_witness :
  Z.min 100000000 200000000 <= 112500000 <= Z.max 100000000 200000000
  /\ (1100 <= latest_timestamp (Scenario.env_at 400 [] 0) ->
      112500000 = 200000000)
  /\ (latest_timestamp (Scenario.env_at 400 [] 0) = 300 ->
      latest_timestamp (Scenario.env_at 400 [] 0) < 1100 ->
      112500000 = 100000000).
Proof.
  apply (amplification_factor_stays_between
           (Scenario.env_at 400 [] 0) 100000000 200000000 300 1100
           112500000).
  vm_compute. reflexivity.
Defined.

(** X18.  A ramp moves the amplification factor one way.  Of two readings of the
    same ramp, the later one is at least the earlier one when the ramp goes
    up, and at most the earlier one when it goes down. *)
Theorem amplification_factor_moves_one_way env env' i f ti tf A A' :
  latest_timestamp env <= latest_timestamp env' ->
  interpolate_amplification_factor env i f ti tf = Some A ->
  interpolate_amplification_factor env' i f ti tf = Some A' ->
  (i <= f -> A <= A') /\ (f <= i -> A' <= A).
Proof.
  intros Hle H H'.
  destruct (Z.ltb_spec (latest_timestamp env') tf) as [Hlt'|Hge'].
  - assert (Hlt : latest_timestamp env < tf) by lia.
    destruct (interpolate_during_ramp env i f ti tf A Hlt H) as (Hti & HA).
    destruct (interpolate_during_ramp env' i f ti tf A' Hlt' H')
      as (Hti' & HA').
    destruct (Z.ltb_spec i f) as [Hup|Hdown].
    + pose proof (ramp_step_monotone (f - i) (latest_timestamp env)
                    (latest_timestamp env') ti tf
                    ltac:(lia) ltac:(lia) Hlt') as Hm.
      set (q := (f - i) * (latest_timestamp env - ti) / (tf - ti)) in *.
      set (q' := (f - i) * (latest_timestamp env' - ti) / (tf - ti)) in *.
      clearbody q q'. split; lia.
    + destruct HA as (_ & HA). destruct HA' as (_ & HA').
      pose proof (ramp_step_monotone (i - f) (latest_timestamp env)
                    (latest_timestamp env') ti tf
                    ltac:(lia) ltac:(lia) Hlt') as Hm.
      pose proof (ramp_step_bounds (i - f) (latest_timestamp env) ti tf
                    ltac:(lia) ltac:(lia)) as Hq.
      pose proof (ramp_step_bounds (i - f) (latest_timestamp env') ti tf
                    ltac:(lia) ltac:(lia)) as Hq'.
      set (q := (i - f) * (latest_timestamp env - ti) / (tf - ti)) in *.
      set (q' := (i - f) * (latest_timestamp env' - ti) / (tf - ti)) in *.
      clearbody q q'. split; lia.
  - destruct (interpolate_between env' i f ti tf A' H') as (_ & Hend & _).
    rewrite (Hend Hge').
    destruct (interpolate_between env i f ti tf A H) as (Hb & _).
    split; lia.
Qed.

Lemma amplification_factor_moves_one_way_witness :
  (100000000 <= 200000000 -> 112500000 <= 150000000)
  /\ (200000000 <= 100000000 -> 150000000 <= 112500000).
Proof.
  apply (amplification_factor_moves_one_way
           (Scenario.env_at 400 [] 0) (Scenario.env_at 700 [] 0)
           100000000 200000000 300 1100 112500000 150000000).
  - vm_compute. discriminate.
  - vm_compute. reflexivity.
  - vm_compute. reflexivity.
Defined.


(** ** The stable pool's ramp and its fee budget *)

Lemma on_ramp_amplification_factor_spec env g g' out :
  call (on_ramp_amplification_factor env) g = Some (g', out) ->
  exists future_A future_time A_now,
    latest_timestamp env + g param_update_delay <= future_time
    /\ 0 < future_A < MAX_AMPLIFICATION_FACTOR
    /\ interpolate_amplification_factor
         env (g initial_amplification_factor)
         (g future_amplification_factor)
         (g initial_amplification_factor_time)
         (g future_amplification_factor_time)
       = Some A_now
    /\ g' initial_amplification_factor = A_now
    /\ g' future_amplification_factor = future_A
    /\ g' initial_amplification_factor_time = latest_timestamp env
    /\ g' future_amplification_factor_time = future_time.
Proof.
  apply (call_wlp _ _ _ _ (fun g' out => _)).
  unfold on_ramp_amplification_factor, get_amplification_factor.
  teal_expand. wlp_run.
  avm_facts; subst.
  match goal with
  | H4 : AVM.btoi _ = Some ?fa, H5 : AVM.btoi _ = Some ?ft,
    H6 : interpolate_amplification_factor _ _ _ _ _ = Some ?A,
    H7 : _ + _ <= ?ft |- _ =>
      exists fa, ft, A
  end.
  split_all; try assumption; try reflexivity; try lia.
Qed.

Lemma interpolate_at_start env A f tf :
  0 <= A <= AVM.MAX_UINT64 -> 0 <= f <= AVM.MAX_UINT64 ->
  latest_timestamp env < tf ->
  interpolate_amplification_factor env A f (latest_timestamp env) tf
  = Some A.
Proof.
  unfold AVM.MAX_UINT64. intros HA Hf Hlt.
  unfold interpolate_amplification_factor.
  destruct (Z.ltb_spec (latest_timestamp env) tf) as [_|]; [|lia].
  destruct (Z.ltb_spec A f) as [Hup|Hdown];
    rewrite !minus_ok by lia; cbn [obind];
    rewrite Z.sub_diag;
    unfold AVM.times, AVM.divide, AVM.MAX_UINT64;
    rewrite Z.mul_0_r; cbn [Z.leb Z.compare obind];
    (destruct (Z.eqb_spec (tf - latest_timestamp env) 0); [lia|]);
    cbn [obind]; rewrite Z.div_0_l by lia.
  - rewrite plus_ok by lia. f_equal. lia.
  - rewrite minus_ok by lia. f_equal. lia.
Qed.

(** X19.  A ramp starts from the factor in force.  When the update delay is
    positive and the stored factors are the natural numbers the AVM stores,
    an accepted [ramp_amplification_factor] leaves the amplification factor
    read at the time of the call exactly what it was before the call; and
    from the ramp's end time on, the factor read is the future factor given
    in the call. *)
Theorem ramp_starts_at_the_current_factor env g g' out :
  0 < g param_update_delay ->
  AVM.uint64 (g initial_amplification_factor) ->
  AVM.uint64 (g future_amplification_factor) ->
  call (on_ramp_amplification_factor env) g = Some (g', out) ->
  exists A_now,
    interpolate_amplification_factor
      env (g initial_amplification_factor) (g future_amplification_factor)
      (g initial_amplification_factor_time)
      (g future_amplification_factor_time)
    = Some A_now
    /\ interpolate_amplification_factor
         env (g' initial_amplification_factor)
         (g' future_amplification_factor)
         (g' initial_amplification_factor_time)
         (g' future_amplification_factor_time)
       = Some A_now
    /\ forall env',
         g' future_amplification_factor_time <= latest_timestamp env' ->
         interpolate_amplification_factor
           env' (g' initial_amplification_factor)
           (g' future_amplification_factor)
           (g' initial_amplification_factor_time)
           (g' future_amplification_factor_time)
         = Some (g' future_amplification_factor).
Proof.
  unfold AVM.uint64. intros Hdelay Hi Hf Hcall.
  destruct (on_ramp_amplification_factor_spec env g g' out Hcall)
    as (future_A & future_time & A_now & Htime & HA & Hnow
        & -> & -> & -> & ->).
  exists A_now. split; [exact Hnow|].
  destruct (interpolate_between _ _ _ _ _ _ Hnow) as (Hb & _).
  unfold MAX_AMPLIFICATION_FACTOR in HA.
  split.
  - apply interpolate_at_start; unfold AVM.MAX_UINT64 in *; lia.
  - intros env' Hend. unfold interpolate_amplification_factor.
    destruct (Z.ltb_spec (latest_timestamp env') future_time); [lia|].
    reflexivity.
Qed.

Lemma ramp_starts_at_the_current_factor_witness :
  exists A_now,
    interpolate_amplification_factor
      Scenario.ramp_env
      (Scenario.stable_pool initial_amplification_factor)
      (Scenario.stable_pool future_amplification_factor)
      (Scenario.stable_pool initial_amplification_factor_time)
      (Scenario.stable_pool future_amplification_factor_time)
    = Some A_now
    /\ interpolate_amplification_factor
         Scenario.ramp_env
         (globals_after (on_ramp_amplification_factor Scenario.ramp_env)
                        Scenario.stable_pool initial_amplification_factor)
         (globals_after (on_ramp_amplification_factor Scenario.ramp_env)
                        Scenario.stable_pool future_amplification_factor)
         (globals_after (on_ramp_amplification_factor Scenario.ramp_env)
                        Scenario.stable_pool
                        initial_amplification_factor_time)
         (globals_after (on_ramp_amplification_factor Scenario.ramp_env)
                        Scenario.stable_pool
                        future_amplification_factor_time)
       = Some A_now
    /\ forall env',
         globals_after (on_ramp_amplification_factor Scenario.ramp_env)
                       Scenario.stable_pool
                       future_amplification_factor_time
         <= latest_timestamp env' ->
         interpolate_amplification_factor
           env'
           (globals_after (on_ramp_amplification_factor Scenario.ramp_env)
                          Scenario.stable_pool initial_amplification_factor)
           (globals_after (on_ramp_amplification_factor Scenario.ramp_env)
                          Scenario.stable_pool future_amplification_factor)
           (globals_after (on_ramp_amplification_factor Scenario.ramp_env)
                          Scenario.stable_pool
                          initial_amplification_factor_time)
           (globals_after (on_ramp_amplification_factor Scenario.ramp_env)
                          Scenario.stable_pool
                          future_amplification_factor_time)
         = Some (globals_after
                   (on_ramp_amplification_factor Scenario.ramp_env)
                   Scenario.stable_pool future_amplification_factor).
Proof.
  apply (ramp_starts_at_the_current_factor
           Scenario.ramp_env Scenario.stable_pool
           (globals_after (on_ramp_amplification_factor Scenario.ramp_env)
                          Scenario.stable_pool)
           []).
  - reflexivity.
  - unfold AVM.uint64. vm_compute. split; discriminate.
  - unfold AVM.uint64. vm_compute. split; discriminate.
  - vm_compute. reflexivity.
Defined.


(** The budget expression of the stable pool's quotes panics when the call
    pays less than [k] minimum fees. *)
Lemma budget_underfunded env this k m :
  txn_at env (group_index env) = Some this ->
  fee this < k * min_txn_fee env ->
  wlp (Minus (Txn env fee) (Mul (Int k) (Global_min_txn_fee env))) m
      (fun _ _ => False).
Proof.
  intros Hthis Hfee. teal_expand. wlp_run.
  avm_facts. subst. lia.
Qed.

Lemma op_up_underfunded env this k app m (Q : unit -> Machine -> Prop) :
  txn_at env (group_index env) = Some this ->
  fee this < k * min_txn_fee env ->
  wlp (op_up (Minus (Txn env fee) (Mul (Int k) (Global_min_txn_fee env)))
             app) m Q.
Proof.
  intros Hthis Hfee. unfold op_up.
  apply wlp_bind_panics. exact (budget_underfunded env this k m Hthis Hfee).
Qed.

(** Walk to the calls of [op_up]: a statement that contains none is
    skipped, one that contains some must panic on every path. *)
Ltac reach_op_up Hthis Hfee :=
  repeat lazymatch goal with
  | |- wlp (op_up _ _) _ _ =>
      eapply op_up_underfunded; [exact Hthis|exact Hfee]
  | |- wlp (bind ?e _) _ _ =>
      lazymatch e with
      | context [op_up] => apply wlp_bind_panics
      | _ => apply wlp_skip; intros ? ?
      end
  | |- wlp (if ?b then _ else _) _ _ => destruct b
  end.

Lemma stable_swap_underfunded env manager_app_id g this :
  txn_at env (group_index env) = Some this ->
  fee this < 2 * min_txn_fee env ->
  call (on_swap env (AlgofiAMMStablePool env manager_app_id)) g = None.
Proof.
  intros Hthis Hfee.
  apply call_none_wlp.
  unfold on_swap.
  cbv beta delta [swap_exact_asset1_for swap_exact_asset2_for
                  swap_for_exact_asset1_amount swap_for_exact_asset2_amount
                  AlgofiAMMStablePool
                  AlgofiAMMStablePool_swap_exact_asset1_for
                  AlgofiAMMStablePool_swap_exact_asset2_for
                  AlgofiAMMStablePool_swap_for_exact_asset1_amount
                  AlgofiAMMStablePool_swap_for_exact_asset2_amount].
  cbv beta iota zeta delta [Seq If When Assert store put].
  reach_op_up Hthis Hfee.
Qed.


Lemma wlp_keep {A B} K (e : M A) (k : A -> M B) m
    (Q : B -> Machine -> Prop) :
  frames K e ->
  (forall a m', unchanged_on K (globals m) (globals m') -> wlp (k a) m' Q) ->
  wlp (bind e k) m Q.
Proof.
  intros He Hk. unfold wlp, bind.
  destruct (e m) as [[a m']|] eqn:E; [|exact I].
  exact (Hk a m' (He m a m' E)).
Qed.

Lemma stable_deposit_underfunded env manager_app_id g this :
  txn_at env (group_index env) = Some this ->
  fee this < 3 * min_txn_fee env ->
  g balance_1 + g balance_2 <> 0 ->
  call (on_pool env (AlgofiAMMStablePool env manager_app_id)) g = None.
Proof.
  intros Hthis Hfee Hfunded.
  apply call_none_wlp.
  unfold on_pool.
  cbv beta delta [calculate_lp_issuance AlgofiAMMStablePool
                  AlgofiAMMStablePool_calculate_lp_issuance].
  cbv beta zeta delta [Seq]. cbv iota beta. fold Seq.
  apply wlp_bind_panics.
  do 6 (apply (wlp_keep funds);
        [ unfold adjust_pool_input_amounts; teal_indices; teal_expand;
          frames_run
        | let H := fresh "Hkeep" in intros ? ? H ]).
  cbn [fresh globals] in *.
  assert (Hb1 : globals m'4 balance_1 = g balance_1).
  { rewrite (Hkeep4 balance_1 eq_refl), (Hkeep3 balance_1 eq_refl),
      (Hkeep2 balance_1 eq_refl), (Hkeep1 balance_1 eq_refl),
      (Hkeep0 balance_1 eq_refl). apply (Hkeep balance_1 eq_refl). }
  assert (Hb2 : globals m'4 balance_2 = g balance_2).
  { rewrite (Hkeep4 balance_2 eq_refl), (Hkeep3 balance_2 eq_refl),
      (Hkeep2 balance_2 eq_refl), (Hkeep1 balance_2 eq_refl),
      (Hkeep0 balance_2 eq_refl). apply (Hkeep balance_2 eq_refl). }
  apply wlp_bind_panics.
  cbv beta iota zeta delta [If Eq Add compare binop get Int Seq].
  wlp_run.
  all: try (exfalso; unfold globals in *; avm_facts; subst; lia).
  all: reach_op_up Hthis Hfee.
Qed.

(** X20.  The stable pool's quotes need a fee budget.  A swap on the stable
    pool whose call pays a fee below twice the minimum transaction fee is
    rejected, and so is a deposit into a funded stable pool whose call pays
    below three times the minimum fee, whatever the rest of the group: the
    budget handed to [op_up] underflows.  (What the opcode budget bought by
    [op_up] allows is not part of this model; nothing is said here about
    acceptance.) *)
Theorem stable_pool_needs_fee_budget env manager_app_id g this :
  txn_at env (group_index env) = Some this ->
  (fee this < 2 * min_txn_fee env ->
   call (on_swap env (AlgofiAMMStablePool env manager_app_id)) g = None)
  /\ (fee this < 3 * min_txn_fee env ->
      g balance_1 + g balance_2 <> 0 ->
      call (on_pool env (AlgofiAMMStablePool env manager_app_id)) g = None).
Proof.
  intros Hthis. split.
  - exact (stable_swap_underfunded env manager_app_id g this Hthis).
  - exact (stable_deposit_underfunded env manager_app_id g this Hthis).
Qed.

Lemma stable_pool_needs_fee_budget_witness :
  call (on_swap (Cases.stable_swap_env 1999)
                (AlgofiAMMStablePool (Cases.stable_swap_env 1999) 1000))
       Cases.funded_stable_pool
  = None
  /\ call (on_pool Cases.underfunded_stable_deposit_env
                   (AlgofiAMMStablePool
                      Cases.underfunded_stable_deposit_env 1000))
          Cases.funded_stable_pool
     = None.
Proof.
  split.
  - apply (proj1 (stable_pool_needs_fee_budget
                    (Cases.stable_swap_env 1999) 1000
                    Cases.funded_stable_pool
                    {| type_enum := TxnType.ApplicationCall;
                       on_completion := OnComplete.NoOp;
                       sender := Scenario.alice; fee := 1999;
                       receiver := 0; amount := 0; xfer_asset := 0;
                       asset_receiver := 0; asset_amount := 0;
                       application_id := Scenario.app_id;
                       application_args :=
                         [AlgofiAMMPoolStrings.swap_exact_for;
                          AVM.itob 1] |}
                    eq_refl)).
    reflexivity.
  - apply (proj2 (stable_pool_needs_fee_budget
                    Cases.underfunded_stable_deposit_env 1000
                    Cases.funded_stable_pool
                    {| type_enum := TxnType.ApplicationCall;
                       on_completion := OnComplete.NoOp;
                       sender := Scenario.alice; fee := 2999;
                       receiver := 0; amount := 0; xfer_asset := 0;
                       asset_receiver := 0; asset_amount := 0;
                       application_id := Scenario.app_id;
                       application_args :=
                         [AlgofiAMMPoolStrings.pool; AVM.itob 10000] |}
                    eq_refl)).
    + reflexivity.
    + vm_compute. discriminate.
Defined.


(** ** Deposits into a funded stable pool *)

Lemma Seq_repeat_submit t n m :
  Seq (repeat (submit t) n) m
  = Some (tt, mkMachine (globals m) (scratch m) (submitted m ++ repeat t n)).
Proof.
  revert m. induction n as [|n IH]; intros m; cbn [repeat Seq].
  - unfold ret. rewrite app_nil_r. destruct m; reflexivity.
  - unfold bind, submit, modify. rewrite IH.
    cbn [globals scratch submitted]. rewrite <- app_assoc. reflexivity.
Qed.

Lemma wlp_op_up (fee_budget op_farm_app_id : Expr) m
    (Q : unit -> Machine -> Prop) :
  wlp fee_budget m
      (fun f m1 =>
         wlp op_farm_app_id m1
             (fun app m2 =>
                Q tt (mkMachine
                        (globals m2) (scratch m2)
                        (submitted m2
                         ++ repeat (ApplicationCallTo app)
                                   (Z.to_nat (f / 1000)))))) ->
  wlp (op_up fee_budget op_farm_app_id) m Q.
Proof.
  intros H. unfold op_up. apply wlp_bind.
  unfold wlp in *. destruct (fee_budget m) as [[f m1]|]; [|exact I].
  unfold bind. destruct (op_farm_app_id m1) as [[app m2]|]; [|exact I].
  rewrite Seq_repeat_submit. exact H.
Qed.

Lemma stable_funded_deposit_spec env manager_app_id g g' out :
  g balance_1 + g balance_2 <> 0 ->
  call (on_pool env (AlgofiAMMStablePool env manager_app_id)) g
  = Some (g', out) ->
  exists t1 t2 this A D0 D1,
    txn_at env (group_index env - 2) = Some t1
    /\ txn_at env (group_index env - 1) = Some t2
    /\ txn_at env (group_index env) = Some this
    /\ interpolate_amplification_factor
         env (g initial_amplification_factor)
         (g future_amplification_factor)
         (g initial_amplification_factor_time)
         (g future_amplification_factor_time)
       = Some A
    /\ let a1 := deposit_amount1 g t1 in
       let a2 := asset_amount t2 in
       let k1 := fst (kept_amounts g a1 a2) in
       let k2 := snd (kept_amounts g a1 a2) in
       compute_D (g balance_1) (g balance_2) A = Some D0
       /\ compute_D (g balance_1 + k1) (g balance_2 + k2) A = Some D1
       /\ D0 <> 0 /\ D0 <= D1
       /\ let minted := g lp_circulation * (D1 - D0) / D0 in
          0 < minted
          /\ 3 * min_txn_fee env <= fee this
          /\ out = repeat (ApplicationCallTo manager_app_id)
                          (Z.to_nat ((fee this - 3 * min_txn_fee env)
                                     / 1000))
                   ++ [AssetTransferTo (g lp_id) minted (sender this)]
          /\ g' balance_1 = g balance_1 + k1
          /\ g' balance_2 = g balance_2 + k2
          /\ g' lp_circulation = g lp_circulation + minted.
Proof.
  intros Hfunded.
  apply (call_wlp _ _ _ _ (fun g' out => _)).
  unfold on_pool, adjust_pool_input_amounts.
  cbv beta delta [calculate_lp_issuance AlgofiAMMStablePool
                  AlgofiAMMStablePool_calculate_lp_issuance
                  get_amplification_factor].
  teal_indices. teal_expand.
  apply wlp_bind.
  apply (wlp_mid
           (fun _ m' =>
              exists t1,
                2 <= group_index env
                /\ txn_at env (group_index env - 2) = Some t1
                /\ 0 < deposit_amount1 g t1
                /\ m' = mkMachine
                          g
                          (set_scratch pool_asset1_amount_store
                                       (deposit_amount1 g t1) (fun _ => 0))
                          [])).
  - wlp_run.
    all: avm_facts; subst.
    all: match goal with
         | H1 : txn_at _ (_ - 2) = Some ?a |- _ => exists a
         end.
    all: unfold deposit_amount1.
    all: decide_eqb.
    all: split_all; try assumption; try reflexivity; try lia.
  - intros _ m' (t1 & Hidx & Ht1 & Ha1 & ->).
    wlp_run.
    all: apply wlp_op_up.
    all: wlp_run.
    all: avm_facts; subst.
    all: match goal with
         | H2 : txn_at _ (_ - 1) = Some ?b,
           H3 : txn_at _ (group_index _) = Some ?c,
           H4 : interpolate_amplification_factor _ _ _ _ _ = Some ?A,
           H5 : compute_D (_ balance_1) (_ balance_2) _ = Some ?D0,
           H6 : compute_D (_ + _) _ _ = Some ?D1 |- _ =>
             exists t1, b, c, A, D0, D1
         end.
    all: unfold kept_amounts.
    all: cbv zeta.
    all: unfold FIXED_9_SCALE_FACTOR, FIXED_6_SCALE_FACTOR in *.
    all: decide_tests.
    all: split_all; try assumption; try reflexivity; try lia.
    all: try (f_equal; f_equal; f_equal; lia).
Qed.

(** X21.  A deposit into a funded stable pool is issued LP tokens in proportion
    to the growth of the invariant: [floor(L * (D1 - D0) / D0)], where [D0]
    is [compute_D] of the balances before the deposit and [D1] of the
    balances after it, both at the amplification factor in force.  The call
    must pay at least three minimum fees; what it pays above them buys one
    inner call to the manager per 1000, submitted before the LP transfer. *)
Theorem stable_funded_deposit_issues_growth_of_D
    env manager_app_id g g' out :
  g balance_1 + g balance_2 <> 0 ->
  call (on_pool env (AlgofiAMMStablePool env manager_app_id)) g
  = Some (g', out) ->
  exists this A D0 D1,
    txn_at env (group_index env) = Some this
    /\ interpolate_amplification_factor
         env (g initial_amplification_factor)
         (g future_amplification_factor)
         (g initial_amplification_factor_time)
         (g future_amplification_factor_time)
       = Some A
    /\ compute_D (g balance_1) (g balance_2) A = Some D0
    /\ compute_D (g' balance_1) (g' balance_2) A = Some D1
    /\ D0 <> 0 /\ D0 <= D1
    /\ let minted := g lp_circulation * (D1 - D0) / D0 in
       0 < minted
       /\ g' lp_circulation = g lp_circulation + minted
       /\ 3 * min_txn_fee env <= fee this
       /\ out = repeat (ApplicationCallTo manager_app_id)
                       (Z.to_nat ((fee this - 3 * min_txn_fee env) / 1000))
                ++ [AssetTransferTo (g lp_id) minted (sender this)].
Proof.
  intros Hfunded Hcall.
  destruct (stable_funded_deposit_spec env manager_app_id g g' out
              Hfunded Hcall)
    as (t1 & t2 & this & A & D0 & D1 & _ & _ & Hthis & HA & Hrest).
  cbv zeta in Hrest.
  destruct Hrest as (HD0 & HD1 & Hnz & Hle & Hminted & Hfee & Hout
                     & Hb1 & Hb2 & HL).
  exists this, A, D0, D1. cbv zeta.
  rewrite Hb1, Hb2.
  split_all; assumption.
Qed.

Lemma stable_funded_deposit_issues_growth_of_D_witness :
  exists this A D0 D1,
    txn_at Cases.stable_deposit_env 2 = Some this
    /\ interpolate_amplification_factor
         Cases.stable_deposit_env
         (Cases.funded_stable_pool initial_amplification_factor)
         (Cases.funded_stable_pool future_amplification_factor)
         (Cases.funded_stable_pool initial_amplification_factor_time)
         (Cases.funded_stable_pool future_amplification_factor_time)
       = Some A
    /\ compute_D 1000000 1000000 A = Some D0
    /\ compute_D
         (globals_after
            (on_pool Cases.stable_deposit_env
                     (AlgofiAMMStablePool Cases.stable_deposit_env 1000))
            Cases.funded_stable_pool balance_1)
         (globals_after
            (on_pool Cases.stable_deposit_env
                     (AlgofiAMMStablePool Cases.stable_deposit_env 1000))
            Cases.funded_stable_pool balance_2)
         A
       = Some D1
    /\ D0 <> 0 /\ D0 <= D1
    /\ let minted := 2000000 * (D1 - D0) / D0 in
       0 < minted
       /\ globals_after
            (on_pool Cases.stable_deposit_env
                     (AlgofiAMMStablePool Cases.stable_deposit_env 1000))
            Cases.funded_stable_pool lp_circulation
          = 2000000 + minted
       /\ 3 * 1000 <= fee this
       /\ [ApplicationCallTo 1000; AssetTransferTo 9 2000000 Scenario.alice]
          = repeat (ApplicationCallTo 1000)
                   (Z.to_nat ((fee this - 3 * 1000) / 1000))
            ++ [AssetTransferTo 9 minted (sender this)].
Proof.
  apply (stable_funded_deposit_issues_growth_of_D
           Cases.stable_deposit_env 1000 Cases.funded_stable_pool
           (globals_after
              (on_pool Cases.stable_deposit_env
                       (AlgofiAMMStablePool Cases.stable_deposit_env 1000))
              Cases.funded_stable_pool)
           [ApplicationCallTo 1000; AssetTransferTo 9 2000000 Scenario.alice]).
  - vm_compute. discriminate.
  - vm_compute. reflexivity.
Defined.
